(** * Movesion business-model simulator: tier calculator and simulation engine

    A shallow embedding of [movesion_simulator/engine/tiers.py] and
    [movesion_simulator/engine/model.py], with the properties of the
    natural-language specification stated and proved over it.

    Modelling conventions.
    - Python [float] values are idealised as exact rationals [Q]; equality
      of computed amounts is [Qeq] ([==]).  Comparisons ([<], [<=], [==])
      become the boolean tests on [Q].
    - Python exceptions are an [error] value carried by the [result] monad;
      statements are sequenced in source order, so the first exception
      raised by the code is the one returned.
    - Dictionaries read with [d[k]] / [d.get(k, default)] are finite maps
      ([gmap string _]) or records of optional fields ([None] = key absent).
      Values are assumed to carry the types that [types.py] declares: on
      them the [int()], [float()] and [bool()] coercions of the code are
      the identity, and the errors those coercions raise on ill-typed
      values are outside the model. *)

From Stdlib Require Import ZArith QArith Qabs Qminmax Lqa List Bool.
From stdpp Require Import gmap strings.

Import ListNotations.
Local Open Scope Q_scope.
Local Open Scope string_scope.
Local Open Scope list_scope.

(** ** Exceptions and the result monad *)

Inductive error : Type :=
| KeyError (key : string)
| ValueError (msg : string)
| IndexError
| ZeroDivisionError.

Inductive result (A : Type) : Type :=
| OK (a : A)
| Raise (e : error).
Arguments OK {A} a.
Arguments Raise {A} e.

Definition rbind {A B} (r : result A) (k : A -> result B) : result B :=
  match r with
  | OK a => k a
  | Raise e => Raise e
  end.

Notation "'let*' x ':=' c 'in' k" := (rbind c (fun x => k))
  (at level 10, x name, c at level 100, k at level 200).

Definition is_ok {A} (r : result A) : bool :=
  match r with OK _ => true | Raise _ => false end.

(** ** Python arithmetic on floats, over [Q] *)

Definition Qltb (a b : Q) : bool := negb (Qle_bool b a).

(** [max(a, b)]: the first argument is kept unless the second is strictly
    greater. *)
Definition py_max (a b : Q) : Q := if Qltb a b then b else a.

(** [min(a, b)]: the first argument is kept unless the second is strictly
    smaller. *)
Definition py_min (a b : Q) : Q := if Qltb b a then b else a.

(** [a / b], raising [ZeroDivisionError] on a zero divisor. *)
Definition py_div (a b : Q) : result Q :=
  if Qeq_bool b 0 then Raise ZeroDivisionError else OK (a / b).

(** [sum(xs)]: left-to-right accumulation from [0]. *)
Definition py_sum (xs : list Q) : Q := fold_left Qplus xs 0.

(** ** tiers.py *)

Module TierCalculator.

(** A tier dictionary [{"up_to": ..., "price": ...}]; [up_to = None] is the
    unbounded tier. *)
Record tier : Type := Tier { up_to : option Q; price : Q }.

(** The test [up_to is None or volume <= up_to]. *)
Definition tier_matches (volume : Q) (t : tier) : bool :=
  match up_to t with
  | None => true
  | Some u => Qle_bool volume u
  end.

(** [tiers[-1]["price"]] *)
Definition last_price (tiers : list tier) : result Q :=
  match tiers with
  | [] => Raise IndexError
  | t :: ts => OK (price (List.last ts t))
  end.

(** The [for tier in tiers] loop of [apply_tiers]: [Some] is the [return]
    inside the loop, [None] is falling out of the loop. *)
Fixpoint apply_tiers_loop (volume : Q) (tiers : list tier) : option Q :=
  match tiers with
  | [] => None
  | t :: rest =>
      if tier_matches volume t then Some (volume * price t)
      else apply_tiers_loop volume rest
  end.

Definition apply_tiers (volume : Q) (tiers : list tier) : result Q :=
  if Qltb volume 0 then Raise (ValueError "Volume must be >= 0")
  else match tiers with
  | [] => Raise (ValueError "Tiers list cannot be empty")
  | _ :: _ =>
      if Qeq_bool volume 0 then OK 0
      else match apply_tiers_loop volume tiers with
      | Some c => OK c
      | None => let* p := last_price tiers in OK (volume * p)
      end
  end.

(** The loop of [apply_graduated_tiers], as a function of the loop state
    [(total_cost, remaining, previous_up_to)]; the result is [total_cost]
    when the loop ends (by [break] or by exhausting the tiers). *)
Fixpoint graduated_loop (total_cost remaining previous_up_to : Q)
    (tiers : list tier) : Q :=
  match tiers with
  | [] => total_cost
  | t :: rest =>
      match up_to t with
      | None => total_cost + remaining * price t
      | Some u =>
          let tier_volume := py_min remaining (u - previous_up_to) in
          let '(total_cost', remaining') :=
            if Qltb 0 tier_volume
            then (total_cost + tier_volume * price t, remaining - tier_volume)
            else (total_cost, remaining) in
          if Qle_bool remaining' 0 then total_cost'
          else graduated_loop total_cost' remaining' u rest
      end
  end.

Definition apply_graduated_tiers (volume : Q) (tiers : list tier) : result Q :=
  if Qltb volume 0 then Raise (ValueError "Volume must be >= 0")
  else match tiers with
  | [] => Raise (ValueError "Tiers list cannot be empty")
  | _ :: _ =>
      if Qeq_bool volume 0 then OK 0
      else OK (graduated_loop 0 volume 0 tiers)
  end.

(** The loop of [get_effective_rate]. *)
Fixpoint effective_rate_loop (volume : Q) (tiers : list tier) : option Q :=
  match tiers with
  | [] => None
  | t :: rest =>
      if tier_matches volume t then Some (price t)
      else effective_rate_loop volume rest
  end.

Definition get_effective_rate (volume : Q) (tiers : list tier) : result Q :=
  if Qle_bool volume 0 then
    match tiers with
    | [] => OK 0
    | t :: _ => OK (price t)
    end
  else match effective_rate_loop volume tiers with
  | Some p => OK p
  | None => last_price tiers
  end.

(** The [enumerate] loop of [find_tier_index], [i] being the index of the
    head of [tiers]. *)
Fixpoint find_tier_index_loop (volume : Q) (i : Z) (tiers : list tier)
    : option Z :=
  match tiers with
  | [] => None
  | t :: rest =>
      if tier_matches volume t then Some i
      else find_tier_index_loop volume (i + 1)%Z rest
  end.

Definition find_tier_index (volume : Q) (tiers : list tier) : Z :=
  match find_tier_index_loop volume 0%Z tiers with
  | Some i => i
  | None => (Z.of_nat (length tiers) - 1)%Z
  end.

End TierCalculator.

Import TierCalculator.

(** ** types.py and the dictionaries read by model.py *)

(** *** Pricing plan *)

(** An entry of [pricing_plan["fixed_monthly"]]. *)
Record fixed_item : Type := FixedItem {
  fi_key : string;
  fi_amount : Q;
  fi_mandatory : option bool;
  fi_enabled_by_default : option bool
}.

(** A value of [pricing_plan["optional_features"]]. *)
Record feature : Type := Feature {
  ft_key : option string;
  ft_enabled_by_default : option bool;
  ft_setup : option Q;
  ft_monthly : option Q
}.

(** An entry of [pricing_plan["event_fees"]]. *)
Record event_fee : Type := EventFee {
  ef_key : string;
  ef_amount : Q;
  ef_mandatory : option bool;
  ef_enabled_by_default : option bool
}.

(** A manufacturing tier; for [max_batch] and [max] the outer option is
    the presence of the key and the inner one tells a number from [null]. *)
Record mfg_tier : Type := MfgTier {
  mt_min_batch : option Q;
  mt_min : option Q;
  mt_max_batch : option (option Q);
  mt_max : option (option Q);
  mt_price : Q
}.

Record delivery_method : Type := DeliveryMethod {
  dm_key : string;
  dm_price : Q
}.

(** The pricing plan.  A tier list is [[]] when any dictionary on the path
    to it is absent, as the chained [.get(..., {})] of the source gives. *)
Record pricing_plan : Type := PricingPlan {
  pp_id : option string;
  pp_fixed_monthly : list fixed_item;
  pp_optional_features : list (string * feature);
  pp_event_fees : list event_fee;
  pp_active_cards_tiers : list tier;
  pp_eea_tiers : list tier;
  pp_non_eea_tiers : list tier;
  pp_three_ds_tiers : list tier;
  pp_manufacturing_tiers : list mfg_tier;
  pp_delivery_methods : list delivery_method;
  pp_default_method : option string
}.

(** *** Scenario *)

Record b2b_target : Type := B2BTarget {
  bt_type : option string;
  bt_months : option Z;
  bt_amount : option Q
}.

Record b2b_config : Type := B2BConfig {
  bc_companies : option Q;
  bc_platform_fee_company_month : option Q;
  bc_employee_fee_month : option Q;
  bc_mode : option string;
  bc_target : option b2b_target
}.

Record commercial_config : Type := CommercialConfig {
  cm_partner_fee_pct : option Q;
  cm_interchange_pct : option Q;
  cm_b2b : option b2b_config
}.

Record issuance_config : Type := IssuanceConfig {
  is_physical_share_issued : option Q;
  is_issued_equals_net_adds : option bool
}.

(** [toggles]: the boolean flags by key, the nested [event_fees] flags and
    the delivery-method selector. *)
Record toggles_config : Type := Toggles {
  tg_flags : gmap string bool;
  tg_event_fees : option (gmap string bool);
  tg_delivery_method : option string
}.

(** The scenario dictionary.  The sections whose values are all numbers
    ([adoption], [usage], [ops_assumptions]) are maps from key to number. *)
Record scenario : Type := Scenario {
  sc_name : option string;
  sc_horizon_months : option Z;
  sc_adoption : option (gmap string Q);
  sc_usage : option (gmap string Q);
  sc_commercial : option commercial_config;
  sc_toggles : option toggles_config;
  sc_ops_assumptions : option (gmap string Q);
  sc_issuance : option issuance_config
}.

(** *** Results *)

Record MonthlyResult : Type := mkMonthlyResult {
  month : Z;
  active_cards : Q;
  issued_cards : Q;
  issued_physical : Q;
  issued_virtual : Q;
  total_spend : Q;
  in_app_spend : Q;
  tx_count : Q;
  eea_auth : Q;
  non_eea_auth : Q;
  three_ds_attempts : Q;
  rev_partner : Q;
  rev_interchange : Q;
  rev_b2b : Q;
  cost_fixed : Q;
  cost_oneoff : Q;
  cost_active_cards : Q;
  cost_auth : Q;
  cost_3ds : Q;
  cost_events : Q;
  cost_physical : Q;
  total_revenue : Q;
  total_costs : Q;
  profit : Q;
  cumulative_profit : Q;
  costs_excl_b2b : Q;
  rev_excl_b2b : Q
}.

Module KPI.
Record SimulationKPIs : Type := mkSimulationKPIs {
  breakeven_month : option Z;
  profit_year1 : Q;
  profit_year2 : option Q;
  profit_year3 : option Q;
  required_employee_fee_month : option Q;
  total_revenue : Q;
  total_costs : Q;
  total_profit : Q;
  avg_monthly_profit : Q;
  roi_percent : option Q;
  profit_status : string;
  is_solved_breakeven : bool
}.
End KPI.

Record SimulationResult : Type := mkSimulationResult {
  rows : list MonthlyResult;
  kpis : KPI.SimulationKPIs;
  scenario_name : string;
  pricing_plan_id : string
}.

(** ** Dictionary and list access *)

(** [d[k]] on an optional field. *)
Definition require {A} (k : string) (o : option A) : result A :=
  match o with
  | Some a => OK a
  | None => Raise (KeyError k)
  end.

(** [d[k]] on a map. *)
Definition getitem {V} (d : gmap string V) (k : string) : result V :=
  require k (d !! k).

(** [d.get(k, dflt)] on a map. *)
Definition get_or `{Countable K} {V} (d : gmap K V) (k : K) (dflt : V) : V :=
  default dflt (d !! k).

(** [l[:k]] *)
Definition slice_to {A} (l : list A) (k : Z) : list A :=
  if (k <? 0)%Z
  then firstn (Z.to_nat (Z.of_nat (length l) + k)) l
  else firstn (Z.to_nat k) l.

(** [l[i:j]] for non-negative constants [i <= j]. *)
Definition slice {A} (l : list A) (i j : nat) : list A :=
  firstn (j - i) (skipn i l).

(** ** model.py *)

Module SimulationEngine.

(** The engine object: the plan and the two indices built by [__init__]. *)
Record engine : Type := Engine {
  pricing_plan_of : pricing_plan;
  _event_fees_map : gmap string event_fee;
  _optional_features : list (string * feature)
}.

(** [__init__]: in the dictionary comprehension a later entry replaces an
    earlier one with the same key. *)
Definition init (plan : pricing_plan) : engine :=
  {| pricing_plan_of := plan;
     _event_fees_map :=
       fold_left (fun (m : gmap string event_fee) e => <[ef_key e := e]> m)
                 (pp_event_fees plan) ∅;
     _optional_features := pp_optional_features plan |}.

(** The local variables of [simulate] after the parsing block. *)
Record locals : Type := Locals {
  months : Z;
  toggles : toggles_config;
  ops : gmap string Q;
  start_active : Q;
  net_adds : Q;
  churn_rate : Q;
  spend_per_active : Q;
  in_app_share : Q;
  avg_ticket : Q;
  ecom_share : Q;
  three_ds_attempt_rate : Q;
  eea_share : Q;
  auth_multiplier : Q;
  partner_fee_pct : Q;
  interchange_pct : Q;
  companies : Q;
  platform_fee_company_month : Q;
  employee_fee_month : Q;
  b2b_mode : string;
  target : b2b_target;
  target_months : Z;
  target_type : string;
  physical_share : Q;
  issued_equals_net_adds : bool
}.

Definition default_target : b2b_target :=
  B2BTarget (Some "breakeven") (Some 12%Z) None.

(** Lines 50-89 of [simulate], in source order. *)
Definition parse_scenario (sc : scenario) : result locals :=
  let* months := require "horizon_months" (sc_horizon_months sc) in
  let* adoption := require "adoption" (sc_adoption sc) in
  let* usage := require "usage" (sc_usage sc) in
  let* commercial := require "commercial" (sc_commercial sc) in
  let* toggles := require "toggles" (sc_toggles sc) in
  let ops := default ∅ (sc_ops_assumptions sc) in
  let issuance := default (IssuanceConfig None None) (sc_issuance sc) in
  let* start_active := getitem adoption "start_active_cards" in
  let net_adds := get_or adoption "monthly_net_adds" 0 in
  let churn_rate := get_or adoption "churn_rate" 0 in
  let* spend_per_active := getitem usage "spend_per_active_card_month" in
  let* in_app_share := getitem usage "in_app_share" in
  let* avg_ticket := getitem usage "avg_ticket" in
  let* ecom_share := getitem usage "ecom_share" in
  let three_ds_attempt_rate := get_or usage "three_ds_attempt_rate" 1 in
  let eea_share := get_or usage "eea_share" 0.95 in
  let auth_multiplier := get_or usage "auth_multiplier" 1 in
  let* partner_fee_pct := require "partner_fee_pct" (cm_partner_fee_pct commercial) in
  let* interchange_pct := require "interchange_pct" (cm_interchange_pct commercial) in
  let* b2b := require "b2b" (cm_b2b commercial) in
  let companies := default 1 (bc_companies b2b) in
  let platform_fee_company_month := default 0 (bc_platform_fee_company_month b2b) in
  let employee_fee_month := default 0 (bc_employee_fee_month b2b) in
  let b2b_mode := default "given" (bc_mode b2b) in
  let target := default default_target (bc_target b2b) in
  let target_months := default 12%Z (bt_months target) in
  let target_type := default "breakeven" (bt_type target) in
  let physical_share := default 0 (is_physical_share_issued issuance) in
  let issued_equals_net_adds := default true (is_issued_equals_net_adds issuance) in
  OK {| months := months; toggles := toggles; ops := ops;
        start_active := start_active; net_adds := net_adds;
        churn_rate := churn_rate; spend_per_active := spend_per_active;
        in_app_share := in_app_share; avg_ticket := avg_ticket;
        ecom_share := ecom_share;
        three_ds_attempt_rate := three_ds_attempt_rate;
        eea_share := eea_share; auth_multiplier := auth_multiplier;
        partner_fee_pct := partner_fee_pct;
        interchange_pct := interchange_pct; companies := companies;
        platform_fee_company_month := platform_fee_company_month;
        employee_fee_month := employee_fee_month; b2b_mode := b2b_mode;
        target := target; target_months := target_months;
        target_type := target_type; physical_share := physical_share;
        issued_equals_net_adds := issued_equals_net_adds |}.

(** [toggles.get(feature.get("key", key), feature.get("enabled_by_default", False))] *)
Definition feature_enabled (tg : toggles_config) (key : string) (f : feature)
    : bool :=
  get_or (tg_flags tg) (default key (ft_key f))
         (default false (ft_enabled_by_default f)).

Definition _compute_one_offs (E : engine) (months : Z) (tg : toggles_config)
    : gmap Z Q :=
  fold_left
    (fun (one_offs_by_month : gmap Z Q) kf =>
       if feature_enabled tg (fst kf) (snd kf) then
         let setup_cost := default 0 (ft_setup (snd kf)) in
         if Qltb 0 setup_cost
         then <[1%Z := get_or one_offs_by_month 1%Z 0 + setup_cost]>
                one_offs_by_month
         else one_offs_by_month
       else one_offs_by_month)
    (_optional_features E) ∅.

Definition _compute_fixed_monthly (E : engine) (tg : toggles_config) : Q :=
  let total :=
    fold_left
      (fun total item =>
         if default false (fi_mandatory item)
            || get_or (tg_flags tg) (fi_key item)
                      (default false (fi_enabled_by_default item))
         then total + fi_amount item else total)
      (pp_fixed_monthly (pricing_plan_of E)) 0 in
  fold_left
    (fun total kf =>
       if feature_enabled tg (fst kf) (snd kf)
       then total + default 0 (ft_monthly (snd kf)) else total)
    (_optional_features E) total.

(** The inner function [is_enabled] of [_compute_event_costs]. *)
Definition is_enabled (E : engine) (event_fees : gmap string bool)
    (key : string) : bool :=
  match _event_fees_map E !! key with
  | Some fee_config =>
      if default false (ef_mandatory fee_config) then true
      else get_or event_fees key
                  (default false (ef_enabled_by_default fee_config))
  | None => get_or event_fees key false
  end.

(** [cost += units * amount] when [key] is in the event-fee index. *)
Definition add_event (E : engine) (key : string) (units cost : Q) : Q :=
  match _event_fees_map E !! key with
  | Some e => cost + units * ef_amount e
  | None => cost
  end.

Definition _compute_event_costs (E : engine) (tg : toggles_config)
    (ops : gmap string Q) (issued issued_physical tx active churned : Q) : Q :=
  let event_fees := default ∅ (tg_event_fees tg) in
  let cost := 0 in
  let cost := add_event E "card_issue" issued cost in
  let cost :=
    if Qltb 0 issued_physical && is_enabled E event_fees "plastic_personalization"
    then add_event E "plastic_personalization" issued_physical cost
    else cost in
  let cost :=
    if Qltb 0 issued && is_enabled E event_fees "kyc_attempt"
    then add_event E "kyc_attempt"
           (issued * get_or ops "kyc_attempts_per_new_user" 1) cost
    else cost in
  let cost :=
    if Qltb 0 issued && is_enabled E event_fees "account_documents"
    then add_event E "account_documents"
           (issued * get_or ops "doc_confirm_rate_per_new_user" 0) cost
    else cost in
  let cost :=
    if is_enabled E event_fees "dispute"
    then add_event E "dispute" (tx * get_or ops "dispute_rate_per_tx" 0) cost
    else cost in
  let cost :=
    if is_enabled E event_fees "sms"
    then add_event E "sms"
           (active * get_or ops "sms_per_active_user_month" 0) cost
    else cost in
  let cost :=
    if is_enabled E event_fees "pin_change"
    then add_event E "pin_change"
           (active * get_or ops "pin_changes_per_active_user_month" 0) cost
    else cost in
  let cost :=
    if is_enabled E event_fees "account_closure"
    then add_event E "account_closure"
           (churned * get_or ops "closures_per_churned_user" 0) cost
    else cost in
  cost.

(** The manufacturing-tier loop: the price of the first tier whose band
    holds [issued_physical], [0] when the loop ends without a [break]. *)
Fixpoint manufacturing_price (issued_physical : Q) (tiers : list mfg_tier) : Q :=
  match tiers with
  | [] => 0
  | t :: rest =>
      let min_batch :=
        match mt_min_batch t with
        | Some v => v
        | None => default 0 (mt_min t)
        end in
      let max_batch :=
        match mt_max_batch t with
        | Some v => v
        | None => match mt_max t with Some v => v | None => None end
        end in
      if Qle_bool min_batch issued_physical
         && match max_batch with
            | None => true
            | Some mx => Qle_bool issued_physical mx
            end
      then mt_price t
      else manufacturing_price issued_physical rest
  end.

Definition _compute_physical_costs (E : engine) (tg : toggles_config)
    (issued_physical : Q) : Q :=
  let cost := 0 in
  if Qle_bool issued_physical 0 then cost
  else
    let plan := pricing_plan_of E in
    let cost :=
      if get_or (tg_flags tg) "physical_manufacturing" false then
        let tiers := pp_manufacturing_tiers plan in
        let price := manufacturing_price issued_physical tiers in
        let price :=
          match tiers with
          | t0 :: _ => if Qeq_bool price 0 then mt_price t0 else price
          | [] => price
          end in
        cost + issued_physical * price
      else cost in
    let cost :=
      if get_or (tg_flags tg) "physical_delivery" false then
        let methods := pp_delivery_methods plan in
        let default_method := default "dhl_tracked" (pp_default_method plan) in
        let method_key := default default_method (tg_delivery_method tg) in
        let method :=
          match find (fun m => String.eqb (dm_key m) method_key) methods with
          | Some m => Some m
          | None => head methods
          end in
        match method with
        | Some m => cost + issued_physical * dm_price m
        | None => cost
        end
      else cost in
    cost.

(** The body of the monthly loop for month [m], entered with the carried
    state [active] and [cumulative_profit]; the new state is read off the
    row it builds ([active_cards] and [cumulative_profit]). *)
Definition month_body (E : engine) (L : locals) (one_offs_by_month : gmap Z Q)
    (fixed_monthly_total : Q) (m : Z) (active cumulative_profit : Q)
    : result MonthlyResult :=
  let plan := pricing_plan_of E in
  let churned := active * churn_rate L in
  let active := py_max 0 (active - churned + net_adds L) in
  let issued := if issued_equals_net_adds L then net_adds L else 0 in
  let issued := py_max 0 issued in
  let issued_physical := issued * physical_share L in
  let issued_virtual := issued - issued_physical in
  let total_spend := active * spend_per_active L in
  let in_app_spend := total_spend * in_app_share L in
  let* tx :=
    if Qle_bool (avg_ticket L) 0 then OK 0
    else let* q := py_div total_spend (avg_ticket L) in
         OK (q * auth_multiplier L) in
  let eea_auth := tx * eea_share L in
  let non_eea_auth := tx - eea_auth in
  let ecom_tx := tx * ecom_share L in
  let three_ds_attempts := ecom_tx * three_ds_attempt_rate L in
  let partner_rev := in_app_spend * partner_fee_pct L in
  let interchange_rev := total_spend * interchange_pct L in
  let* active_cost := apply_tiers active (pp_active_cards_tiers plan) in
  let* eea_cost := apply_tiers eea_auth (pp_eea_tiers plan) in
  let* non_eea_cost := apply_tiers non_eea_auth (pp_non_eea_tiers plan) in
  let auth_cost := eea_cost + non_eea_cost in
  let* three_ds_cost := apply_tiers three_ds_attempts (pp_three_ds_tiers plan) in
  let fixed_cost := fixed_monthly_total in
  let one_off := get_or one_offs_by_month m 0 in
  let event_cost :=
    _compute_event_costs E (toggles L) (ops L) issued issued_physical tx
                         active churned in
  let physical_cost := _compute_physical_costs E (toggles L) issued_physical in
  let costs_excl_b2b :=
    fixed_cost + one_off + active_cost + auth_cost + three_ds_cost
    + event_cost + physical_cost in
  let rev_excl_b2b := partner_rev + interchange_rev in
  let b2b_rev :=
    if String.eqb (b2b_mode L) "given"
    then companies L * platform_fee_company_month L
         + active * employee_fee_month L
    else 0 in
  let total_rev := rev_excl_b2b + b2b_rev in
  let profit := total_rev - costs_excl_b2b in
  let cumulative_profit := cumulative_profit + profit in
  OK {| month := m;
        active_cards := active;
        issued_cards := issued;
        issued_physical := issued_physical;
        issued_virtual := issued_virtual;
        total_spend := total_spend;
        in_app_spend := in_app_spend;
        tx_count := tx;
        eea_auth := eea_auth;
        non_eea_auth := non_eea_auth;
        three_ds_attempts := three_ds_attempts;
        rev_partner := partner_rev;
        rev_interchange := interchange_rev;
        rev_b2b := b2b_rev;
        cost_fixed := fixed_cost;
        cost_oneoff := one_off;
        cost_active_cards := active_cost;
        cost_auth := auth_cost;
        cost_3ds := three_ds_cost;
        cost_events := event_cost;
        cost_physical := physical_cost;
        total_revenue := total_rev;
        total_costs := costs_excl_b2b;
        profit := profit;
        cumulative_profit := cumulative_profit;
        costs_excl_b2b := costs_excl_b2b;
        rev_excl_b2b := rev_excl_b2b |}.

(** [for m in range(1, months + 1)]: [ms] are the months still to run,
    [rows] the rows appended so far. *)
Fixpoint monthly_loop (E : engine) (L : locals) (one_offs_by_month : gmap Z Q)
    (fixed_monthly_total : Q) (ms : list Z) (active cumulative : Q)
    (rows : list MonthlyResult) : result (list MonthlyResult) :=
  match ms with
  | [] => OK rows
  | m :: ms' =>
      let* row := month_body E L one_offs_by_month fixed_monthly_total m
                             active cumulative in
      monthly_loop E L one_offs_by_month fixed_monthly_total ms'
                   (active_cards row) (cumulative_profit row) (rows ++ [row])
  end.

(** [range(1, months + 1)] *)
Definition month_range (months : Z) : list Z :=
  map Z.of_nat (seq 1 (Z.to_nat months)).

Definition _solve_employee_fee (rows : list MonthlyResult)
    (companies platform_fee_company_month : Q) (target_months : Z)
    (target_type : string) (target : b2b_target) : result Q :=
  let horizon := Z.min target_months (Z.of_nat (length rows)) in
  let total_costs := py_sum (map costs_excl_b2b (slice_to rows horizon)) in
  let total_rev := py_sum (map rev_excl_b2b (slice_to rows horizon)) in
  let total_active_months := py_sum (map active_cards (slice_to rows horizon)) in
  let platform_component :=
    companies * platform_fee_company_month * inject_Z horizon in
  let target_profit_total :=
    if String.eqb target_type "profit" then default 0 (bt_amount target)
    else if String.eqb target_type "margin"
    then let margin := default 0 (bt_amount target) in total_rev * margin
    else 0 in
  let needed_b2b_total :=
    (total_costs - total_rev) + target_profit_total - platform_component in
  if Qle_bool total_active_months 0 then OK 0
  else let* q := py_div needed_b2b_total total_active_months in
       OK (py_max 0 q).

(** The recalculation loop run after the fee is solved: every row is
    rewritten in place, [cumulative_profit] being the running total on
    entry. *)
Fixpoint recalculate (companies platform_fee_company_month
    required_employee_fee cumulative_profit : Q) (rows : list MonthlyResult)
    : list MonthlyResult :=
  match rows with
  | [] => []
  | row :: rest =>
      let rev_b2b' :=
        companies * platform_fee_company_month
        + active_cards row * required_employee_fee in
      let total_revenue' := rev_excl_b2b row + rev_b2b' in
      let profit' := total_revenue' - costs_excl_b2b row in
      let cumulative_profit := cumulative_profit + profit' in
      {| month := month row;
         active_cards := active_cards row;
         issued_cards := issued_cards row;
         issued_physical := issued_physical row;
         issued_virtual := issued_virtual row;
         total_spend := total_spend row;
         in_app_spend := in_app_spend row;
         tx_count := tx_count row;
         eea_auth := eea_auth row;
         non_eea_auth := non_eea_auth row;
         three_ds_attempts := three_ds_attempts row;
         rev_partner := rev_partner row;
         rev_interchange := rev_interchange row;
         rev_b2b := rev_b2b';
         cost_fixed := cost_fixed row;
         cost_oneoff := cost_oneoff row;
         cost_active_cards := cost_active_cards row;
         cost_auth := cost_auth row;
         cost_3ds := cost_3ds row;
         cost_events := cost_events row;
         cost_physical := cost_physical row;
         total_revenue := total_revenue';
         total_costs := total_costs row;
         profit := profit';
         cumulative_profit := cumulative_profit;
         costs_excl_b2b := costs_excl_b2b row;
         rev_excl_b2b := rev_excl_b2b row |}
      :: recalculate companies platform_fee_company_month
           required_employee_fee cumulative_profit rest
  end.

(** The breakeven loop of [_calculate_kpis]: [Some] is the [break] with
    [breakeven_month] set, [None] the loop running out. *)
Fixpoint breakeven_loop (was_negative : bool) (rows : list MonthlyResult)
    : option Z :=
  match rows with
  | [] => None
  | r :: rest =>
      if Qltb (cumulative_profit r) (-0.01) then breakeven_loop true rest
      else if was_negative && Qle_bool 0 (cumulative_profit r)
      then Some (month r)
      else breakeven_loop was_negative rest
  end.

Definition _calculate_kpis (rows : list MonthlyResult) (months : Z)
    (required_employee_fee : option Q) : result KPI.SimulationKPIs :=
  let breakeven_month := breakeven_loop false rows in
  let profit_year1 := py_sum (map profit (slice_to rows 12)) in
  let profit_year2 :=
    if (24 <=? months)%Z then Some (py_sum (map profit (slice rows 12 24)))
    else None in
  let profit_year3 :=
    if (36 <=? months)%Z then Some (py_sum (map profit (slice rows 24 36)))
    else None in
  let total_revenue := py_sum (map total_revenue rows) in
  let total_costs := py_sum (map total_costs rows) in
  let total_profit := py_sum (map profit rows) in
  let* avg_monthly_profit :=
    match rows with
    | [] => OK 0
    | _ :: _ => py_div total_profit (inject_Z (Z.of_nat (length rows)))
    end in
  let is_solved_breakeven :=
    match required_employee_fee with Some _ => true | None => false end in
  let profit_status :=
    if Qltb (Qabs total_profit) 1 then "balanced"
    else if Qltb 0 total_profit then "profitable"
    else "loss" in
  let* roi_percent :=
    if Qltb 0 total_costs
    then let* q := py_div total_profit total_costs in OK (Some (q * 100))
    else OK None in
  OK {| KPI.breakeven_month := breakeven_month;
        KPI.profit_year1 := profit_year1;
        KPI.profit_year2 := profit_year2;
        KPI.profit_year3 := profit_year3;
        KPI.required_employee_fee_month := required_employee_fee;
        KPI.total_revenue := total_revenue;
        KPI.total_costs := total_costs;
        KPI.total_profit := total_profit;
        KPI.avg_monthly_profit := avg_monthly_profit;
        KPI.roi_percent := roi_percent;
        KPI.profit_status := profit_status;
        KPI.is_solved_breakeven := is_solved_breakeven |}.

(** The first pass of [simulate]: the precomputed fees and the monthly
    loop (lines 91-210). *)
Definition first_pass (E : engine) (L : locals) : result (list MonthlyResult) :=
  let one_offs_by_month := _compute_one_offs E (months L) (toggles L) in
  let fixed_monthly_total := _compute_fixed_monthly E (toggles L) in
  monthly_loop E L one_offs_by_month fixed_monthly_total
               (month_range (months L)) (start_active L) 0 [].

(** Lines 212-230: the solver and the recalculation pass. *)
Definition solve_pass (L : locals) (rows : list MonthlyResult)
    : result (option Q * list MonthlyResult) :=
  if String.eqb (b2b_mode L) "solve_employee_fee" then
    let* required_employee_fee :=
      _solve_employee_fee rows (companies L) (platform_fee_company_month L)
                          (target_months L) (target_type L) (target L) in
    OK (Some required_employee_fee,
        recalculate (companies L) (platform_fee_company_month L)
                    required_employee_fee 0 rows)
  else OK (None, rows).

Definition simulate (E : engine) (sc : scenario) : result SimulationResult :=
  let* L := parse_scenario sc in
  let* rows := first_pass E L in
  let* solved := solve_pass L rows in
  let* kpis := _calculate_kpis (snd solved) (months L) (fst solved) in
  OK {| rows := snd solved;
        kpis := kpis;
        scenario_name := default "Unnamed Scenario" (sc_name sc);
        pricing_plan_id := default "unknown" (pp_id (pricing_plan_of E)) |}.

End SimulationEngine.

Import SimulationEngine.

(** ** A concrete plan and the base scenario of the test-suite *)

Definition sample_tiers : list tier :=
  [Tier (Some 7500) 0.95; Tier (Some 15000) 0.85; Tier None 0.75].

Definition graduated_tiers : list tier :=
  [Tier (Some 100) 1; Tier (Some 500) 0.8; Tier None 0.6].

(** A pricing plan with the figures the tests rely on: a mandatory
    maintenance fee of 2495, stepped active-card prices, flat authorisation
    prices and the card-issue event fee. *)
Definition sample_plan : pricing_plan :=
  {| pp_id := Some "wallester";
     pp_fixed_monthly :=
       [FixedItem "program_maintenance" 2495 (Some true) (Some true)];
     pp_optional_features :=
       [("dedicated_bin", Feature None (Some false) (Some 8995) (Some 995))];
     pp_event_fees :=
       [EventFee "card_issue" 0.3 (Some true) (Some true);
        EventFee "kyc_attempt" 1.5 None (Some false);
        EventFee "sms" 0.2 None (Some false)];
     pp_active_cards_tiers := sample_tiers;
     pp_eea_tiers := [Tier None 0.13];
     pp_non_eea_tiers := [Tier None 0.2];
     pp_three_ds_tiers := [Tier None 0.05];
     pp_manufacturing_tiers := [];
     pp_delivery_methods := [];
     pp_default_method := None |}.

Definition base_adoption : gmap string Q :=
  <["start_active_cards" := 3000]>
  (<["monthly_net_adds" := 0]> (<["churn_rate" := 0]> ∅)).

Definition base_usage : gmap string Q :=
  <["spend_per_active_card_month" := 200]>
  (<["in_app_share" := 0.5]>
  (<["avg_ticket" := 50]>
  (<["ecom_share" := 0.3]>
  (<["three_ds_attempt_rate" := 1]>
  (<["eea_share" := 0.95]>
  (<["auth_multiplier" := 1]> ∅)))))).

Definition base_b2b : b2b_config :=
  {| bc_companies := Some 1;
     bc_platform_fee_company_month := Some 0;
     bc_employee_fee_month := Some 0;
     bc_mode := Some "given";
     bc_target := Some (B2BTarget (Some "breakeven") (Some 12%Z) None) |}.

Definition base_toggles : toggles_config :=
  {| tg_flags := <["program_maintenance" := true]> ∅;
     tg_event_fees := Some (<["card_issue" := true]> ∅);
     tg_delivery_method := Some "dhl_tracked" |}.

Definition base_scenario : scenario :=
  {| sc_name := Some "Test Scenario";
     sc_horizon_months := Some 12%Z;
     sc_adoption := Some base_adoption;
     sc_usage := Some base_usage;
     sc_commercial :=
       Some (CommercialConfig (Some 0.02) (Some 0.002) (Some base_b2b));
     sc_toggles := Some base_toggles;
     sc_ops_assumptions := None;
     sc_issuance := Some (IssuanceConfig (Some 0) (Some true)) |}.

(** The base scenario with [monthly_net_adds = 100]. *)
Definition growth_scenario : scenario :=
  {| sc_name := sc_name base_scenario;
     sc_horizon_months := sc_horizon_months base_scenario;
     sc_adoption := Some (<["monthly_net_adds" := 100]> base_adoption);
     sc_usage := sc_usage base_scenario;
     sc_commercial := sc_commercial base_scenario;
     sc_toggles := sc_toggles base_scenario;
     sc_ops_assumptions := sc_ops_assumptions base_scenario;
     sc_issuance := sc_issuance base_scenario |}.

(** The base scenario in mode [solve_employee_fee]. *)
Definition solve_scenario : scenario :=
  {| sc_name := sc_name base_scenario;
     sc_horizon_months := sc_horizon_months base_scenario;
     sc_adoption := sc_adoption base_scenario;
     sc_usage := sc_usage base_scenario;
     sc_commercial :=
       Some (CommercialConfig (Some 0.02) (Some 0.002)
         (Some {| bc_companies := Some 1;
                  bc_platform_fee_company_month := Some 0;
                  bc_employee_fee_month := Some 0;
                  bc_mode := Some "solve_employee_fee";
                  bc_target := Some (B2BTarget (Some "breakeven") (Some 12%Z) None) |}));
     sc_toggles := sc_toggles base_scenario;
     sc_ops_assumptions := sc_ops_assumptions base_scenario;
     sc_issuance := sc_issuance base_scenario |}.

(** The base scenario with a spend of 20 per card: non-B2B revenue falls
    short of the costs. *)
Definition deficit_usage : gmap string Q :=
  <["spend_per_active_card_month" := 20]> base_usage.

Definition deficit_scenario : scenario :=
  {| sc_name := sc_name solve_scenario;
     sc_horizon_months := sc_horizon_months solve_scenario;
     sc_adoption := sc_adoption solve_scenario;
     sc_usage := Some deficit_usage;
     sc_commercial := sc_commercial solve_scenario;
     sc_toggles := sc_toggles solve_scenario;
     sc_ops_assumptions := sc_ops_assumptions solve_scenario;
     sc_issuance := sc_issuance solve_scenario |}.

(** The solve scenario with no cards at all. *)
Definition no_cards_scenario : scenario :=
  {| sc_name := sc_name solve_scenario;
     sc_horizon_months := sc_horizon_months solve_scenario;
     sc_adoption := Some (<["start_active_cards" := 0]> base_adoption);
     sc_usage := sc_usage solve_scenario;
     sc_commercial := sc_commercial solve_scenario;
     sc_toggles := sc_toggles solve_scenario;
     sc_ops_assumptions := sc_ops_assumptions solve_scenario;
     sc_issuance := sc_issuance solve_scenario |}.

(** The base scenario without its [horizon_months] key. *)
Definition no_horizon_scenario : scenario :=
  {| sc_name := sc_name base_scenario;
     sc_horizon_months := None;
     sc_adoption := sc_adoption base_scenario;
     sc_usage := sc_usage base_scenario;
     sc_commercial := sc_commercial base_scenario;
     sc_toggles := sc_toggles base_scenario;
     sc_ops_assumptions := sc_ops_assumptions base_scenario;
     sc_issuance := sc_issuance base_scenario |}.

(** The base scenario with a spend of -200 per card. *)
Definition negative_spend_scenario : scenario :=
  {| sc_name := sc_name base_scenario;
     sc_horizon_months := sc_horizon_months base_scenario;
     sc_adoption := sc_adoption base_scenario;
     sc_usage := Some (<["spend_per_active_card_month" := -200]> base_usage);
     sc_commercial := sc_commercial base_scenario;
     sc_toggles := sc_toggles base_scenario;
     sc_ops_assumptions := sc_ops_assumptions base_scenario;
     sc_issuance := sc_issuance base_scenario |}.

(** The same negative spend, with no cards. *)
Definition negative_spend_no_cards_scenario : scenario :=
  {| sc_name := sc_name base_scenario;
     sc_horizon_months := sc_horizon_months base_scenario;
     sc_adoption := Some (<["start_active_cards" := 0]> base_adoption);
     sc_usage := Some (<["spend_per_active_card_month" := -200]> base_usage);
     sc_commercial := sc_commercial base_scenario;
     sc_toggles := sc_toggles base_scenario;
     sc_ops_assumptions := sc_ops_assumptions base_scenario;
     sc_issuance := sc_issuance base_scenario |}.

(** The base scenario with a churn rate of 2, outside [0, 1]. *)
Definition excessive_churn_scenario : scenario :=
  {| sc_name := sc_name base_scenario;
     sc_horizon_months := sc_horizon_months base_scenario;
     sc_adoption := Some (<["churn_rate" := 2]> base_adoption);
     sc_usage := sc_usage base_scenario;
     sc_commercial := sc_commercial base_scenario;
     sc_toggles := sc_toggles base_scenario;
     sc_ops_assumptions := sc_ops_assumptions base_scenario;
     sc_issuance := sc_issuance base_scenario |}.

(** ** ui/app.py *)

(** [create_default_scenario(employees, spend_year, physical_pct)] *)
Definition create_default_scenario (employees : Z)
    (spend_year physical_pct : Q) : scenario :=
  {| sc_name := Some "Custom Scenario";
     sc_horizon_months := Some 12%Z;
     sc_adoption :=
       Some (<["start_active_cards" := inject_Z employees]>
             (<["monthly_net_adds" := 0]>
             (<["churn_rate" := 0]> ∅)));
     sc_usage :=
       Some (<["spend_per_active_card_month" := spend_year / 12]>
             (<["in_app_share" := 0.5]>
             (<["avg_ticket" := 50]>
             (<["ecom_share" := 0.3]>
             (<["three_ds_attempt_rate" := 1]>
             (<["eea_share" := 0.95]>
             (<["auth_multiplier" := 1]> ∅)))))));
     sc_commercial :=
       Some (CommercialConfig (Some 0.02) (Some 0.002)
         (Some {| bc_companies := Some 1;
                  bc_platform_fee_company_month := Some 0;
                  bc_employee_fee_month := Some 0;
                  bc_mode := Some "solve_employee_fee";
                  bc_target :=
                    Some (B2BTarget (Some "breakeven") (Some 12%Z) None) |}));
     sc_toggles :=
       Some {| tg_flags :=
                 <["program_maintenance" := true]>
                 (<["additional_program" := false]>
                 (<["dedicated_bin" := false]>
                 (<["data_enrichment" := false]>
                 (<["three_ds_oob" := false]>
                 (<["apple_pay" := false]>
                 (<["physical_manufacturing" := Qltb 0 physical_pct]>
                 (<["physical_delivery" := Qltb 0 physical_pct]> ∅)))))));
               tg_event_fees :=
                 Some (<["card_issue" := true]>
                       (<["plastic_personalization" := Qltb 0 physical_pct]>
                       (<["kyc_attempt" := false]>
                       (<["account_documents" := false]>
                       (<["dispute" := false]>
                       (<["sms" := false]>
                       (<["pin_change" := false]>
                       (<["account_closure" := false]> ∅))))))));
               tg_delivery_method := Some "dhl_tracked" |};
     sc_ops_assumptions :=
       Some (<["kyc_attempts_per_new_user" := 1]>
             (<["doc_confirm_rate_per_new_user" := 0]>
             (<["dispute_rate_per_tx" := 0]>
             (<["sms_per_active_user_month" := 0]>
             (<["pin_changes_per_active_user_month" := 0]>
             (<["closures_per_churned_user" := 0]> ∅))))));
     sc_issuance := Some (IssuanceConfig (Some physical_pct) (Some true)) |}.

(** ** Predicates used to state the properties *)

(** The tier test of the specification: [up_to] is null or at least the
    volume. *)
Definition in_tier (volume : Q) (t : tier) : Prop :=
  match up_to t with
  | None => True
  | Some u => volume <= u
  end.

(** The volume is at most the first tier's bound (an unbounded first tier
    holds every volume). *)
Definition within_first_tier (volume : Q) (tiers : list tier) : Prop :=
  match tiers with
  | t :: _ => in_tier volume t
  | [] => False
  end.

(** A well-formed schedule: bounds strictly increasing from [prev], the
    unbounded tier, if any, last. *)
Fixpoint ascending (prev : Q) (tiers : list tier) : Prop :=
  match tiers with
  | [] => True
  | t :: rest =>
      match up_to t with
      | None => rest = []
      | Some u => prev < u /\ ascending u rest
      end
  end.

(** Unit prices strictly decreasing along the schedule. *)
Fixpoint decreasing_prices (tiers : list tier) : Prop :=
  match tiers with
  | [] => True
  | t :: rest =>
      Forall (fun t' => price t' < price t) rest /\ decreasing_prices rest
  end.

(** A bound on the absolute unit prices of a schedule. *)
Fixpoint price_bound (tiers : list tier) : Q :=
  match tiers with
  | [] => 0
  | t :: rest => Qabs (price t) + price_bound rest
  end.

(** The rows built by the monthly loop from the state [(active,
    cumulative)] over the months [ms]: each row is the loop body run on the
    state left by the row before. *)
Inductive loop_rows (E : engine) (L : locals) (one_offs_by_month : gmap Z Q)
    (fixed_monthly_total : Q)
    : Q -> Q -> list Z -> list MonthlyResult -> Prop :=
| loop_rows_nil active cumulative :
    loop_rows E L one_offs_by_month fixed_monthly_total active cumulative [] []
| loop_rows_cons active cumulative m ms row rest :
    month_body E L one_offs_by_month fixed_monthly_total m active cumulative
    = OK row ->
    loop_rows E L one_offs_by_month fixed_monthly_total
              (active_cards row) (cumulative_profit row) ms rest ->
    loop_rows E L one_offs_by_month fixed_monthly_total active cumulative
              (m :: ms) (row :: rest).

(** [cumulative_profit] of every row is the sum of [profit] over the rows
    up to and including it. *)
Definition running_profit_invariant (rows : list MonthlyResult) : Prop :=
  forall k row,
    rows !! k = Some row ->
    cumulative_profit row = py_sum (map profit (take (S k) rows)).

(** What the recalculation pass makes of a row for the fee [fee]. *)
Definition fee_applied (cs pf fee : Q) (row : MonthlyResult) : Prop :=
  rev_b2b row = cs * pf + active_cards row * fee
  /\ total_revenue row = rev_excl_b2b row + rev_b2b row
  /\ profit row = total_revenue row - costs_excl_b2b row.

(** Cumulative profit below the tolerance of -0.01. *)
Definition in_deficit (r : MonthlyResult) : Prop :=
  cumulative_profit r < -0.01.

(** [r], found in [rows] after the rows [pre], is the first row with a
    non-negative cumulative profit that comes after a row in deficit;
    [seen] tells that a deficit was met before [rows]. *)
Definition first_recovery (seen : Prop) (rows pre : list MonthlyResult)
    (r : MonthlyResult) : Prop :=
  (exists post, rows = pre ++ r :: post)
  /\ 0 <= cumulative_profit r
  /\ (seen \/ Exists in_deficit pre)
  /\ forall pre1 r1 post1,
       pre = pre1 ++ r1 :: post1 ->
       seen \/ Exists in_deficit pre1 ->
       ~ 0 <= cumulative_profit r1.

(** No row of [rows] has a non-negative cumulative profit after a row in
    deficit. *)
Definition no_recovery (seen : Prop) (rows : list MonthlyResult) : Prop :=
  forall pre r post,
    rows = pre ++ r :: post ->
    seen \/ Exists in_deficit pre ->
    ~ 0 <= cumulative_profit r.

(** The keys [usage[k]] that [simulate] reads without a default. *)
Definition required_usage_keys : list string :=
  ["spend_per_active_card_month"; "in_app_share"; "avg_ticket"; "ecom_share"].

(** [required_absent sc k]: the required field [k] is absent from the
    scenario (its enclosing section being present). *)
Inductive required_absent (sc : scenario) : string -> Prop :=
| absent_horizon_months :
    sc_horizon_months sc = None -> required_absent sc "horizon_months"
| absent_adoption :
    sc_adoption sc = None -> required_absent sc "adoption"
| absent_usage :
    sc_usage sc = None -> required_absent sc "usage"
| absent_commercial :
    sc_commercial sc = None -> required_absent sc "commercial"
| absent_toggles :
    sc_toggles sc = None -> required_absent sc "toggles"
| absent_start_active_cards (a : gmap string Q) :
    sc_adoption sc = Some a -> a !! "start_active_cards" = None ->
    required_absent sc "start_active_cards"
| absent_usage_key (u : gmap string Q) (k : string) :
    sc_usage sc = Some u -> In k required_usage_keys -> u !! k = None ->
    required_absent sc k
| absent_partner_fee_pct (c : commercial_config) :
    sc_commercial sc = Some c -> cm_partner_fee_pct c = None ->
    required_absent sc "partner_fee_pct"
| absent_interchange_pct (c : commercial_config) :
    sc_commercial sc = Some c -> cm_interchange_pct c = None ->
    required_absent sc "interchange_pct"
| absent_b2b (c : commercial_config) :
    sc_commercial sc = Some c -> cm_b2b c = None ->
    required_absent sc "b2b".

(** A schedule with the same unit price in both bands. *)
Definition flat_tiers : list tier := [Tier (Some 100) 1; Tier None 1].

(** ** Further predicates and data *)

(** The last bound of a schedule whose tiers all carry one, [prev] for the
    empty schedule. *)
Fixpoint last_bound (prev : Q) (tiers : list tier) : Q :=
  match tiers with
  | [] => prev
  | t :: rest =>
      match up_to t with
      | Some u => last_bound u rest
      | None => prev
      end
  end.

(** Every tier of the schedule has a bound. *)
Definition all_bounded (tiers : list tier) : Prop :=
  Forall (fun t => up_to t <> None) tiers.

(** The schedule of the graduated tests without its unbounded tier. *)
Definition bounded_tiers : list tier :=
  [Tier (Some 100) 1; Tier (Some 500) 0.8].

(** The accounting identities of a row. *)
Definition row_accounts (r : MonthlyResult) : Prop :=
  issued_physical r + issued_virtual r == issued_cards r
  /\ eea_auth r + non_eea_auth r == tx_count r
  /\ rev_excl_b2b r = rev_partner r + rev_interchange r
  /\ costs_excl_b2b r
     = cost_fixed r + cost_oneoff r + cost_active_cards r + cost_auth r
       + cost_3ds r + cost_events r + cost_physical r
  /\ total_costs r = costs_excl_b2b r
  /\ total_revenue r = rev_excl_b2b r + rev_b2b r
  /\ profit r = total_revenue r - total_costs r.

(** The volumes of a row are non-negative. *)
Definition row_volumes_nonneg (r : MonthlyResult) : Prop :=
  0 <= active_cards r /\ 0 <= issued_cards r
  /\ 0 <= eea_auth r /\ 0 <= non_eea_auth r /\ 0 <= three_ds_attempts r.

(** The fields of [row] that the recalculation pass leaves as they are in
    [r0]. *)
Definition untouched (row r0 : MonthlyResult) : Prop :=
  month row = month r0
  /\ active_cards row = active_cards r0
  /\ issued_cards row = issued_cards r0
  /\ issued_physical row = issued_physical r0
  /\ issued_virtual row = issued_virtual r0
  /\ total_spend row = total_spend r0
  /\ in_app_spend row = in_app_spend r0
  /\ tx_count row = tx_count r0
  /\ eea_auth row = eea_auth r0
  /\ non_eea_auth row = non_eea_auth r0
  /\ three_ds_attempts row = three_ds_attempts r0
  /\ rev_partner row = rev_partner r0
  /\ rev_interchange row = rev_interchange r0
  /\ cost_fixed row = cost_fixed r0
  /\ cost_oneoff row = cost_oneoff r0
  /\ cost_active_cards row = cost_active_cards r0
  /\ cost_auth row = cost_auth r0
  /\ cost_3ds row = cost_3ds r0
  /\ cost_events row = cost_events r0
  /\ cost_physical row = cost_physical r0
  /\ total_costs row = total_costs r0
  /\ costs_excl_b2b row = costs_excl_b2b r0
  /\ rev_excl_b2b row = rev_excl_b2b r0.

(** The setup costs that [_compute_one_offs] charges: those of the enabled
    optional features, when positive. *)
Definition charged_setups (E : engine) (tg : toggles_config) : list Q :=
  map (fun kf => default 0 (ft_setup (snd kf)))
      (List.filter
         (fun kf => feature_enabled tg (fst kf) (snd kf)
                    && Qltb 0 (default 0 (ft_setup (snd kf))))
         (_optional_features E)).

(** The base scenario with the optional feature [dedicated_bin] on. *)
Definition dedicated_bin_scenario : scenario :=
  {| sc_name := sc_name base_scenario;
     sc_horizon_months := sc_horizon_months base_scenario;
     sc_adoption := sc_adoption base_scenario;
     sc_usage := sc_usage base_scenario;
     sc_commercial := sc_commercial base_scenario;
     sc_toggles :=
       Some {| tg_flags := <["dedicated_bin" := true]> (tg_flags base_toggles);
               tg_event_fees := tg_event_fees base_toggles;
               tg_delivery_method := tg_delivery_method base_toggles |};
     sc_ops_assumptions := sc_ops_assumptions base_scenario;
     sc_issuance := sc_issuance base_scenario |}.

(** The base scenario with a horizon of 0 months. *)
Definition zero_horizon_scenario : scenario :=
  {| sc_name := sc_name solve_scenario;
     sc_horizon_months := Some 0%Z;
     sc_adoption := sc_adoption solve_scenario;
     sc_usage := sc_usage solve_scenario;
     sc_commercial := sc_commercial solve_scenario;
     sc_toggles := sc_toggles solve_scenario;
     sc_ops_assumptions := sc_ops_assumptions solve_scenario;
     sc_issuance := sc_issuance solve_scenario |}.

(** [avg] is the average of [total] over [rows], 0 when there is no row. *)
Definition py_div_or_zero (rows : list MonthlyResult) (total avg : Q) : Prop :=
  (rows = [] /\ avg = 0)
  \/ (rows <> [] /\ avg = total / inject_Z (Z.of_nat (length rows))).

(** A plan priced in whole units and a two-month scenario solving for a
    profit of 50. *)
Definition unit_plan : pricing_plan :=
  {| pp_id := Some "unit";
     pp_fixed_monthly := [FixedItem "program_maintenance" 100 (Some true) None];
     pp_optional_features := [];
     pp_event_fees := [EventFee "card_issue" 1 (Some true) None];
     pp_active_cards_tiers := [Tier None 1];
     pp_eea_tiers := [Tier None 1];
     pp_non_eea_tiers := [Tier None 1];
     pp_three_ds_tiers := [Tier None 1];
     pp_manufacturing_tiers := [];
     pp_delivery_methods := [];
     pp_default_method := None |}.

Definition unit_scenario : scenario :=
  {| sc_name := None;
     sc_horizon_months := Some 2%Z;
     sc_adoption := Some (<["start_active_cards" := 10]> ∅);
     sc_usage :=
       Some (<["spend_per_active_card_month" := 5]>
             (<["in_app_share" := 1]>
             (<["avg_ticket" := 1]>
             (<["ecom_share" := 1]>
             (<["eea_share" := 1]> ∅)))));
     sc_commercial :=
       Some (CommercialConfig (Some 0) (Some 0)
         (Some {| bc_companies := None;
                  bc_platform_fee_company_month := None;
                  bc_employee_fee_month := None;
                  bc_mode := Some "solve_employee_fee";
                  bc_target :=
                    Some (B2BTarget (Some "profit") (Some 2%Z) (Some 50)) |}));
     sc_toggles := Some (Toggles ∅ None None);
     sc_ops_assumptions := None;
     sc_issuance := None |}.

(** [toggles["event_fees"][key] = b] *)
Definition set_event_toggle (tg : toggles_config) (key : string) (b : bool)
    : toggles_config :=
  {| tg_flags := tg_flags tg;
     tg_event_fees := Some (<[key := b]> (default ∅ (tg_event_fees tg)));
     tg_delivery_method := tg_delivery_method tg |}.

(** The band of a manufacturing tier holds the batch [n]. *)
Definition band_holds (n : Q) (t : mfg_tier) : Prop :=
  match mt_min_batch t with
  | Some v => v
  | None => default 0 (mt_min t)
  end <= n
  /\ match match mt_max_batch t with
           | Some v => v
           | None => match mt_max t with Some v => v | None => None end
           end with
     | None => True
     | Some mx => n <= mx
     end.

(** The amounts of the mandatory fixed fees of a plan. *)
Definition mandatory_amounts (plan : pricing_plan) : list Q :=
  map fi_amount
      (List.filter (fun item => default false (fi_mandatory item))
                   (pp_fixed_monthly plan)).

(** A plan with manufacturing bands and delivery methods, and toggles
    turning manufacturing or delivery on. *)
Definition physical_plan : pricing_plan :=
  {| pp_id := Some "physical";
     pp_fixed_monthly :=
       [FixedItem "program_maintenance" 100 (Some true) None;
        FixedItem "data_enrichment" 40 None (Some false)];
     pp_optional_features := [];
     pp_event_fees := [EventFee "card_issue" 1 (Some true) None];
     pp_active_cards_tiers := [Tier None 1];
     pp_eea_tiers := [Tier None 1];
     pp_non_eea_tiers := [Tier None 1];
     pp_three_ds_tiers := [Tier None 1];
     pp_manufacturing_tiers :=
       [MfgTier (Some 100) None (Some (Some 499)) None 3;
        MfgTier (Some 500) None (Some (Some 1000)) None 2];
     pp_delivery_methods :=
       [DeliveryMethod "post" 2; DeliveryMethod "dhl_tracked" 8];
     pp_default_method := None |}.

Definition manufacturing_toggles : toggles_config :=
  Toggles (<["physical_manufacturing" := true]> ∅) None None.

Definition delivery_toggles : toggles_config :=
  Toggles (<["physical_delivery" := true]> ∅) None (Some "courier").

(** The four tier schedules of the plan are non-empty. *)
Definition schedules_nonempty (plan : pricing_plan) : Prop :=
  pp_active_cards_tiers plan <> [] /\ pp_eea_tiers plan <> []
  /\ pp_non_eea_tiers plan <> [] /\ pp_three_ds_tiers plan <> [].

(** The usage figures of a scenario are in their domain: no negative
    spend, multiplier, e-commerce share or 3DS rate, and an EEA share
    between 0 and 1. *)
Definition usage_in_domain (L : locals) : Prop :=
  0 <= spend_per_active L /\ 0 <= auth_multiplier L
  /\ 0 <= eea_share L /\ eea_share L <= 1
  /\ 0 <= ecom_share L /\ 0 <= three_ds_attempt_rate L.

(** [scenario["commercial"]["b2b"]["employee_fee_month"] = fee] on a
    scenario that has both sections. *)
Definition set_employee_fee (sc : scenario) (fee : Q) : scenario :=
  match sc_commercial sc with
  | Some c =>
      match cm_b2b c with
      | Some b =>
          {| sc_name := sc_name sc;
             sc_horizon_months := sc_horizon_months sc;
             sc_adoption := sc_adoption sc;
             sc_usage := sc_usage sc;
             sc_commercial :=
               Some {| cm_partner_fee_pct := cm_partner_fee_pct c;
                       cm_interchange_pct := cm_interchange_pct c;
                       cm_b2b :=
                         Some {| bc_companies := bc_companies b;
                                 bc_platform_fee_company_month :=
                                   bc_platform_fee_company_month b;
                                 bc_employee_fee_month := Some fee;
                                 bc_mode := bc_mode b;
                                 bc_target := bc_target b |} |};
             sc_toggles := sc_toggles sc;
             sc_ops_assumptions := sc_ops_assumptions sc;
             sc_issuance := sc_issuance sc |}
      | None => sc
      end
  | None => sc
  end.

(** The values read from a scenario, with another employee fee. *)
Definition with_employee_fee (L : locals) (fee : Q) : locals :=
  {| months := months L; toggles := toggles L; ops := ops L;
     start_active := start_active L; net_adds := net_adds L;
     churn_rate := churn_rate L; spend_per_active := spend_per_active L;
     in_app_share := in_app_share L; avg_ticket := avg_ticket L;
     ecom_share := ecom_share L;
     three_ds_attempt_rate := three_ds_attempt_rate L;
     eea_share := eea_share L; auth_multiplier := auth_multiplier L;
     partner_fee_pct := partner_fee_pct L;
     interchange_pct := interchange_pct L; companies := companies L;
     platform_fee_company_month := platform_fee_company_month L;
     employee_fee_month := fee; b2b_mode := b2b_mode L;
     target := target L; target_months := target_months L;
     target_type := target_type L; physical_share := physical_share L;
     issued_equals_net_adds := issued_equals_net_adds L |}.

(** The transaction count of month 1: lines 107-120 of the loop body on the
    starting state. *)
Definition first_month_tx (L : locals) : Q :=
  let active :=
    py_max 0 (start_active L - start_active L * churn_rate L + net_adds L) in
  if Qle_bool (avg_ticket L) 0 then 0
  else active * spend_per_active L / avg_ticket L * auth_multiplier L.

(** One of the EEA, non-EEA and 3DS volumes that month 1 passes to
    [apply_tiers] is negative. *)
Definition negative_first_month_volume (L : locals) : Prop :=
  let tx := first_month_tx L in
  tx * eea_share L < 0
  \/ tx - tx * eea_share L < 0
  \/ tx * ecom_share L * three_ds_attempt_rate L < 0.

(** The base scenario with an EEA share of 1.5, outside [0, 1]. *)
Definition excessive_eea_scenario : scenario :=
  {| sc_name := sc_name base_scenario;
     sc_horizon_months := sc_horizon_months base_scenario;
     sc_adoption := sc_adoption base_scenario;
     sc_usage := Some (<["eea_share" := 1.5]> base_usage);
     sc_commercial := sc_commercial base_scenario;
     sc_toggles := sc_toggles base_scenario;
     sc_ops_assumptions := sc_ops_assumptions base_scenario;
     sc_issuance := sc_issuance base_scenario |}.

(** The base scenario with a spend of -200 per card and an average ticket
    of 0. *)
Definition zero_ticket_scenario : scenario :=
  {| sc_name := sc_name base_scenario;
     sc_horizon_months := sc_horizon_months base_scenario;
     sc_adoption := sc_adoption base_scenario;
     sc_usage :=
       Some (<["avg_ticket" := 0]>
             (<["spend_per_active_card_month" := -200]> base_usage));
     sc_commercial := sc_commercial base_scenario;
     sc_toggles := sc_toggles base_scenario;
     sc_ops_assumptions := sc_ops_assumptions base_scenario;
     sc_issuance := sc_issuance base_scenario |}.

(** A row without transactions. *)
Definition no_transactions (r : MonthlyResult) : Prop :=
  tx_count r = 0 /\ eea_auth r == 0 /\ non_eea_auth r == 0
  /\ three_ds_attempts r == 0 /\ cost_auth r == 0 /\ cost_3ds r = 0.

(** * Properties *)

(** ** The cases of the test-suite *)

Example apply_tiers_first_tier :
  apply_tiers 5000 sample_tiers = OK (5000 * 0.95).
Proof. reflexivity. Qed.

Example apply_tiers_exact_boundary :
  apply_tiers 7500 sample_tiers = OK (7500 * 0.95).
Proof. reflexivity. Qed.

Example apply_tiers_second_tier :
  apply_tiers 10000 sample_tiers = OK (10000 * 0.85).
Proof. reflexivity. Qed.

Example apply_tiers_last_tier :
  apply_tiers 50000 sample_tiers = OK (50000 * 0.75).
Proof. reflexivity. Qed.

Example apply_tiers_negative_volume_raises :
  apply_tiers (-100) sample_tiers = Raise (ValueError "Volume must be >= 0").
Proof. reflexivity. Qed.

Example find_tier_index_cases :
  map (fun v => find_tier_index v sample_tiers)
      [5000; 7500; 7501; 15000; 15001; 100000]
  = [0; 0; 1; 1; 2; 2]%Z.
Proof. reflexivity. Qed.

Example graduated_spans_all_tiers :
  exists c, apply_graduated_tiers 700 graduated_tiers = OK c /\ c == 540.
Proof. eexists. split; [reflexivity|vm_compute; reflexivity]. Qed.

Example fixed_costs_applied :
  exists res,
    simulate (init sample_plan) base_scenario = OK res
    /\ (cost_fixed <$> rows res !! 0%nat) = Some 2495
    /\ length (rows res) = 12%nat.
Proof. eexists. split; [vm_compute; reflexivity|]. split; reflexivity. Qed.

(** ** Boolean tests on [Q] *)

Lemma Qltb_lt (a b : Q) : Qltb a b = true <-> a < b.
Proof.
  unfold Qltb. rewrite negb_true_iff. split.
  - intros H. apply Qnot_le_lt. intros Hle.
    apply Qle_bool_iff in Hle. congruence.
  - intros H. destruct (Qle_bool b a) eqn:E; [|reflexivity].
    apply Qle_bool_iff in E. exfalso. exact (Qlt_not_le _ _ H E).
Qed.

Lemma Qltb_ge (a b : Q) : Qltb a b = false <-> b <= a.
Proof.
  unfold Qltb. rewrite negb_false_iff. apply Qle_bool_iff.
Qed.

Lemma Qle_bool_gt (a b : Q) : Qle_bool a b = false <-> b < a.
Proof.
  rewrite <- Qltb_lt. unfold Qltb. now rewrite negb_true_iff.
Qed.

Lemma Qeq_bool_false (a b : Q) : Qeq_bool a b = false <-> ~ a == b.
Proof.
  split.
  - intros H Heq. apply Qeq_bool_iff in Heq. congruence.
  - intros H. destruct (Qeq_bool a b) eqn:E; [|reflexivity].
    apply Qeq_bool_iff in E. contradiction.
Qed.

(** ** The tier calculator *)

Lemma tier_matches_in_tier (volume : Q) (t : tier) :
  tier_matches volume t = true <-> in_tier volume t.
Proof.
  unfold tier_matches, in_tier. destruct (up_to t).
  - apply Qle_bool_iff.
  - tauto.
Qed.

Lemma tier_matches_not_in_tier (volume : Q) (t : tier) :
  tier_matches volume t = false <-> ~ in_tier volume t.
Proof.
  rewrite <- tier_matches_in_tier. destruct (tier_matches volume t); split;
    congruence.
Qed.

(** The step loop returns at the first matching tier, and runs out exactly
    when no tier matches. *)
Lemma apply_tiers_loop_spec (volume : Q) (tiers : list tier) :
  match apply_tiers_loop volume tiers with
  | Some c =>
      exists pre t post,
        tiers = pre ++ t :: post /\ Forall (fun t' => ~ in_tier volume t') pre
        /\ in_tier volume t /\ c = volume * price t
  | None => Forall (fun t' => ~ in_tier volume t') tiers
  end.
Proof.
  induction tiers as [|t rest IH]; simpl.
  - constructor.
  - destruct (tier_matches volume t) eqn:Hm.
    + exists [], t, rest. repeat split; [constructor|].
      now apply tier_matches_in_tier.
    + apply tier_matches_not_in_tier in Hm.
      destruct (apply_tiers_loop volume rest) as [c|].
      * destruct IH as (pre & t' & post & -> & Hpre & Ht' & ->).
        exists (t :: pre), t', post. repeat split; auto.
      * constructor; assumption.
Qed.

Lemma list_last_cons_default {A} (a d d' : A) (l : list A) :
  List.last (a :: l) d = List.last (a :: l) d'.
Proof.
  revert a. induction l as [|b l IH]; intros a; [reflexivity|].
  change (List.last (b :: l) d = List.last (b :: l) d'). apply IH.
Qed.

Lemma last_list_last {A} (a : A) (l : list A) :
  last (a :: l) = Some (List.last l a).
Proof.
  revert a. induction l as [|b l IH]; intros a; [reflexivity|].
  change (last (b :: l) = Some (List.last (b :: l) a)).
  rewrite IH. f_equal. destruct l as [|c l]; [reflexivity|].
  exact (list_last_cons_default c b a l).
Qed.

Lemma last_price_last (t : tier) (rest : list tier) :
  exists tl, last (t :: rest) = Some tl /\ last_price (t :: rest) = OK (price tl).
Proof.
  exists (List.last rest t). split; [apply last_list_last|reflexivity].
Qed.

Lemma apply_tiers_raises (volume : Q) (tiers : list tier) (e : error) :
  apply_tiers volume tiers = Raise e ->
  (volume < 0 /\ e = ValueError "Volume must be >= 0")
  \/ (tiers = [] /\ e = ValueError "Tiers list cannot be empty").
Proof.
  unfold apply_tiers. destruct (Qltb volume 0) eqn:Hneg.
  - intros [= <-]. left. split; [now apply Qltb_lt|reflexivity].
  - destruct tiers as [|t rest].
    + intros [= <-]. right. split; reflexivity.
    + destruct (Qeq_bool volume 0); [discriminate|].
      destruct (apply_tiers_loop volume (t :: rest)); [discriminate|].
      destruct (last_price_last t rest) as (tl & _ & ->). discriminate.
Qed.

Lemma apply_graduated_tiers_raises (volume : Q) (tiers : list tier) (e : error) :
  apply_graduated_tiers volume tiers = Raise e ->
  (volume < 0 /\ e = ValueError "Volume must be >= 0")
  \/ (tiers = [] /\ e = ValueError "Tiers list cannot be empty").
Proof.
  unfold apply_graduated_tiers. destruct (Qltb volume 0) eqn:Hneg.
  - intros [= <-]. left. split; [now apply Qltb_lt|reflexivity].
  - destruct tiers as [|t rest].
    + intros [= <-]. right. split; reflexivity.
    + destruct (Qeq_bool volume 0); discriminate.
Qed.

Lemma is_ok_false {A} (r : result A) :
  is_ok r = false <-> exists e, r = Raise e.
Proof.
  destruct r; simpl; split; try congruence; eauto.
  intros (e & He). discriminate.
Qed.

(** C2: for a positive volume and a non-empty schedule, [apply_tiers]
    charges the whole volume at the unit price of the first tier, in
    schedule order, whose [up_to] is null or at least the volume; when no
    tier matches it charges the whole volume at the last tier's price. *)
Theorem apply_tiers_first_matching_tier (volume : Q) (tiers : list tier) :
  0 < volume -> tiers <> [] ->
  (exists pre t post,
      tiers = pre ++ t :: post
      /\ Forall (fun t' => ~ in_tier volume t') pre
      /\ in_tier volume t
      /\ apply_tiers volume tiers = OK (volume * price t))
  \/ (Forall (fun t' => ~ in_tier volume t') tiers
      /\ exists tl, last tiers = Some tl
                    /\ apply_tiers volume tiers = OK (volume * price tl)).
Proof.
  intros Hpos Hne. unfold apply_tiers.
  assert (Qltb volume 0 = false) as ->.
  { apply Qltb_ge. now apply Qlt_le_weak. }
  destruct tiers as [|t rest]; [congruence|].
  assert (Qeq_bool volume 0 = false) as ->.
  { apply Qeq_bool_false. intros Heq. rewrite Heq in Hpos.
    exact (Qlt_irrefl _ Hpos). }
  pose proof (apply_tiers_loop_spec volume (t :: rest)) as Hloop.
  destruct (apply_tiers_loop volume (t :: rest)) as [c|].
  - left. destruct Hloop as (pre & t' & post & Heq & Hpre & Ht' & ->).
    exists pre, t', post. auto.
  - right. split; [exact Hloop|].
    destruct (last_price_last t rest) as (tl & Hl & Hp).
    exists tl. split; [exact Hl|]. now rewrite Hp.
Qed.

Lemma apply_tiers_first_matching_tier_witness :
  0 < 10000 /\ sample_tiers <> [] /\
  ((exists pre t post,
      sample_tiers = pre ++ t :: post
      /\ Forall (fun t' => ~ in_tier 10000 t') pre
      /\ in_tier 10000 t
      /\ apply_tiers 10000 sample_tiers = OK (10000 * price t))
   \/ (Forall (fun t' => ~ in_tier 10000 t') sample_tiers
       /\ exists tl, last sample_tiers = Some tl
                     /\ apply_tiers 10000 sample_tiers = OK (10000 * price tl))).
Proof.
  split; [reflexivity|]. split; [discriminate|].
  apply (apply_tiers_first_matching_tier 10000 sample_tiers);
    [reflexivity|discriminate].
Defined.

(** C8: [apply_tiers] and [apply_graduated_tiers] fail exactly when the
    volume is negative or the tier list is empty, the failure is always the
    invalid-value error ([ValueError]), and on a non-empty list both return
    0 for a zero volume whatever the tiers are. *)
Theorem tier_functions_reject_exactly_bad_input (volume : Q) (tiers : list tier) :
  (is_ok (apply_tiers volume tiers) = false <-> volume < 0 \/ tiers = [])
  /\ (is_ok (apply_graduated_tiers volume tiers) = false
      <-> volume < 0 \/ tiers = [])
  /\ (forall e, apply_tiers volume tiers = Raise e
                \/ apply_graduated_tiers volume tiers = Raise e ->
                exists msg, e = ValueError msg)
  /\ (forall t rest, volume == 0 ->
        apply_tiers volume (t :: rest) = OK 0
        /\ apply_graduated_tiers volume (t :: rest) = OK 0).
Proof.
  assert (Hbad : volume < 0 \/ tiers = [] ->
                 is_ok (apply_tiers volume tiers) = false
                 /\ is_ok (apply_graduated_tiers volume tiers) = false).
  { unfold apply_tiers, apply_graduated_tiers. intros [Hneg| ->].
    - apply Qltb_lt in Hneg. rewrite Hneg. split; reflexivity.
    - destruct (Qltb volume 0); split; reflexivity. }
  repeat split.
  - intros H. apply is_ok_false in H as (e & He).
    apply apply_tiers_raises in He. tauto.
  - intros H. now apply Hbad.
  - intros H. apply is_ok_false in H as (e & He).
    apply apply_graduated_tiers_raises in He. tauto.
  - intros H. now apply Hbad.
  - intros e [He|He];
      [apply apply_tiers_raises in He|apply apply_graduated_tiers_raises in He];
      destruct He as [[_ ->]|[_ ->]]; eauto.
  - unfold apply_tiers.
    assert (Qltb volume 0 = false) as ->.
    { apply Qltb_ge. rewrite H. apply Qle_refl. }
    apply Qeq_bool_iff in H. now rewrite H.
  - unfold apply_graduated_tiers.
    assert (Qltb volume 0 = false) as ->.
    { apply Qltb_ge. rewrite H. apply Qle_refl. }
    apply Qeq_bool_iff in H. now rewrite H.
Qed.

Lemma tier_functions_reject_exactly_bad_input_witness :
  0 == 0
  /\ apply_tiers 0 sample_tiers = OK 0
  /\ apply_graduated_tiers 0 sample_tiers = OK 0.
Proof.
  split; [reflexivity|].
  destruct (tier_functions_reject_exactly_bad_input 0 sample_tiers)
    as (_ & _ & _ & H).
  apply H. reflexivity.
Defined.

(** C10: the lookup helpers accept an empty schedule, which the two cost
    functions reject: [find_tier_index] returns -1 (not a valid zero-based
    index) for every volume, and [get_effective_rate] returns 0 for every
    volume that is at most 0. *)
Theorem lookup_helpers_accept_empty_schedule (volume : Q) :
  is_ok (apply_tiers volume []) = false
  /\ is_ok (apply_graduated_tiers volume []) = false
  /\ find_tier_index volume [] = (-1)%Z
  /\ (forall t : tier, [] !! Z.to_nat (find_tier_index volume []) = Some t -> False)
  /\ (volume <= 0 -> get_effective_rate volume [] = OK 0).
Proof.
  repeat split.
  - unfold apply_tiers. destruct (Qltb volume 0); reflexivity.
  - unfold apply_graduated_tiers. destruct (Qltb volume 0); reflexivity.
  - intros t. simpl. discriminate.
  - intros H. unfold get_effective_rate.
    apply Qle_bool_iff in H. now rewrite H.
Qed.

Lemma lookup_helpers_accept_empty_schedule_witness :
  -5 <= 0 /\ get_effective_rate (-5) [] = OK 0.
Proof.
  split; [discriminate|].
  destruct (lookup_helpers_accept_empty_schedule (-5)) as (_ & _ & _ & _ & H).
  apply H. discriminate.
Defined.

(** *** The graduated loop *)

Ltac qbool :=
  repeat match goal with
  | H : Qltb _ _ = true |- _ => apply Qltb_lt in H
  | H : Qltb _ _ = false |- _ => apply Qltb_ge in H
  | H : Qle_bool _ _ = true |- _ => apply Qle_bool_iff in H
  | H : Qle_bool _ _ = false |- _ => apply Qle_bool_gt in H
  | H : Qeq_bool _ _ = true |- _ => apply Qeq_bool_iff in H
  | H : Qeq_bool _ _ = false |- _ => apply Qeq_bool_false in H
  end.

Lemma graduated_loop_zero (tot r prev : Q) (tiers : list tier) :
  r == 0 -> graduated_loop tot r prev tiers == tot.
Proof.
  intros Hr. destruct tiers as [|t rest]; simpl; [reflexivity|].
  destruct (up_to t) as [u|].
  - unfold py_min.
    destruct (Qltb (u - prev) r) eqn:E1;
      [destruct (Qltb 0 (u - prev)) eqn:E2|destruct (Qltb 0 r) eqn:E2];
      qbool; try lra.
    + assert (Qle_bool r 0 = true) as -> by (apply Qle_bool_iff; lra).
      reflexivity.
    + assert (Qle_bool r 0 = true) as -> by (apply Qle_bool_iff; lra).
      reflexivity.
  - rewrite Hr. ring.
Qed.

Lemma graduated_loop_none (tot r prev : Q) (t : tier) (rest : list tier) :
  up_to t = None ->
  graduated_loop tot r prev (t :: rest) = tot + r * price t.
Proof. intros H. simpl. now rewrite H. Qed.

Lemma graduated_loop_skip (tot r prev u : Q) (t : tier) (rest : list tier) :
  up_to t = Some u -> 0 <= r -> u - prev <= 0 ->
  graduated_loop tot r prev (t :: rest) == graduated_loop tot r u rest.
Proof.
  intros Hu Hr Hw. simpl. rewrite Hu. unfold py_min.
  destruct (Qltb (u - prev) r) eqn:E1;
    [destruct (Qltb 0 (u - prev)) eqn:E2|destruct (Qltb 0 r) eqn:E2];
    qbool; try lra.
  - destruct (Qle_bool r 0) eqn:E3; [|reflexivity]. qbool.
    symmetry. apply graduated_loop_zero. lra.
  - assert (Qle_bool r 0 = true) as -> by (apply Qle_bool_iff; lra).
    symmetry. apply graduated_loop_zero. lra.
Qed.

Lemma graduated_loop_within (tot r prev u : Q) (t : tier) (rest : list tier) :
  up_to t = Some u -> 0 <= r -> r <= u - prev ->
  graduated_loop tot r prev (t :: rest) == tot + r * price t.
Proof.
  intros Hu Hr Hw. simpl. rewrite Hu. unfold py_min.
  assert (Qltb (u - prev) r = false) as -> by (apply Qltb_ge; lra).
  destruct (Qltb 0 r) eqn:E2; qbool.
  - assert (Qle_bool (r - r) 0 = true) as -> by (apply Qle_bool_iff; lra).
    reflexivity.
  - assert (Qle_bool r 0 = true) as -> by (apply Qle_bool_iff; lra).
    assert (r == 0) as -> by lra. ring.
Qed.

Lemma graduated_loop_beyond (tot r prev u : Q) (t : tier) (rest : list tier) :
  up_to t = Some u -> 0 < u - prev -> u - prev < r ->
  graduated_loop tot r prev (t :: rest)
  = graduated_loop (tot + (u - prev) * price t) (r - (u - prev)) u rest.
Proof.
  intros Hu Hw Hr. simpl. rewrite Hu. unfold py_min.
  assert (Qltb (u - prev) r = true) as -> by (apply Qltb_lt; lra).
  assert (Qltb 0 (u - prev) = true) as -> by (apply Qltb_lt; lra).
  assert (Qle_bool (r - (u - prev)) 0 = false) as ->
    by (apply Qle_bool_gt; lra).
  reflexivity.
Qed.

(** The accumulated cost only shifts the result of the loop. *)
Lemma graduated_loop_shift (tiers : list tier) :
  forall tot r prev,
    graduated_loop tot r prev tiers == tot + graduated_loop 0 r prev tiers.
Proof.
  induction tiers as [|t rest IH]; intros tot r prev; simpl; [ring|].
  destruct (up_to t) as [u|]; [|ring].
  destruct (Qltb 0 (py_min r (u - prev)));
    [destruct (Qle_bool (r - py_min r (u - prev)) 0)|destruct (Qle_bool r 0)];
    try ring.
  - rewrite (IH (tot + _)), (IH (0 + _)). ring.
  - apply IH.
Qed.

(** The graduated cost is Lipschitz in the volume, with any bound on the
    absolute unit prices as constant. *)
Lemma graduated_loop_lipschitz (P : Q) (tiers : list tier) :
  0 <= P -> Forall (fun t => - P <= price t /\ price t <= P) tiers ->
  forall prev r s, 0 <= s -> s <= r ->
    - (P * (r - s))
      <= graduated_loop 0 r prev tiers - graduated_loop 0 s prev tiers
    /\ graduated_loop 0 r prev tiers - graduated_loop 0 s prev tiers
       <= P * (r - s).
Proof.
  intros HP Hall. induction Hall as [|t rest [Hlo Hhi] _ IH];
    intros prev r s Hs Hsr.
  - simpl. split; nra.
  - destruct (up_to t) as [u|] eqn:Hu.
    + destruct (Qlt_le_dec 0 (u - prev)) as [Hw|Hw].
      * destruct (Qlt_le_dec (u - prev) r) as [Hr|Hr];
          [destruct (Qlt_le_dec (u - prev) s) as [Hs'|Hs']|].
        -- rewrite (graduated_loop_beyond 0 r prev u t rest Hu Hw Hr).
           rewrite (graduated_loop_beyond 0 s prev u t rest Hu Hw Hs').
           rewrite (graduated_loop_shift rest (0 + _) (r - _)).
           rewrite (graduated_loop_shift rest (0 + _) (s - _)).
           destruct (IH u (r - (u - prev)) (s - (u - prev))) as [H1 H2];
             [lra|lra|]. split; lra.
        -- rewrite (graduated_loop_beyond 0 r prev u t rest Hu Hw Hr).
           rewrite (graduated_loop_within 0 s prev u t rest Hu Hs Hs').
           rewrite (graduated_loop_shift rest (0 + _) (r - _)).
           destruct (IH u (r - (u - prev)) 0) as [H1 H2]; [lra|lra|].
           rewrite (graduated_loop_zero 0 0 u rest) in H1, H2 by reflexivity.
           split; nra.
        -- rewrite (graduated_loop_within 0 r prev u t rest Hu) by lra.
           rewrite (graduated_loop_within 0 s prev u t rest Hu) by lra.
           split; nra.
      * rewrite (graduated_loop_skip 0 r prev u t rest Hu) by lra.
        rewrite (graduated_loop_skip 0 s prev u t rest Hu) by lra.
        apply IH; assumption.
    + rewrite !graduated_loop_none by assumption. split; nra.
Qed.

Lemma price_bound_nonneg (tiers : list tier) : 0 <= price_bound tiers.
Proof.
  induction tiers as [|t rest IH]; simpl; [lra|].
  pose proof (Qabs_nonneg (price t)). lra.
Qed.

Lemma price_bound_bounds (tiers : list tier) :
  Forall (fun t => - price_bound tiers <= price t
                   /\ price t <= price_bound tiers) tiers.
Proof.
  induction tiers as [|t rest IH]; [constructor|].
  pose proof (price_bound_nonneg rest) as Hrest.
  pose proof (Qabs_nonneg (price t)) as Habs.
  constructor.
  - simpl. destruct (proj1 (Qabs_Qle_condition (price t) (Qabs (price t))))
      as [H1 H2]; [apply Qle_refl|]. split; lra.
  - eapply Forall_impl; [exact IH|]. simpl. intros t' [H1 H2]. split; lra.
Qed.

(** On valid input the graduated function returns the value of its loop. *)
Lemma apply_graduated_tiers_value (v : Q) (tiers : list tier) :
  0 <= v -> tiers <> [] ->
  exists g, apply_graduated_tiers v tiers = OK g
            /\ g == graduated_loop 0 v 0 tiers.
Proof.
  intros Hv Hne. unfold apply_graduated_tiers.
  assert (Qltb v 0 = false) as -> by (now apply Qltb_ge).
  destruct tiers as [|t rest]; [congruence|].
  destruct (Qeq_bool v 0) eqn:E; qbool.
  - exists 0. split; [reflexivity|].
    symmetry. now apply graduated_loop_zero.
  - eexists. split; reflexivity.
Qed.

Lemma apply_graduated_tiers_lipschitz (tiers : list tier) (v w gv gw : Q) :
  0 <= v -> 0 <= w ->
  apply_graduated_tiers v tiers = OK gv ->
  apply_graduated_tiers w tiers = OK gw ->
  Qabs (gw - gv) <= price_bound tiers * Qabs (w - v).
Proof.
  intros Hv Hw Hgv Hgw.
  assert (Hne : tiers <> []).
  { intros ->. unfold apply_graduated_tiers in Hgv.
    destruct (Qltb v 0); discriminate. }
  destruct (apply_graduated_tiers_value v tiers Hv Hne) as (gv' & E1 & Hv').
  destruct (apply_graduated_tiers_value w tiers Hw Hne) as (gw' & E2 & Hw').
  rewrite E1 in Hgv. rewrite E2 in Hgw.
  injection Hgv as ->. injection Hgw as ->.
  pose proof (price_bound_nonneg tiers) as HP.
  pose proof (price_bound_bounds tiers) as HB.
  apply Qabs_Qle_condition.
  destruct (Qlt_le_dec v w) as [Hlt|Hle].
  - destruct (graduated_loop_lipschitz _ _ HP HB 0 w v) as [H1 H2];
      [lra|lra|].
    rewrite (Qabs_pos (w - v)) by lra. rewrite Hv', Hw'. split; lra.
  - destruct (graduated_loop_lipschitz _ _ HP HB 0 v w) as [H1 H2];
      [lra|lra|].
    rewrite (Qabs_neg (w - v)) by lra. rewrite Hv', Hw'. split; lra.
Qed.

(** Hence the graduated cost is continuous at every volume, tier bounds
    included. *)
Lemma apply_graduated_tiers_continuous (tiers : list tier) (v : Q) :
  tiers <> [] -> 0 <= v ->
  forall eps, 0 < eps ->
  exists delta, 0 < delta /\
    forall w, 0 <= w -> Qabs (w - v) < delta ->
    exists gv gw,
      apply_graduated_tiers v tiers = OK gv
      /\ apply_graduated_tiers w tiers = OK gw
      /\ Qabs (gw - gv) < eps.
Proof.
  intros Hne Hv eps Heps.
  pose proof (price_bound_nonneg tiers) as HP.
  assert (HP1 : 0 < price_bound tiers + 1) by lra.
  assert (HPne : ~ price_bound tiers + 1 == 0) by lra.
  exists (eps / (price_bound tiers + 1)). split.
  - apply Qlt_shift_div_l; lra.
  - intros w Hw Hclose.
    destruct (apply_graduated_tiers_value v tiers Hv Hne) as (gv & E1 & _).
    destruct (apply_graduated_tiers_value w tiers Hw Hne) as (gw & E2 & _).
    exists gv, gw. repeat split; try assumption.
    pose proof (apply_graduated_tiers_lipschitz tiers v w gv gw Hv Hw E1 E2)
      as Hlip.
    pose proof (Qabs_nonneg (w - v)) as Habs.
    assert (Hmul : (price_bound tiers + 1) * Qabs (w - v) < eps).
    { apply (Qmult_lt_l _ _ (price_bound tiers + 1)) in Hclose; [|exact HP1].
      rewrite Qmult_div_r in Hclose by exact HPne. exact Hclose. }
    nra.
Qed.

(** *** Step price against graduated price *)

Lemma apply_tiers_loop_rate (v : Q) (tiers : list tier) :
  apply_tiers_loop v tiers = option_map (Qmult v) (effective_rate_loop v tiers).
Proof.
  induction tiers as [|t rest IH]; simpl; [reflexivity|].
  destruct (tier_matches v t); [reflexivity|exact IH].
Qed.

Lemma effective_rate_loop_In (v pk : Q) (tiers : list tier) :
  effective_rate_loop v tiers = Some pk -> exists t, In t tiers /\ price t = pk.
Proof.
  induction tiers as [|t rest IH]; simpl; [discriminate|].
  destruct (tier_matches v t).
  - intros [= <-]. exists t. auto.
  - intros H. destruct (IH H) as (t' & Hin & Hp). exists t'. auto.
Qed.

Lemma effective_rate_loop_Exists (v : Q) (tiers : list tier) :
  Exists (in_tier v) tiers -> exists pk, effective_rate_loop v tiers = Some pk.
Proof.
  induction 1 as [t rest Ht|t rest _ IH]; simpl.
  - apply tier_matches_in_tier in Ht. rewrite Ht. eauto.
  - destruct (tier_matches v t); eauto.
Qed.

(** On a well-formed schedule with strictly decreasing prices the graduated
    loop charges the step price of the volume exactly when the volume lies
    in the first remaining tier, and strictly more otherwise. *)
Lemma graduated_loop_above_step (tiers : list tier) :
  forall tot r prev v pk,
    0 < r -> v == prev + r ->
    ascending prev tiers -> decreasing_prices tiers ->
    effective_rate_loop v tiers = Some pk ->
    (within_first_tier v tiers
     /\ graduated_loop tot r prev tiers == tot + r * pk)
    \/ tot + r * pk < graduated_loop tot r prev tiers.
Proof.
  induction tiers as [|t rest IH]; intros tot r prev v pk Hr Hv Hasc Hdec Hrate;
    [discriminate|].
  simpl in Hasc, Hdec, Hrate. destruct Hdec as [Hlt Hdec].
  unfold tier_matches in Hrate. unfold within_first_tier, in_tier.
  destruct (up_to t) as [u|] eqn:Hu.
  - destruct Hasc as [Hprev Hasc].
    destruct (Qle_bool v u) eqn:Hm; qbool.
    + injection Hrate as <-. left. split; [exact Hm|].
      apply (graduated_loop_within tot r prev u t rest Hu); lra.
    + right.
      rewrite (graduated_loop_beyond tot r prev u t rest Hu) by lra.
      destruct (effective_rate_loop_In _ _ _ Hrate) as (t' & Hin & Hp).
      assert (Hpk : pk < price t).
      { rewrite <- Hp. rewrite Forall_forall in Hlt. apply Hlt.
        now apply list_elem_of_In. }
      destruct (IH (tot + (u - prev) * price t) (r - (u - prev)) u v pk)
        as [[_ Heq]|Hgt]; try assumption; try lra.
      * rewrite Heq. nra.
      * nra.
  - injection Hrate as <-. left. split; [exact I|].
    rewrite (graduated_loop_none tot r prev t rest Hu). reflexivity.
Qed.

Lemma apply_tiers_value (v : Q) (tiers : list tier) :
  0 <= v -> tiers <> [] ->
  exists s, apply_tiers v tiers = OK s
    /\ (v == 0 -> s = 0)
    /\ (0 < v -> forall pk, effective_rate_loop v tiers = Some pk -> s = v * pk).
Proof.
  intros Hv Hne. unfold apply_tiers.
  assert (Qltb v 0 = false) as -> by (now apply Qltb_ge).
  destruct tiers as [|t rest]; [congruence|].
  destruct (Qeq_bool v 0) eqn:E; qbool.
  - exists 0. repeat split. intros Hpos. lra.
  - rewrite apply_tiers_loop_rate.
    destruct (effective_rate_loop v (t :: rest)) as [pk|]; simpl.
    + exists (v * pk). repeat split; [tauto|]. now intros _ pk' [= <-].
    + destruct (last_price_last t rest) as (tl & _ & Hp).
      simpl in Hp. eexists. repeat split; [tauto|]. intros _ pk'. discriminate.
Qed.

(** C9 (amended): the graduated cost has no discontinuity at any volume,
    tier bounds included; it equals the step cost whenever the volume is at
    most the first tier's bound; and on a well-formed schedule (bounds
    strictly increasing from 0, unbounded tier last) with strictly
    decreasing unit prices, for a volume that some tier holds, it equals
    the step cost only then. *)
Theorem graduated_continuous_and_equal_within_first_tier
    (tiers : list tier) (v : Q) :
  tiers <> [] -> 0 <= v ->
  (forall eps, 0 < eps ->
     exists delta, 0 < delta /\
       forall w, 0 <= w -> Qabs (w - v) < delta ->
       exists gv gw,
         apply_graduated_tiers v tiers = OK gv
         /\ apply_graduated_tiers w tiers = OK gw
         /\ Qabs (gw - gv) < eps)
  /\ exists g s,
       apply_graduated_tiers v tiers = OK g
       /\ apply_tiers v tiers = OK s
       /\ (within_first_tier v tiers -> g == s)
       /\ (ascending 0 tiers -> decreasing_prices tiers ->
           Exists (in_tier v) tiers -> g == s -> within_first_tier v tiers).
Proof.
  intros Hne Hv. split; [now apply apply_graduated_tiers_continuous|].
  destruct (apply_graduated_tiers_value v tiers Hv Hne) as (g & Hg & Hgv).
  destruct (apply_tiers_value v tiers Hv Hne) as (s & Hs & Hs0 & Hspos).
  exists g, s. repeat split; try assumption.
  - (* within the first tier the two prices agree *)
    destruct tiers as [|t rest]; [contradiction|]. simpl. intros Hin.
    destruct (Qlt_le_dec 0 v) as [Hpos|Hzero].
    + assert (Hrate : effective_rate_loop v (t :: rest) = Some (price t)).
      { simpl. apply tier_matches_in_tier in Hin. now rewrite Hin. }
      rewrite (Hspos Hpos _ Hrate), Hgv.
      unfold in_tier in Hin. destruct (up_to t) as [u|] eqn:Hu.
      * rewrite (graduated_loop_within 0 v 0 u t rest Hu) by lra. ring.
      * rewrite (graduated_loop_none 0 v 0 t rest Hu). ring.
    + assert (Hv0 : v == 0) by lra.
      rewrite (Hs0 Hv0), Hgv. now apply graduated_loop_zero.
  - (* on well-formed decreasing schedules they agree only there *)
    intros Hasc Hdec Hex Heq.
    destruct (Qlt_le_dec 0 v) as [Hpos|Hzero].
    + destruct (effective_rate_loop_Exists v tiers Hex) as (pk & Hrate).
      destruct (graduated_loop_above_step tiers 0 v 0 v pk)
        as [[Hin _]|Hgt]; try assumption; try lra.
      rewrite (Hspos Hpos _ Hrate) in Heq. rewrite Hgv in Heq. lra.
    + destruct tiers as [|t rest]; [contradiction|].
      simpl in Hasc |- *. unfold in_tier.
      destruct (up_to t) as [u|]; [|exact I]. lra.
Qed.

Lemma graduated_continuous_and_equal_within_first_tier_witness :
  graduated_tiers <> [] /\ 0 <= 50 /\ within_first_tier 50 graduated_tiers
  /\ exists g s,
       apply_graduated_tiers 50 graduated_tiers = OK g
       /\ apply_tiers 50 graduated_tiers = OK s
       /\ g == s.
Proof.
  assert (Hne : graduated_tiers <> []) by discriminate.
  assert (Hv : 0 <= 50) by discriminate.
  assert (Hin : within_first_tier 50 graduated_tiers) by discriminate.
  repeat split; try assumption.
  destruct (graduated_continuous_and_equal_within_first_tier
              graduated_tiers 50 Hne Hv) as (_ & g & s & Hg & Hs & H & _).
  exists g, s. auto.
Defined.

(** C9, as stated, fails on a schedule with equal prices: at volume 200,
    beyond the first bound 100, the graduated and the step cost are both
    200. *)
Lemma graduated_equals_step_beyond_first_bound :
  exists g s,
    apply_graduated_tiers 200 flat_tiers = OK g
    /\ apply_tiers 200 flat_tiers = OK s
    /\ g == s
    /\ ~ within_first_tier 200 flat_tiers.
Proof.
  eexists. eexists. split; [reflexivity|]. split; [reflexivity|].
  split; [reflexivity|]. simpl. unfold in_tier. simpl.
  intros H. apply Qle_bool_iff in H. discriminate.
Qed.

(** ** The simulation engine *)

Lemma rbind_ok {A B} (r : result A) (k : A -> result B) (b : B) :
  rbind r k = OK b -> exists a, r = OK a /\ k a = OK b.
Proof. destruct r as [a|e]; simpl; [eauto|discriminate]. Qed.

Lemma month_body_inv E L oo fixed m active cumulative row :
  month_body E L oo fixed m active cumulative = OK row ->
  month row = m
  /\ active_cards row
     = py_max 0 (active - active * churn_rate L + net_adds L)
  /\ cumulative_profit row = cumulative + profit row
  /\ profit row = total_revenue row - costs_excl_b2b row
  /\ total_revenue row = rev_excl_b2b row + rev_b2b row
  /\ rev_b2b row
     = (if String.eqb (b2b_mode L) "given"
        then companies L * platform_fee_company_month L
             + active_cards row * employee_fee_month L
        else 0).
Proof.
  unfold month_body. intros H.
  repeat (apply rbind_ok in H as (? & _ & H)).
  injection H as <-. simpl. repeat split; reflexivity.
Qed.

(** The accumulating loop appends the rows of [loop_rows] to the rows it
    starts from. *)
Lemma monthly_loop_rows E L oo fixed ms :
  forall active cumulative acc out,
    monthly_loop E L oo fixed ms active cumulative acc = OK out ->
    exists new,
      out = acc ++ new
      /\ loop_rows E L oo fixed active cumulative ms new.
Proof.
  induction ms as [|m ms IH]; intros active cumulative acc out H; simpl in H.
  - injection H as <-. exists []. split; [now rewrite app_nil_r|constructor].
  - apply rbind_ok in H as (row & Hrow & H).
    apply IH in H as (new & -> & Hnew).
    exists (row :: new). split.
    + now rewrite <- app_assoc.
    + econstructor; eassumption.
Qed.

Lemma first_pass_rows E L rows0 :
  first_pass E L = OK rows0 ->
  loop_rows E L (_compute_one_offs E (months L) (toggles L))
            (_compute_fixed_monthly E (toggles L))
            (start_active L) 0 (month_range (months L)) rows0.
Proof.
  unfold first_pass. intros H.
  apply monthly_loop_rows in H as (new & -> & Hnew). exact Hnew.
Qed.

Lemma loop_rows_length E L oo fixed active cumulative ms rs :
  loop_rows E L oo fixed active cumulative ms rs -> length rs = length ms.
Proof. induction 1; simpl; congruence. Qed.

Lemma loop_rows_running_sum E L oo fixed active cumulative ms rs :
  loop_rows E L oo fixed active cumulative ms rs ->
  forall k row,
    rs !! k = Some row ->
    cumulative_profit row
    = fold_left Qplus (map profit (take (S k) rs)) cumulative.
Proof.
  induction 1 as [|active cumulative m ms row rest Hbody _ IH];
    intros k r Hk; [discriminate|].
  apply month_body_inv in Hbody as (_ & _ & Hcum & _).
  destruct k as [|k]; simpl in Hk.
  - injection Hk as <-. simpl. rewrite ?take_0. exact Hcum.
  - rewrite (IH k r Hk). simpl. now rewrite Hcum.
Qed.

Lemma recalculate_running_sum cs pf fee rs :
  forall cumulative k row,
    recalculate cs pf fee cumulative rs !! k = Some row ->
    cumulative_profit row
    = fold_left Qplus
        (map profit (take (S k) (recalculate cs pf fee cumulative rs)))
        cumulative.
Proof.
  induction rs as [|r rs IH]; intros cumulative k row Hk; [discriminate|].
  destruct k as [|k]; simpl in Hk.
  - injection Hk as <-. simpl. rewrite ?take_0. reflexivity.
  - rewrite (IH _ k row Hk). reflexivity.
Qed.

Lemma solve_pass_inv L rows0 fee_opt rows1 :
  solve_pass L rows0 = OK (fee_opt, rows1) ->
  (b2b_mode L = "solve_employee_fee"
   /\ exists fee,
        _solve_employee_fee rows0 (companies L) (platform_fee_company_month L)
                            (target_months L) (target_type L) (target L)
        = OK fee
        /\ fee_opt = Some fee
        /\ rows1 = recalculate (companies L) (platform_fee_company_month L)
                               fee 0 rows0)
  \/ (b2b_mode L <> "solve_employee_fee" /\ fee_opt = None /\ rows1 = rows0).
Proof.
  unfold solve_pass.
  destruct (String.eqb_spec (b2b_mode L) "solve_employee_fee") as [Hm|Hm].
  - intros H. apply rbind_ok in H as (fee & Hfee & H). injection H as <- <-.
    left. split; [exact Hm|]. exists fee. auto.
  - intros [= <- <-]. right. auto.
Qed.

Lemma simulate_inv E sc res :
  simulate E sc = OK res ->
  exists L rows0 fee_opt,
    parse_scenario sc = OK L
    /\ first_pass E L = OK rows0
    /\ solve_pass L rows0 = OK (fee_opt, rows res)
    /\ _calculate_kpis (rows res) (months L) fee_opt = OK (kpis res).
Proof.
  unfold simulate. intros H.
  apply rbind_ok in H as (L & HL & H).
  apply rbind_ok in H as (rows0 & Hrows & H).
  apply rbind_ok in H as ([fee_opt rows1] & Hsolve & H).
  apply rbind_ok in H as (kp & Hk & H).
  injection H as <-. simpl in *. exists L, rows0, fee_opt. auto.
Qed.

Lemma recalculate_lookup cs pf fee rs :
  forall cumulative k row,
    recalculate cs pf fee cumulative rs !! k = Some row ->
    exists r0,
      rs !! k = Some r0
      /\ month row = month r0
      /\ active_cards row = active_cards r0
      /\ costs_excl_b2b row = costs_excl_b2b r0
      /\ rev_excl_b2b row = rev_excl_b2b r0
      /\ rev_b2b row = cs * pf + active_cards r0 * fee
      /\ total_revenue row = rev_excl_b2b row + rev_b2b row
      /\ profit row = total_revenue row - costs_excl_b2b row.
Proof.
  induction rs as [|r rs IH]; intros cumulative k row Hk; [discriminate|].
  destruct k as [|k]; simpl in Hk.
  - injection Hk as <-. exists r. simpl. repeat split; reflexivity.
  - exact (IH _ k row Hk).
Qed.

Lemma recalculate_length cs pf fee rs :
  forall cumulative, length (recalculate cs pf fee cumulative rs) = length rs.
Proof. induction rs as [|r rs IH]; intros c; simpl; [|rewrite IH]; reflexivity. Qed.

Lemma recalculate_map {A} (f : MonthlyResult -> A) cs pf fee rs :
  (forall cumulative k row r0,
      recalculate cs pf fee cumulative rs !! k = Some row ->
      rs !! k = Some r0 -> f row = f r0) ->
  forall cumulative, map f (recalculate cs pf fee cumulative rs) = map f rs.
Proof.
  intros Hf cumulative. apply list_eq. intros k.
  rewrite !list_lookup_fmap.
  destruct (recalculate cs pf fee cumulative rs !! k) as [row|] eqn:E1.
  - destruct (recalculate_lookup _ _ _ _ _ _ _ E1) as (r0 & E0 & _).
    rewrite E0. simpl. f_equal. eapply Hf; eassumption.
  - apply lookup_ge_None in E1. rewrite recalculate_length in E1.
    apply lookup_ge_None in E1. now rewrite E1.
Qed.

(** The rows returned by the second pass keep the month and the card count
    of the rows of the first pass. *)
Lemma solve_pass_rows L rows0 fee_opt rows1 :
  solve_pass L rows0 = OK (fee_opt, rows1) ->
  length rows1 = length rows0
  /\ forall k row,
       rows1 !! k = Some row ->
       exists r0, rows0 !! k = Some r0
                  /\ month row = month r0
                  /\ active_cards row = active_cards r0.
Proof.
  intros H. apply solve_pass_inv in H as [(_ & fee & _ & _ & ->)|(_ & _ & ->)].
  - split; [apply recalculate_length|]. intros k row Hk.
    apply recalculate_lookup in Hk as (r0 & H0 & Hm & Ha & _). eauto.
  - split; [reflexivity|]. intros k row Hk. eauto.
Qed.

Lemma loop_rows_months E L oo fixed active cumulative ms rs :
  loop_rows E L oo fixed active cumulative ms rs -> map month rs = ms.
Proof.
  induction 1 as [|? ? ? ? ? ? Hbody _ IH]; [reflexivity|].
  apply month_body_inv in Hbody as (Hm & _). simpl. congruence.
Qed.

Lemma month_range_lookup (months : Z) (k : nat) (m : Z) :
  month_range months !! k = Some m -> m = Z.of_nat (S k).
Proof.
  unfold month_range. rewrite list_lookup_fmap.
  destruct (seq 1 (Z.to_nat months) !! k) as [n|] eqn:E; [|discriminate].
  apply lookup_seq in E as [-> _]. intros [= <-]. reflexivity.
Qed.

Lemma month_range_length (months : Z) :
  length (month_range months) = Z.to_nat months.
Proof. unfold month_range. now rewrite length_map, length_seq. Qed.

Lemma simulate_months E sc res :
  simulate E sc = OK res ->
  forall k row, rows res !! k = Some row -> month row = Z.of_nat (S k).
Proof.
  intros H k row Hk.
  apply simulate_inv in H as (L & rows0 & fo & _ & H1 & H2 & _).
  apply solve_pass_rows in H2 as [_ H2].
  destruct (H2 k row Hk) as (r0 & Hr0 & -> & _).
  apply first_pass_rows, loop_rows_months in H1.
  apply (month_range_lookup (months L)). rewrite <- H1.
  rewrite list_lookup_fmap, Hr0. reflexivity.
Qed.

Lemma simulate_running_profit E sc res :
  simulate E sc = OK res -> running_profit_invariant (rows res).
Proof.
  intros H.
  apply simulate_inv in H as (L & rows0 & fo & HL & H1 & H2 & _).
  pose proof (first_pass_rows E L rows0 H1) as Hrows.
  apply solve_pass_inv in H2 as [(Hm & fee & _ & _ & Hr)|(Hm & _ & Hr)];
    rewrite Hr; intros k row Hk.
  - exact (recalculate_running_sum _ _ _ _ 0 k row Hk).
  - exact (loop_rows_running_sum _ _ _ _ _ _ _ _ Hrows k row Hk).
Qed.

(** C5: in every simulation result the cumulative profit of the row of
    month m is the sum of the profits of the rows of months 1 to m; this
    holds for the rows of the monthly pass and for the rows returned after
    the B2B-fee pass has rewritten them. *)
Theorem cumulative_profit_is_running_sum E sc res :
  simulate E sc = OK res ->
  running_profit_invariant (rows res)
  /\ (forall k row, rows res !! k = Some row -> month row = Z.of_nat (S k))
  /\ exists L rows0,
       parse_scenario sc = OK L
       /\ first_pass E L = OK rows0
       /\ running_profit_invariant rows0
       /\ (b2b_mode L <> "solve_employee_fee" -> rows res = rows0)
       /\ (b2b_mode L = "solve_employee_fee" ->
           exists fee,
             rows res
             = recalculate (companies L) (platform_fee_company_month L)
                           fee 0 rows0).
Proof.
  intros H. pose proof (simulate_months E sc res H) as Hmon.
  apply simulate_inv in H as (L & rows0 & fo & HL & H1 & H2 & _).
  pose proof (first_pass_rows E L rows0 H1) as Hrows.
  assert (Hinv0 : running_profit_invariant rows0).
  { intros k row Hk.
    exact (loop_rows_running_sum _ _ _ _ _ _ _ _ Hrows k row Hk). }
  apply solve_pass_inv in H2 as [(Hm & fee & _ & _ & Hr)|(Hm & _ & Hr)].
  - split; [|split; [exact Hmon|]].
    + rewrite Hr. intros k row Hk.
      exact (recalculate_running_sum _ _ _ _ 0 k row Hk).
    + exists L, rows0.
      split; [exact HL|]. split; [exact H1|]. split; [exact Hinv0|].
      split; [congruence|]. intros _. exists fee. exact Hr.
  - split; [|split; [exact Hmon|]].
    + now rewrite Hr.
    + exists L, rows0.
      split; [exact HL|]. split; [exact H1|]. split; [exact Hinv0|].
      split; [intros _; exact Hr|]. intros Hm'. contradiction.
Qed.

Lemma cumulative_profit_is_running_sum_witness :
  exists res,
    simulate (init sample_plan) solve_scenario = OK res
    /\ running_profit_invariant (rows res).
Proof.
  assert (Hok : is_ok (simulate (init sample_plan) solve_scenario) = true)
    by (vm_compute; reflexivity).
  destruct (simulate (init sample_plan) solve_scenario) as [res|e] eqn:H;
    [|discriminate Hok].
  exists res. split; [reflexivity|].
  exact (proj1 (cumulative_profit_is_running_sum _ _ _ H)).
Defined.

(** *** The active-card recurrence *)

Lemma py_max_nonneg (x : Q) : 0 <= x -> py_max 0 x == x.
Proof.
  intros Hx. unfold py_max. destruct (Qltb 0 x) eqn:E; qbool; lra.
Qed.

Lemma py_max_ge_0 (x : Q) : 0 <= py_max 0 x.
Proof.
  unfold py_max. destruct (Qltb 0 x) eqn:E; qbool; lra.
Qed.

Lemma loop_rows_recurrence E L oo fixed active cumulative ms rs :
  loop_rows E L oo fixed active cumulative ms rs ->
  (forall row, rs !! 0%nat = Some row ->
     active_cards row
     = py_max 0 (active - active * churn_rate L + net_adds L))
  /\ (forall k r r', rs !! k = Some r -> rs !! S k = Some r' ->
        active_cards r'
        = py_max 0 (active_cards r - active_cards r * churn_rate L
                    + net_adds L)).
Proof.
  induction 1 as [|active cumulative m ms row rest Hbody _ [IH0 IHS]];
    [split; intros; discriminate|].
  apply month_body_inv in Hbody as (_ & Hact & _). split.
  - intros r [= <-]. exact Hact.
  - intros k r r' Hk Hk'. destruct k as [|k]; simpl in Hk, Hk'.
    + injection Hk as <-. now apply IH0.
    + now apply (IHS k).
Qed.

(** With no churn and non-negative net adds the card count grows by the
    net adds every month. *)
Lemma loop_rows_zero_churn E L oo fixed active cumulative ms rs :
  loop_rows E L oo fixed active cumulative ms rs ->
  churn_rate L == 0 -> 0 <= net_adds L -> 0 <= active ->
  forall k row, rs !! k = Some row ->
    active_cards row == active + inject_Z (Z.of_nat (S k)) * net_adds L.
Proof.
  intros Hrows Hchurn Hnet.
  induction Hrows as [|active cumulative m ms row rest Hbody _ IH];
    intros Hact k r Hk; [discriminate|].
  apply month_body_inv in Hbody as (_ & Hrow & _).
  assert (Hnew : active_cards row == active + net_adds L).
  { rewrite Hrow, py_max_nonneg; rewrite Hchurn; lra. }
  destruct k as [|k]; simpl in Hk.
  - injection Hk as <-. rewrite Hnew. change (inject_Z (Z.of_nat 1)) with 1.
    ring.
  - rewrite (IH ltac:(rewrite Hnew; lra) k r Hk), Hnew.
    rewrite (Nat2Z.inj_succ (S k)), <- Z.add_1_r, inject_Z_plus.
    change (inject_Z 1) with 1. ring.
Qed.

(** C1: in every simulation result the active cards follow the recurrence
    [active = max(0, active_prev - active_prev * churn_rate + net_adds)]
    from the starting count, with the same [net_adds] every month; in
    particular 3000 starting cards, 100 net adds, no churn and a 12-month
    horizon give 3100 active cards in month 1 and 4200 in month 12. *)
Theorem active_cards_follow_recurrence E sc L res :
  parse_scenario sc = OK L ->
  simulate E sc = OK res ->
  length (rows res) = Z.to_nat (months L)
  /\ (forall row, rows res !! 0%nat = Some row ->
        active_cards row
        = py_max 0 (start_active L - start_active L * churn_rate L
                    + net_adds L))
  /\ (forall k r r', rows res !! k = Some r -> rows res !! S k = Some r' ->
        active_cards r'
        = py_max 0 (active_cards r - active_cards r * churn_rate L
                    + net_adds L))
  /\ (start_active L == 3000 -> net_adds L == 100 -> churn_rate L == 0 ->
      months L = 12%Z ->
      exists r1 r12,
        rows res !! 0%nat = Some r1 /\ rows res !! 11%nat = Some r12
        /\ month r1 = 1%Z /\ month r12 = 12%Z
        /\ active_cards r1 == 3100 /\ active_cards r12 == 4200).
Proof.
  intros HL H. pose proof (simulate_months E sc res H) as Hmon.
  apply simulate_inv in H as (L' & rows0 & fo & HL' & H1 & H2 & _).
  rewrite HL in HL'. injection HL' as <-.
  pose proof (first_pass_rows E L rows0 H1) as Hrows.
  apply solve_pass_rows in H2 as [Hlen Hsame].
  destruct (loop_rows_recurrence _ _ _ _ _ _ _ _ Hrows) as [R0 RS].
  assert (Hlength : length (rows res) = Z.to_nat (months L)).
  { rewrite Hlen, (loop_rows_length _ _ _ _ _ _ _ _ Hrows).
    apply month_range_length. }
  split; [exact Hlength|]. split; [|split].
  - intros row Hk. destruct (Hsame _ _ Hk) as (r0 & Hr0 & _ & ->).
    now apply R0.
  - intros k r r' Hk Hk'.
    destruct (Hsame _ _ Hk) as (r0 & Hr0 & _ & ->).
    destruct (Hsame _ _ Hk') as (r0' & Hr0' & _ & ->).
    now apply (RS k).
  - intros Hstart Hnet Hchurn Hmonths.
    rewrite Hmonths in Hlength.
    destruct (lookup_lt_is_Some_2 (rows res) 0%nat) as [r1 Hr1];
      [rewrite Hlength; simpl; lia|].
    destruct (lookup_lt_is_Some_2 (rows res) 11%nat) as [r12 Hr12];
      [rewrite Hlength; simpl; lia|].
    exists r1, r12. split; [exact Hr1|]. split; [exact Hr12|].
    split; [exact (Hmon _ _ Hr1)|]. split; [exact (Hmon _ _ Hr12)|].
    destruct (Hsame _ _ Hr1) as (q1 & Hq1 & _ & ->).
    destruct (Hsame _ _ Hr12) as (q12 & Hq12 & _ & ->).
    assert (Hgrow := loop_rows_zero_churn _ _ _ _ _ _ _ _ Hrows Hchurn).
    rewrite (Hgrow ltac:(lra) ltac:(lra) _ _ Hq1).
    rewrite (Hgrow ltac:(lra) ltac:(lra) _ _ Hq12).
    rewrite Hstart, Hnet. split; reflexivity.
Qed.

Lemma active_cards_follow_recurrence_witness :
  exists L res r1 r12,
    parse_scenario growth_scenario = OK L
    /\ simulate (init sample_plan) growth_scenario = OK res
    /\ (start_active L == 3000 /\ net_adds L == 100 /\ churn_rate L == 0
        /\ months L = 12%Z)
    /\ rows res !! 0%nat = Some r1 /\ rows res !! 11%nat = Some r12
    /\ active_cards r1 == 3100 /\ active_cards r12 == 4200.
Proof.
  assert (Hok : is_ok (simulate (init sample_plan) growth_scenario) = true)
    by (vm_compute; reflexivity).
  assert (Hvals : match parse_scenario growth_scenario with
                  | OK L => start_active L == 3000 /\ net_adds L == 100
                            /\ churn_rate L == 0 /\ months L = 12%Z
                  | Raise _ => False
                  end) by (vm_compute; repeat split).
  destruct (parse_scenario growth_scenario) as [L|e] eqn:HL; [|contradiction].
  destruct (simulate (init sample_plan) growth_scenario) as [res|e] eqn:H;
    [|discriminate Hok].
  destruct (active_cards_follow_recurrence _ _ _ _ HL H) as (_ & _ & _ & Hex).
  destruct Hvals as (H1 & H2 & H3 & H4).
  destruct (Hex H1 H2 H3 H4) as (r1 & r12 & Hr1 & Hr12 & _ & _ & Ha1 & Ha12).
  exists L, res, r1, r12. repeat split; assumption.
Defined.

(** *** Sums, the solver and the KPIs *)

Lemma fold_left_Qplus_shift (xs : list Q) :
  forall a, fold_left Qplus xs a == a + fold_left Qplus xs 0.
Proof.
  induction xs as [|x xs IH]; intros a; simpl; [ring|].
  rewrite (IH (a + x)), (IH (0 + x)). ring.
Qed.

Lemma py_sum_cons (x : Q) (xs : list Q) : py_sum (x :: xs) == x + py_sum xs.
Proof.
  unfold py_sum. simpl. rewrite fold_left_Qplus_shift. ring.
Qed.

Lemma py_div_ok (a b : Q) : ~ b == 0 -> py_div a b = OK (a / b).
Proof.
  intros H. unfold py_div. apply Qeq_bool_false in H. now rewrite H.
Qed.

Lemma py_max_Qmax (x : Q) : py_max 0 x == Qmax 0 x.
Proof.
  unfold py_max. destruct (Qltb 0 x) eqn:E; qbool.
  - symmetry. apply Q.max_r. lra.
  - symmetry. apply Q.max_l. exact E.
Qed.

(** The solver never fails: the division is guarded by the test on the
    card-months. *)
Lemma solve_employee_fee_value rows cs pf tm tt tgt :
  let window := slice_to rows (Z.min tm (Z.of_nat (length rows))) in
  let total_costs := py_sum (map costs_excl_b2b window) in
  let total_rev := py_sum (map rev_excl_b2b window) in
  let total_active_months := py_sum (map active_cards window) in
  let target_profit_total :=
    if String.eqb tt "profit" then default 0 (bt_amount tgt)
    else if String.eqb tt "margin" then total_rev * default 0 (bt_amount tgt)
    else 0 in
  let needed :=
    (total_costs - total_rev) + target_profit_total
    - cs * pf * inject_Z (Z.min tm (Z.of_nat (length rows))) in
  exists fee,
    _solve_employee_fee rows cs pf tm tt tgt = OK fee
    /\ (total_active_months <= 0 -> fee = 0)
    /\ (0 < total_active_months ->
        fee = py_max 0 (needed / total_active_months)).
Proof.
  intros window total_costs total_rev total_active_months
         target_profit_total needed.
  unfold _solve_employee_fee.
  fold window. fold total_costs. fold total_rev. fold total_active_months.
  fold target_profit_total. fold needed.
  destruct (Qle_bool total_active_months 0) eqn:E; qbool.
  - exists 0. repeat split. intros H. lra.
  - rewrite py_div_ok by lra. simpl. eexists. repeat split. intros H. lra.
Qed.

Lemma calculate_kpis_total rows months fee_opt :
  exists kp,
    _calculate_kpis rows months fee_opt = OK kp
    /\ KPI.required_employee_fee_month kp = fee_opt
    /\ KPI.breakeven_month kp = breakeven_loop false rows.
Proof.
  unfold _calculate_kpis.
  assert (Havg : exists a,
    match rows with
    | [] => OK 0
    | _ :: _ => py_div (py_sum (map profit rows))
                       (inject_Z (Z.of_nat (length rows)))
    end = OK a).
  { destruct rows as [|r rs]; [eauto|].
    rewrite py_div_ok; [eauto|].
    unfold Qeq. simpl. lia. }
  destruct Havg as (a & ->). simpl.
  destruct (Qltb 0 (py_sum (map total_costs rows))) eqn:E; qbool.
  - rewrite py_div_ok by lra. simpl. eexists. repeat split.
  - simpl. eexists. repeat split.
Qed.

Lemma slice_to_nonneg {A} (l : list A) (k : Z) :
  (0 <= k)%Z -> slice_to l k = take (Z.to_nat k) l.
Proof.
  intros Hk. unfold slice_to.
  destruct (Z.ltb_spec k 0); [lia|reflexivity].
Qed.

Lemma simulate_solve_mode E sc L rows0 fee :
  parse_scenario sc = OK L ->
  first_pass E L = OK rows0 ->
  b2b_mode L = "solve_employee_fee" ->
  _solve_employee_fee rows0 (companies L) (platform_fee_company_month L)
                      (target_months L) (target_type L) (target L) = OK fee ->
  exists res,
    simulate E sc = OK res
    /\ rows res = recalculate (companies L) (platform_fee_company_month L)
                              fee 0 rows0
    /\ KPI.required_employee_fee_month (kpis res) = Some fee.
Proof.
  intros HL H1 Hm Hfee. unfold simulate. rewrite HL. simpl. rewrite H1. simpl.
  unfold solve_pass. rewrite Hm. simpl String.eqb. cbv iota.
  rewrite Hfee. simpl.
  destruct (calculate_kpis_total
              (recalculate (companies L) (platform_fee_company_month L)
                           fee 0 rows0) (months L) (Some fee))
    as (kp & -> & Hkp & _).
  simpl. eexists. repeat split. exact Hkp.
Qed.

(** C3: in mode [solve_employee_fee] the fee is
    [max(0, ((sum costs - sum rev) + target_profit
             - companies * platform_fee * horizon) / sum active_cards)]
    over the first [horizon = min(target months, simulated horizon)] rows,
    the target profit being 0 for breakeven, the amount for profit and
    amount times the non-B2B revenue of the window for margin; when the
    active cards of the window sum to 0 or less the fee is 0, and
    [simulate] returns a result all the same. *)
Theorem solve_employee_fee_formula E sc L rows0 :
  parse_scenario sc = OK L ->
  first_pass E L = OK rows0 ->
  b2b_mode L = "solve_employee_fee" ->
  let horizon := Z.min (target_months L) (Z.of_nat (length rows0)) in
  let window := slice_to rows0 horizon in
  let sum_costs := py_sum (map costs_excl_b2b window) in
  let sum_rev := py_sum (map rev_excl_b2b window) in
  let sum_active := py_sum (map active_cards window) in
  let amount := default 0 (bt_amount (target L)) in
  exists res fee target_profit,
    simulate E sc = OK res
    /\ KPI.required_employee_fee_month (kpis res) = Some fee
    /\ (target_type L = "breakeven" -> target_profit = 0)
    /\ (target_type L = "profit" -> target_profit = amount)
    /\ (target_type L = "margin" -> target_profit == amount * sum_rev)
    /\ (sum_active <= 0 -> fee = 0)
    /\ (0 < sum_active ->
        fee == Qmax 0 (((sum_costs - sum_rev) + target_profit
                        - companies L * platform_fee_company_month L
                          * inject_Z horizon) / sum_active))
    /\ ((0 <= months L)%Z ->
        horizon = Z.min (target_months L) (months L))
    /\ ((0 <= target_months L)%Z ->
        window = take (Z.to_nat horizon) rows0).
Proof.
  intros HL H1 Hm horizon window sum_costs sum_rev sum_active amount.
  destruct (solve_employee_fee_value rows0 (companies L)
              (platform_fee_company_month L) (target_months L)
              (target_type L) (target L)) as (fee & Hfee & Hzero & Hpos).
  destruct (simulate_solve_mode E sc L rows0 fee HL H1 Hm Hfee)
    as (res & Hres & _ & Hkpi).
  exists res, fee.
  exists (if String.eqb (target_type L) "profit" then amount
          else if String.eqb (target_type L) "margin" then sum_rev * amount
          else 0).
  split; [exact Hres|]. split; [exact Hkpi|].
  split; [intros ->; reflexivity|]. split; [intros ->; reflexivity|].
  split; [intros ->; simpl; ring|].
  split; [exact Hzero|]. split; [|split].
  - intros Hact. rewrite (Hpos Hact). apply py_max_Qmax.
  - intros Hmonths. unfold horizon.
    rewrite (loop_rows_length _ _ _ _ _ _ _ _ (first_pass_rows E L rows0 H1)).
    rewrite month_range_length, Z2Nat.id by exact Hmonths. reflexivity.
  - intros Htm. apply slice_to_nonneg. unfold horizon. lia.
Qed.

Lemma solve_employee_fee_formula_witness :
  (exists res fee,
      simulate (init sample_plan) deficit_scenario = OK res
      /\ KPI.required_employee_fee_month (kpis res) = Some fee)
  /\ (exists res,
         simulate (init sample_plan) no_cards_scenario = OK res
         /\ KPI.required_employee_fee_month (kpis res) = Some 0).
Proof.
  split.
  - assert (Hrun : match parse_scenario deficit_scenario with
                   | OK L => b2b_mode L = "solve_employee_fee"
                             /\ is_ok (first_pass (init sample_plan) L) = true
                   | Raise _ => False
                   end) by (vm_compute; split; reflexivity).
    destruct (parse_scenario deficit_scenario) as [L|e] eqn:HL;
      [|contradiction].
    destruct Hrun as [Hm Hok].
    destruct (first_pass (init sample_plan) L) as [rows0|e] eqn:H1;
      [|discriminate Hok].
    destruct (solve_employee_fee_formula _ _ _ _ HL H1 Hm)
      as (res & fee & tp & Hres & Hfee & _).
    exists res, fee. split; assumption.
  - assert (Hrun : match parse_scenario no_cards_scenario with
                   | OK L =>
                       b2b_mode L = "solve_employee_fee"
                       /\ match first_pass (init sample_plan) L with
                          | OK rows0 =>
                              py_sum (map active_cards
                                (slice_to rows0
                                   (Z.min (target_months L)
                                          (Z.of_nat (length rows0))))) <= 0
                          | Raise _ => False
                          end
                   | Raise _ => False
                   end) by (vm_compute; split; [reflexivity|discriminate]).
    destruct (parse_scenario no_cards_scenario) as [L|e] eqn:HL;
      [|contradiction].
    destruct Hrun as [Hm Hsum].
    destruct (first_pass (init sample_plan) L) as [rows0|e] eqn:H1;
      [|contradiction].
    destruct (solve_employee_fee_formula _ _ _ _ HL H1 Hm)
      as (res & fee & tp & Hres & Hfee & _ & _ & _ & Hzero & _).
    exists res. split; [exact Hres|]. rewrite Hfee. f_equal. apply Hzero.
    exact Hsum.
Defined.

(** *** The recalculation pass *)

Lemma recalculate_fee_applied cs pf fee rs cumulative :
  Forall (fee_applied cs pf fee) (recalculate cs pf fee cumulative rs).
Proof.
  apply Forall_lookup. intros k row Hk.
  apply recalculate_lookup in Hk
    as (r0 & _ & _ & Ha & _ & _ & Hb & Ht & Hp).
  unfold fee_applied. rewrite Ha. auto.
Qed.

Lemma profit_sum_fee_applied cs pf fee (rs : list MonthlyResult) :
  Forall (fee_applied cs pf fee) rs ->
  py_sum (map profit rs)
  == py_sum (map rev_excl_b2b rs)
     + inject_Z (Z.of_nat (length rs)) * (cs * pf)
     + fee * py_sum (map active_cards rs)
     - py_sum (map costs_excl_b2b rs).
Proof.
  induction 1 as [|row rs (Hb & Ht & Hp) _ IH].
  - unfold py_sum. simpl. change (inject_Z (Z.of_nat 0)) with 0. ring.
  - cbn [map length]. rewrite !py_sum_cons, IH, Hp, Ht, Hb.
    rewrite Nat2Z.inj_succ, <- Z.add_1_r, inject_Z_plus.
    change (inject_Z 1) with 1. ring.
Qed.

Lemma solve_employee_fee_nonneg rows cs pf tm tt tgt fee :
  _solve_employee_fee rows cs pf tm tt tgt = OK fee -> 0 <= fee.
Proof.
  unfold _solve_employee_fee.
  destruct (Qle_bool _ 0); [intros [= <-]; lra|].
  intros H. apply rbind_ok in H as (q & _ & [= <-]). apply py_max_ge_0.
Qed.

(** C4 (amended): with mode [solve_employee_fee], a breakeven target over
    12 months and a horizon of at least 12 months, the KPI
    [required_employee_fee_month] is present and non-negative; the fee is
    applied to every row of the full horizon, with B2B revenue, total
    revenue, profit and cumulative profit recomputed; and the profit of the
    12-month window sums to [fee * sum active_cards - needed], where
    [needed = sum costs - sum rev - 12 * companies * platform_fee] over the
    window: it is zero when the cards of the window sum to more than 0 and
    [needed >= 0]; otherwise the fee is 0. *)
Theorem solved_fee_applied_to_every_month E sc L res :
  parse_scenario sc = OK L ->
  simulate E sc = OK res ->
  b2b_mode L = "solve_employee_fee" ->
  target_type L = "breakeven" ->
  target_months L = 12%Z ->
  (12 <= months L)%Z ->
  let window := take 12 (rows res) in
  let sum_active := py_sum (map active_cards window) in
  let needed :=
    py_sum (map costs_excl_b2b window) - py_sum (map rev_excl_b2b window)
    - 12 * (companies L * platform_fee_company_month L) in
  exists fee,
    KPI.required_employee_fee_month (kpis res) = Some fee
    /\ 0 <= fee
    /\ Forall (fee_applied (companies L) (platform_fee_company_month L) fee)
              (rows res)
    /\ running_profit_invariant (rows res)
    /\ py_sum (map profit window) == fee * sum_active - needed
    /\ (0 < sum_active -> 0 <= needed -> py_sum (map profit window) == 0)
    /\ (sum_active <= 0 \/ needed < 0 -> fee == 0).
Proof.
  intros HL H Hm Htype Htm Hmonths window sum_active needed.
  pose proof (simulate_running_profit E sc res H) as Hinv.
  apply simulate_inv in H as (L' & rows0 & fo & HL' & H1 & H2 & Hk).
  rewrite HL in HL'. injection HL' as <-.
  apply solve_pass_inv in H2 as [(_ & fee & Hfee & -> & Hr)|(Hm' & _)];
    [|congruence].
  destruct (calculate_kpis_total (rows res) (months L) (Some fee))
    as (kp & Hkp & Hreq & _).
  rewrite Hk in Hkp. injection Hkp as <-.
  assert (Hlen : length rows0 = Z.to_nat (months L)).
  { rewrite (loop_rows_length _ _ _ _ _ _ _ _ (first_pass_rows E L rows0 H1)).
    apply month_range_length. }
  assert (Hlen12 : (12 <= length rows0)%nat) by lia.
  (* the window of the solver is the window of the result *)
  assert (Hsame : forall {A} (f : MonthlyResult -> A),
             (forall cumulative k row r0,
                 recalculate (companies L) (platform_fee_company_month L)
                             fee cumulative rows0 !! k = Some row ->
                 rows0 !! k = Some r0 -> f row = f r0) ->
             map f window = map f (take 12 rows0)).
  { intros A f Hf. unfold window.
    rewrite Hr, <- !firstn_map, (recalculate_map f _ _ _ _ Hf). reflexivity. }
  assert (Hcosts : map costs_excl_b2b window = map costs_excl_b2b (take 12 rows0)).
  { apply Hsame. intros c k row r0 Hk1 Hk0.
    apply recalculate_lookup in Hk1 as (r0' & E0 & _ & _ & Hc & _).
    congruence. }
  assert (Hrev : map rev_excl_b2b window = map rev_excl_b2b (take 12 rows0)).
  { apply Hsame. intros c k row r0 Hk1 Hk0.
    apply recalculate_lookup in Hk1 as (r0' & E0 & _ & _ & _ & Hc & _).
    congruence. }
  assert (Hact : map active_cards window = map active_cards (take 12 rows0)).
  { apply Hsame. intros c k row r0 Hk1 Hk0.
    apply recalculate_lookup in Hk1 as (r0' & E0 & _ & Hc & _).
    congruence. }
  (* the value of the fee *)
  pose proof (solve_employee_fee_nonneg _ _ _ _ _ _ _ Hfee) as Hnonneg.
  destruct (solve_employee_fee_value rows0 (companies L)
              (platform_fee_company_month L) (target_months L)
              (target_type L) (target L)) as (fee' & Hfee' & Hzero & Hpos).
  rewrite Hfee in Hfee'. injection Hfee' as <-.
  rewrite Htm in Hzero, Hpos. rewrite Htype in Hpos.
  replace (Z.min 12 (Z.of_nat (length rows0))) with 12%Z in Hzero, Hpos by lia.
  rewrite slice_to_nonneg in Hzero, Hpos by lia.
  change (Z.to_nat 12) with 12%nat in Hzero, Hpos.
  rewrite <- Hact in Hzero. rewrite <- Hcosts, <- Hrev, <- Hact in Hpos.
  simpl in Hpos. change (inject_Z 12) with 12 in Hpos.
  fold sum_active in Hzero, Hpos.
  (* the profit of the window *)
  assert (Happlied : Forall (fee_applied (companies L)
                               (platform_fee_company_month L) fee) (rows res)).
  { rewrite Hr. apply recalculate_fee_applied. }
  assert (Hsum : py_sum (map profit window) == fee * sum_active - needed).
  { unfold window.
    rewrite (profit_sum_fee_applied _ _ _ _ (Forall_take _ 12 _ Happlied)).
    rewrite length_take_le by (rewrite Hr, recalculate_length; exact Hlen12).
    fold window. fold sum_active. unfold needed.
    change (inject_Z (Z.of_nat 12)) with 12. ring. }
  exists fee. split; [exact Hreq|]. split; [exact Hnonneg|].
  split; [exact Happlied|]. split; [exact Hinv|]. split; [exact Hsum|]. split.
  - intros Hsa Hneeded. rewrite Hsum, (Hpos Hsa).
    assert (Hq : 0 <= needed / sum_active).
    { apply Qle_shift_div_l; [exact Hsa|]. lra. }
    match goal with |- py_max 0 ?q * _ - _ == 0 =>
      assert (Heq : q == needed / sum_active)
        by (unfold needed; field; lra)
    end.
    rewrite py_max_nonneg by (rewrite Heq; exact Hq).
    rewrite Heq. field. lra.
  - intros [Hsa|Hneeded]; [now rewrite (Hzero Hsa)|].
    destruct (Qlt_le_dec 0 sum_active) as [Hsa|Hsa]; [|now rewrite (Hzero Hsa)].
    rewrite (Hpos Hsa). unfold py_max.
    match goal with |- (if Qltb 0 ?q then _ else _) == 0 =>
      assert (Hq : q <= 0)
    end.
    { apply Qle_shift_div_r; [exact Hsa|]. unfold needed in Hneeded. lra. }
    apply Qltb_ge in Hq. rewrite Hq. reflexivity.
Qed.

Lemma solved_fee_applied_to_every_month_witness :
  exists L res fee,
    parse_scenario deficit_scenario = OK L
    /\ simulate (init sample_plan) deficit_scenario = OK res
    /\ (b2b_mode L = "solve_employee_fee" /\ target_type L = "breakeven"
        /\ target_months L = 12%Z /\ (12 <= months L)%Z)
    /\ KPI.required_employee_fee_month (kpis res) = Some fee
    /\ 0 <= fee.
Proof.
  assert (Hrun : match parse_scenario deficit_scenario with
                 | OK L =>
                     (b2b_mode L = "solve_employee_fee"
                      /\ target_type L = "breakeven"
                      /\ target_months L = 12%Z /\ (12 <= months L)%Z)
                     /\ is_ok (first_pass (init sample_plan) L) = true
                 | Raise _ => False
                 end) by (vm_compute; repeat split; discriminate).
  destruct (parse_scenario deficit_scenario) as [L|e] eqn:HL; [|contradiction].
  destruct Hrun as [(H1 & H2 & H3 & H4) Hok].
  destruct (first_pass (init sample_plan) L) as [rows0|e] eqn:Hrows;
    [|discriminate Hok].
  destruct (solve_employee_fee_value rows0 (companies L)
              (platform_fee_company_month L) (target_months L)
              (target_type L) (target L)) as (fee0 & Hfee0 & _).
  destruct (simulate_solve_mode (init sample_plan) deficit_scenario L rows0
              fee0 HL Hrows H1 Hfee0) as (res & H & _).
  destruct (solved_fee_applied_to_every_month _ _ _ _ HL H H1 H2 H3 H4)
    as (fee & Hfee & Hnonneg & _).
  exists L, res, fee.
  split; [reflexivity|]. split; [exact H|].
  split; [repeat split; assumption|]. split; assumption.
Defined.

(** C4, as stated, fails where the fee is clamped to 0: the test-suite
    scenario in solve mode earns 73 a month without any B2B fee, so the
    solved fee is 0 and the 12-month profit is 876, not within 1.0 of zero;
    with no cards at all the fee is 0 as well and the 12-month profit is
    -29940. *)
Lemma solved_fee_zero_misses_breakeven :
  (exists res,
      simulate (init sample_plan) solve_scenario = OK res
      /\ KPI.required_employee_fee_month (kpis res) = Some 0
      /\ py_sum (map profit (take 12 (rows res))) == 876
      /\ 1 < Qabs (py_sum (map profit (take 12 (rows res)))))
  /\ (exists res,
         simulate (init sample_plan) no_cards_scenario = OK res
         /\ KPI.required_employee_fee_month (kpis res) = Some 0
         /\ py_sum (map profit (take 12 (rows res))) == -29940
         /\ 1 < Qabs (py_sum (map profit (take 12 (rows res))))).
Proof.
  split; eexists; (split; [vm_compute; reflexivity|]);
    repeat split; vm_compute; reflexivity.
Qed.

(** *** The breakeven month *)

Lemma breakeven_loop_spec (rows : list MonthlyResult) :
  forall was_negative,
    match breakeven_loop was_negative rows with
    | Some m =>
        exists pre r,
          first_recovery (was_negative = true) rows pre r /\ month r = m
    | None => no_recovery (was_negative = true) rows
    end.
Proof.
  induction rows as [|r0 rest IH]; intros wn; simpl.
  - intros pre r post Heq. destruct pre; discriminate.
  - destruct (Qltb (cumulative_profit r0) (-0.01)) eqn:Hneg; qbool.
    + (* a month in deficit *)
      specialize (IH true).
      destruct (breakeven_loop true rest) as [m|].
      * destruct IH as (pre & r & ((post & ->) & Hr & _ & Hmin) & Hm).
        exists (r0 :: pre), r. split; [|exact Hm].
        split; [exists post; reflexivity|]. split; [exact Hr|].
        split; [right; now constructor|].
        intros pre1 r1 post1 Heq _. destruct pre1 as [|a pre1];
          injection Heq as <- Heq.
        -- lra.
        -- apply (Hmin pre1 r1 post1 Heq). now left.
      * intros pre r post Heq _. destruct pre as [|a pre];
          injection Heq as <- Heq.
        -- lra.
        -- apply (IH pre r post Heq). now left.
    + destruct (wn && Qle_bool 0 (cumulative_profit r0)) eqn:Hrec.
      * (* the recovery *)
        apply andb_true_iff in Hrec as [-> Hrec]. qbool.
        exists [], r0. split; [|reflexivity].
        split; [exists rest; reflexivity|]. split; [exact Hrec|].
        split; [now left|].
        intros pre1 r1 post1 Heq. destruct pre1; discriminate.
      * (* neither: the loop goes on in the same state *)
        assert (Hhead : wn = true \/ Exists in_deficit [] ->
                        ~ 0 <= cumulative_profit r0).
        { intros [->|Hex]; [|inversion Hex]. simpl in Hrec. qbool. lra. }
        assert (Htail : forall pre1,
                   wn = true \/ Exists in_deficit (r0 :: pre1) ->
                   wn = true \/ Exists in_deficit pre1).
        { intros pre1 [Hw|Hex]; [now left|]. right.
          inversion Hex as [? ? Hd|]; subst; [|assumption].
          unfold in_deficit in Hd. lra. }
        specialize (IH wn).
        destruct (breakeven_loop wn rest) as [m|].
        -- destruct IH as (pre & r & ((post & ->) & Hr & Hseen & Hmin) & Hm).
           exists (r0 :: pre), r. split; [|exact Hm].
           split; [exists post; reflexivity|]. split; [exact Hr|]. split.
           ++ destruct Hseen as [Hw|Hex]; [now left|right; now constructor].
           ++ intros pre1 r1 post1 Heq Hs. destruct pre1 as [|a pre1];
                injection Heq as <- Heq.
              ** now apply Hhead.
              ** apply (Hmin pre1 r1 post1 Heq). now apply Htail.
        -- intros pre r post Heq Hs. destruct pre as [|a pre];
             injection Heq as <- Heq.
           ++ now apply Hhead.
           ++ apply (IH pre r post Heq). now apply Htail.
Qed.

Lemma breakeven_loop_never_negative (rows : list MonthlyResult) :
  Forall (fun r => -0.01 <= cumulative_profit r) rows ->
  breakeven_loop false rows = None.
Proof.
  induction 1 as [|r rest Hr _ IH]; simpl; [reflexivity|].
  assert (Qltb (cumulative_profit r) (-0.01) = false) as ->
    by (now apply Qltb_ge).
  exact IH.
Qed.

(** C6: [breakeven_month] is the month of the first row whose cumulative
    profit is non-negative after a row with a cumulative profit below
    -0.01; it is absent when there is no such row, and in particular for
    every row sequence whose cumulative profit never goes below -0.01,
    however profitable. *)
Theorem breakeven_month_is_first_recovery rows months fee_opt :
  exists kp,
    _calculate_kpis rows months fee_opt = OK kp
    /\ (forall m, KPI.breakeven_month kp = Some m ->
          exists pre r, first_recovery False rows pre r /\ month r = m)
    /\ (KPI.breakeven_month kp = None -> no_recovery False rows)
    /\ (Forall (fun r => -0.01 <= cumulative_profit r) rows ->
        KPI.breakeven_month kp = None).
Proof.
  destruct (calculate_kpis_total rows months fee_opt) as (kp & Hkp & _ & Hb).
  exists kp. split; [exact Hkp|]. rewrite Hb.
  pose proof (breakeven_loop_spec rows false) as Hspec.
  assert (Hseen : forall pre : list MonthlyResult,
             False \/ Exists in_deficit pre ->
             false = true \/ Exists in_deficit pre) by (intros pre [[]|H]; auto).
  split; [|split].
  - intros m Hm. rewrite Hm in Hspec.
    destruct Hspec as (pre & r & (Hpost & Hr & Hs & Hmin) & Hmonth).
    exists pre, r. split; [|exact Hmonth].
    split; [exact Hpost|]. split; [exact Hr|]. split.
    + destruct Hs as [Hs|Hs]; [discriminate|now right].
    + intros pre1 r1 post1 Heq Hs1. apply (Hmin pre1 r1 post1 Heq).
      now apply Hseen.
  - intros Hnone. rewrite Hnone in Hspec.
    intros pre r post Heq Hs. apply (Hspec pre r post Heq). now apply Hseen.
  - apply breakeven_loop_never_negative.
Qed.

Lemma breakeven_month_is_first_recovery_witness :
  exists res kp,
    simulate (init sample_plan) base_scenario = OK res
    /\ Forall (fun r => 0 < profit r /\ -0.01 <= cumulative_profit r) (rows res)
    /\ _calculate_kpis (rows res) 12 None = OK kp
    /\ KPI.breakeven_month kp = None.
Proof.
  assert (Hrun : match simulate (init sample_plan) base_scenario with
                 | OK res =>
                     forallb (fun r => Qltb 0 (profit r)
                                       && Qle_bool (-0.01) (cumulative_profit r))
                             (rows res) = true
                 | Raise _ => False
                 end) by (vm_compute; reflexivity).
  destruct (simulate (init sample_plan) base_scenario) as [res|e] eqn:H;
    [|contradiction].
  assert (Hall : Forall (fun r => 0 < profit r /\ -0.01 <= cumulative_profit r)
                        (rows res)).
  { apply Forall_forall. intros r Hin. apply list_elem_of_In in Hin.
    rewrite forallb_forall in Hrun. specialize (Hrun r Hin).
    apply andb_true_iff in Hrun as [Hp Hc].
    split; [now apply Qltb_lt|now apply Qle_bool_iff]. }
  destruct (breakeven_month_is_first_recovery (rows res) 12 None)
    as (kp & Hkp & _ & _ & Hnone).
  exists res, kp. split; [reflexivity|]. split; [exact Hall|].
  split; [exact Hkp|]. apply Hnone.
  eapply Forall_impl; [exact Hall|]. simpl. tauto.
Defined.

(** *** Input errors *)

(** Parsing either succeeds, no required field being absent, or raises the
    missing-field error for an absent required field. *)
Lemma parse_scenario_cases (sc : scenario) :
  (exists L, parse_scenario sc = OK L /\ forall k, ~ required_absent sc k)
  \/ (exists k, parse_scenario sc = Raise (KeyError k) /\ required_absent sc k).
Proof.
  unfold parse_scenario, getitem.
  destruct (sc_horizon_months sc) as [hm|] eqn:E1;
    [|right; eexists; split; [reflexivity|now constructor]].
  destruct (sc_adoption sc) as [a|] eqn:E2;
    [|right; eexists; split; [reflexivity|now constructor]].
  destruct (sc_usage sc) as [u|] eqn:E3;
    [|right; eexists; split; [reflexivity|now constructor]].
  destruct (sc_commercial sc) as [c|] eqn:E4;
    [|right; eexists; split; [reflexivity|now constructor]].
  destruct (sc_toggles sc) as [t|] eqn:E5;
    [|right; eexists; split; [reflexivity|now constructor]].
  simpl.
  destruct (a !! "start_active_cards") as [x1|] eqn:E6;
    [|right; eexists; split; [reflexivity|econstructor; eassumption]].
  simpl.
  destruct (u !! "spend_per_active_card_month") as [x2|] eqn:E7;
    [|right; eexists; split;
      [reflexivity|eapply absent_usage_key; [eassumption|simpl; tauto|eassumption]]].
  simpl.
  destruct (u !! "in_app_share") as [x3|] eqn:E8;
    [|right; eexists; split;
      [reflexivity|eapply absent_usage_key; [eassumption|simpl; tauto|eassumption]]].
  simpl.
  destruct (u !! "avg_ticket") as [x4|] eqn:E9;
    [|right; eexists; split;
      [reflexivity|eapply absent_usage_key; [eassumption|simpl; tauto|eassumption]]].
  simpl.
  destruct (u !! "ecom_share") as [x5|] eqn:E10;
    [|right; eexists; split;
      [reflexivity|eapply absent_usage_key; [eassumption|simpl; tauto|eassumption]]].
  simpl.
  destruct (cm_partner_fee_pct c) as [x6|] eqn:E11;
    [|right; eexists; split; [reflexivity|econstructor; eassumption]].
  destruct (cm_interchange_pct c) as [x7|] eqn:E12;
    [|right; eexists; split;
      [reflexivity|eapply absent_interchange_pct; eassumption]].
  destruct (cm_b2b c) as [b|] eqn:E13;
    [|right; eexists; split; [reflexivity|eapply absent_b2b; eassumption]].
  simpl. left. eexists. split; [reflexivity|].
  intros k Habs. inversion Habs as
    [H|H|H|H|H|a' Ha H|u' k' Hu Hin H|c' Hc H|c' Hc H|c' Hc H]; subst;
    try congruence.
  simpl in Hin. assert (u' = u) as -> by congruence.
  destruct Hin as [<-|[<-|[<-|[<-|[]]]]]; congruence.
Qed.

Lemma simulate_parse_error E sc e :
  parse_scenario sc = Raise e -> simulate E sc = Raise e.
Proof. intros H. unfold simulate. now rewrite H. Qed.

Lemma apply_tiers_negative (v : Q) (tiers : list tier) :
  v < 0 -> apply_tiers v tiers = Raise (ValueError "Volume must be >= 0").
Proof.
  intros H. unfold apply_tiers. apply Qltb_lt in H. now rewrite H.
Qed.

Lemma apply_tiers_ok_nonneg (v c : Q) (tiers : list tier) :
  apply_tiers v tiers = OK c -> 0 <= v.
Proof.
  unfold apply_tiers. destruct (Qltb v 0) eqn:E; [discriminate|].
  intros _. now apply Qltb_ge.
Qed.

Lemma apply_tiers_value_error (v : Q) (tiers : list tier) :
  (exists c, apply_tiers v tiers = OK c)
  \/ (exists msg, apply_tiers v tiers = Raise (ValueError msg)).
Proof.
  destruct (apply_tiers v tiers) as [c|e] eqn:E; [eauto|].
  right. apply apply_tiers_raises in E as [[_ ->]|[_ ->]]; eauto.
Qed.

(** A negative spend per card, with cards in month 1, drives a negative
    authorisation volume into [apply_tiers]. *)
Lemma month_body_negative_spend E L oo fixed m active cumulative :
  spend_per_active L < 0 -> 0 < avg_ticket L -> 0 < auth_multiplier L ->
  0 < py_max 0 (active - active * churn_rate L + net_adds L) ->
  exists msg,
    month_body E L oo fixed m active cumulative = Raise (ValueError msg).
Proof.
  intros Hspend Havg Hmult Hact. unfold month_body.
  set (act := py_max 0 (active - active * churn_rate L + net_adds L)) in *.
  assert (Qle_bool (avg_ticket L) 0 = false) as ->
    by (apply Qle_bool_gt; exact Havg).
  rewrite py_div_ok by lra. cbn [rbind].
  set (tx := act * spend_per_active L / avg_ticket L * auth_multiplier L).
  assert (Htx : tx < 0).
  { unfold tx, Qdiv.
    pose proof (Qinv_lt_0_compat _ Havg) as Hinv.
    assert (H1 : act * spend_per_active L < 0) by nra.
    assert (H2 : act * spend_per_active L * / avg_ticket L < 0) by nra.
    nra. }
  destruct (apply_tiers_value_error act (pp_active_cards_tiers (pricing_plan_of E)))
    as [(c1 & ->)|(msg & ->)]; [|eauto]. cbn [rbind].
  destruct (apply_tiers (tx * eea_share L) (pp_eea_tiers (pricing_plan_of E)))
    as [c2|e] eqn:Heea.
  - apply apply_tiers_ok_nonneg in Heea. cbn [rbind].
    rewrite apply_tiers_negative by lra. eauto.
  - apply apply_tiers_raises in Heea as [[_ ->]|[_ ->]]; eauto.
Qed.

Lemma month_range_first (months : Z) :
  (1 <= months)%Z -> exists ms, month_range months = 1%Z :: ms.
Proof.
  intros H. unfold month_range.
  destruct (Z.to_nat months) as [|n] eqn:E; [lia|].
  simpl. eauto.
Qed.

(** A negative EEA, non-EEA or 3DS volume stops the loop body in
    [apply_tiers]: with its negative-volume error when the plan's
    schedules are non-empty. *)
Lemma month_body_negative_volume E L oo fixed m active cumulative :
  (let tx :=
     if Qle_bool (avg_ticket L) 0 then 0
     else py_max 0 (active - active * churn_rate L + net_adds L)
          * spend_per_active L / avg_ticket L * auth_multiplier L in
   tx * eea_share L < 0 \/ tx - tx * eea_share L < 0
   \/ tx * ecom_share L * three_ds_attempt_rate L < 0) ->
  (exists msg,
     month_body E L oo fixed m active cumulative = Raise (ValueError msg))
  /\ (schedules_nonempty (pricing_plan_of E) ->
      month_body E L oo fixed m active cumulative
      = Raise (ValueError "Volume must be >= 0")).
Proof.
  intros Hneg. unfold month_body.
  set (act := py_max 0 (active - active * churn_rate L + net_adds L)) in *.
  set (tx := if Qle_bool (avg_ticket L) 0 then 0
             else act * spend_per_active L / avg_ticket L * auth_multiplier L)
    in *.
  assert (Htx : (if Qle_bool (avg_ticket L) 0 then OK 0
                 else let* q := py_div (act * spend_per_active L)
                                       (avg_ticket L) in
                      OK (q * auth_multiplier L)) = OK tx).
  { unfold tx. destruct (Qle_bool (avg_ticket L) 0) eqn:Havg; [reflexivity|].
    qbool. rewrite py_div_ok by lra. reflexivity. }
  rewrite Htx. cbn [rbind].
  assert (Hact : 0 <= act) by apply py_max_ge_0.
  destruct (apply_tiers act (pp_active_cards_tiers (pricing_plan_of E)))
    as [c1|e1] eqn:H1; cbn [rbind].
  2:{ apply apply_tiers_raises in H1 as [[Hlt _]|[Hempty ->]]; [lra|].
      split; [eauto|]. intros (Ha & _). contradiction. }
  destruct (apply_tiers (tx * eea_share L) (pp_eea_tiers (pricing_plan_of E)))
    as [c2|e2] eqn:H2; cbn [rbind].
  2:{ apply apply_tiers_raises in H2 as [[_ ->]|[Hempty ->]];
        [split; eauto|].
      split; [eauto|]. intros (_ & Hb & _). contradiction. }
  apply apply_tiers_ok_nonneg in H2.
  destruct (apply_tiers (tx - tx * eea_share L)
                        (pp_non_eea_tiers (pricing_plan_of E)))
    as [c3|e3] eqn:H3; cbn [rbind].
  2:{ apply apply_tiers_raises in H3 as [[_ ->]|[Hempty ->]];
        [split; eauto|].
      split; [eauto|]. intros (_ & _ & Hc & _). contradiction. }
  apply apply_tiers_ok_nonneg in H3.
  destruct (apply_tiers (tx * ecom_share L * three_ds_attempt_rate L)
                        (pp_three_ds_tiers (pricing_plan_of E)))
    as [c4|e4] eqn:H4; cbn [rbind].
  2:{ apply apply_tiers_raises in H4 as [[_ ->]|[Hempty ->]];
        [split; eauto|].
      split; [eauto|]. intros (_ & _ & _ & Hd). contradiction. }
  apply apply_tiers_ok_nonneg in H4. exfalso.
  destruct Hneg as [Hn|[Hn|Hn]]; lra.
Qed.

(** C7 (amended): [simulate] fails with the missing-field error
    ([KeyError]) naming an absent required field whenever a required field
    is absent.  On a horizon of at least one month it fails with the
    invalid-value error ([ValueError]) whenever the scenario's values make
    the EEA, non-EEA or 3DS volume of month 1 negative, and the error is
    the negative-volume error of [apply_tiers] when the plan's tier
    schedules are non-empty; a negative [spend_per_active_card_month]
    makes it fail so when month 1 has cards and the average ticket and the
    authorisation multiplier are positive. *)
Theorem simulate_missing_field_and_negative_spend E sc :
  (forall k, required_absent sc k ->
     exists k', required_absent sc k' /\ simulate E sc = Raise (KeyError k'))
  /\ (forall L,
        parse_scenario sc = OK L ->
        (1 <= months L)%Z ->
        spend_per_active L < 0 ->
        0 < avg_ticket L -> 0 < auth_multiplier L ->
        0 < py_max 0 (start_active L - start_active L * churn_rate L
                      + net_adds L) ->
        exists msg, simulate E sc = Raise (ValueError msg))
  /\ (forall L,
        parse_scenario sc = OK L ->
        (1 <= months L)%Z ->
        negative_first_month_volume L ->
        (exists msg, simulate E sc = Raise (ValueError msg))
        /\ (schedules_nonempty (pricing_plan_of E) ->
            simulate E sc = Raise (ValueError "Volume must be >= 0"))).
Proof.
  split; [|split].
  - intros k Habs.
    destruct (parse_scenario_cases sc) as [(L & _ & Hno)|(k' & Hk' & Habs')].
    + exfalso. exact (Hno k Habs).
    + exists k'. split; [exact Habs'|]. now apply simulate_parse_error.
  - intros L HL Hmonths Hspend Havg Hmult Hact.
    unfold simulate. rewrite HL. cbn [rbind]. unfold first_pass.
    destruct (month_range_first _ Hmonths) as (ms & ->). cbn [monthly_loop].
    destruct (month_body_negative_spend E L
                (_compute_one_offs E (months L) (toggles L))
                (_compute_fixed_monthly E (toggles L)) 1 (start_active L) 0
                Hspend Havg Hmult Hact) as (msg & ->).
    exists msg. reflexivity.
  - intros L HL Hmonths Hneg.
    unfold simulate. rewrite HL. cbn [rbind]. unfold first_pass.
    destruct (month_range_first _ Hmonths) as (ms & ->). cbn [monthly_loop].
    destruct (month_body_negative_volume E L
                (_compute_one_offs E (months L) (toggles L))
                (_compute_fixed_monthly E (toggles L)) 1 (start_active L) 0
                Hneg) as [(msg & Hmsg) Hplan].
    split.
    + exists msg. rewrite Hmsg. reflexivity.
    + intros Hne. rewrite (Hplan Hne). reflexivity.
Qed.

Lemma simulate_missing_field_and_negative_spend_witness :
  (required_absent no_horizon_scenario "horizon_months"
   /\ exists k, required_absent no_horizon_scenario k
                /\ simulate (init sample_plan) no_horizon_scenario
                   = Raise (KeyError k))
  /\ (exists msg, simulate (init sample_plan) negative_spend_scenario
                  = Raise (ValueError msg))
  /\ simulate (init sample_plan) excessive_eea_scenario
     = Raise (ValueError "Volume must be >= 0").
Proof.
  assert (Habs : required_absent no_horizon_scenario "horizon_months")
    by (constructor; reflexivity).
  split; [|split].
  - split; [exact Habs|].
    exact (proj1 (simulate_missing_field_and_negative_spend
                    (init sample_plan) no_horizon_scenario) _ Habs).
  - assert (Hvals : match parse_scenario negative_spend_scenario with
                    | OK L =>
                        (1 <= months L)%Z /\ spend_per_active L < 0
                        /\ 0 < avg_ticket L /\ 0 < auth_multiplier L
                        /\ 0 < py_max 0 (start_active L
                                         - start_active L * churn_rate L
                                         + net_adds L)
                    | Raise _ => False
                    end) by (vm_compute; repeat split; discriminate).
    destruct (parse_scenario negative_spend_scenario) as [L|e] eqn:HL;
      [|destruct Hvals].
    destruct Hvals as (H1 & H2 & H3 & H4 & H5).
    exact (proj1 (proj2 (simulate_missing_field_and_negative_spend
                           (init sample_plan) negative_spend_scenario))
                 L HL H1 H2 H3 H4 H5).
  - assert (Hvals : match parse_scenario excessive_eea_scenario with
                    | OK L =>
                        (1 <= months L)%Z
                        /\ first_month_tx L - first_month_tx L * eea_share L
                           < 0
                    | Raise _ => False
                    end) by (vm_compute; repeat split; discriminate).
    destruct (parse_scenario excessive_eea_scenario) as [L|e] eqn:HL;
      [|destruct Hvals].
    destruct Hvals as (H1 & H2).
    apply (proj2 (proj2 (simulate_missing_field_and_negative_spend
                           (init sample_plan) excessive_eea_scenario))
                 L HL H1).
    + right. left. exact H2.
    + repeat split; discriminate.
Defined.

(** C7, as stated, fails: a churn rate of 2, outside its domain [0, 1],
    and a negative spend on a scenario without cards both go through
    [simulate] without any error. *)
Lemma simulate_accepts_out_of_domain_values :
  (sc_adoption excessive_churn_scenario ≫= (.!! "churn_rate")) = Some 2
  /\ is_ok (simulate (init sample_plan) excessive_churn_scenario) = true
  /\ (sc_usage negative_spend_no_cards_scenario
        ≫= (.!! "spend_per_active_card_month")) = Some (-200)
  /\ is_ok (simulate (init sample_plan) negative_spend_no_cards_scenario)
     = true.
Proof. repeat split; vm_compute; reflexivity. Qed.

(** * Further properties of the code *)

(** ** The tier calculator *)

(** X1: for a positive volume on a non-empty schedule the step cost is the
    volume times the rate that [get_effective_rate] reports. *)
Theorem apply_tiers_is_volume_times_effective_rate (v : Q) (tiers : list tier) :
  0 < v -> tiers <> [] ->
  exists p, get_effective_rate v tiers = OK p
            /\ apply_tiers v tiers = OK (v * p).
Proof.
  intros Hv Hne. unfold get_effective_rate, apply_tiers.
  assert (Qle_bool v 0 = false) as -> by (now apply Qle_bool_gt).
  assert (Qltb v 0 = false) as -> by (apply Qltb_ge; lra).
  assert (Qeq_bool v 0 = false) as -> by (apply Qeq_bool_false; lra).
  destruct tiers as [|t rest]; [congruence|].
  rewrite apply_tiers_loop_rate.
  destruct (effective_rate_loop v (t :: rest)) as [p|]; simpl.
  - exists p. split; reflexivity.
  - eexists. split; reflexivity.
Qed.

Lemma apply_tiers_is_volume_times_effective_rate_witness :
  0 < 10000 /\ sample_tiers <> []
  /\ exists p, get_effective_rate 10000 sample_tiers = OK p
               /\ apply_tiers 10000 sample_tiers = OK (10000 * p).
Proof.
  split; [reflexivity|]. split; [discriminate|].
  apply (apply_tiers_is_volume_times_effective_rate 10000 sample_tiers);
    [reflexivity|discriminate].
Defined.

(** X2: [get_effective_rate] fails exactly on an empty schedule with a positive
    volume, with the index error of [tiers[-1]]; a volume of 0 or less on a
    non-empty schedule gets the first tier's price. *)
Theorem get_effective_rate_fails_on_empty_only (v : Q) (tiers : list tier) :
  (is_ok (get_effective_rate v tiers) = false <-> tiers = [] /\ 0 < v)
  /\ (forall e, get_effective_rate v tiers = Raise e -> e = IndexError)
  /\ (forall t rest, v <= 0 -> get_effective_rate v (t :: rest) = OK (price t)).
Proof.
  assert (Hcases : (tiers = [] /\ 0 < v
                    /\ get_effective_rate v tiers = Raise IndexError)
                   \/ (~ (tiers = [] /\ 0 < v)
                       /\ exists p, get_effective_rate v tiers = OK p)).
  { unfold get_effective_rate. destruct (Qle_bool v 0) eqn:E; qbool.
    - right. split; [intros [_ H]; lra|]. destruct tiers; eauto.
    - destruct tiers as [|t rest].
      + left. auto.
      + right. split; [intros [H _]; discriminate|].
        destruct (effective_rate_loop v (t :: rest)); [eauto|].
        simpl. eauto. }
  split; [|split].
  - destruct Hcases as [(H1 & H2 & ->)|(Hn & p & ->)]; simpl.
    + tauto.
    + split; [discriminate|tauto].
  - intros e He. destruct Hcases as [(_ & _ & H)|(_ & p & H)];
      rewrite H in He; congruence.
  - intros t rest Hv. unfold get_effective_rate.
    apply Qle_bool_iff in Hv. now rewrite Hv.
Qed.

Lemma get_effective_rate_fails_on_empty_only_witness :
  -1 <= 0 /\ get_effective_rate (-1) sample_tiers = OK 0.95
  /\ get_effective_rate 5 [] = Raise IndexError.
Proof.
  split; [discriminate|]. split.
  - destruct (get_effective_rate_fails_on_empty_only (-1) sample_tiers)
      as (_ & _ & H).
    apply (H (Tier (Some 7500) 0.95)). discriminate.
  - destruct (get_effective_rate_fails_on_empty_only 5 []) as (H1 & H2 & _).
    destruct (get_effective_rate 5 []) as [p|e] eqn:E.
    + exfalso. assert (Hf : is_ok (OK p) = false)
        by (apply H1; split; reflexivity).
      discriminate Hf.
    + f_equal. now apply H2.
Defined.

Lemma find_tier_index_loop_spec (v : Q) (tiers : list tier) :
  forall i,
    match find_tier_index_loop v i tiers with
    | Some k =>
        exists n t,
          k = (i + Z.of_nat n)%Z
          /\ tiers !! n = Some t
          /\ in_tier v t
          /\ effective_rate_loop v tiers = Some (price t)
          /\ forall j t', (j < n)%nat -> tiers !! j = Some t' -> ~ in_tier v t'
    | None =>
        Forall (fun t => ~ in_tier v t) tiers
        /\ effective_rate_loop v tiers = None
    end.
Proof.
  induction tiers as [|t rest IH]; intros i; simpl.
  - split; [constructor|reflexivity].
  - destruct (tier_matches v t) eqn:Hm.
    + exists 0%nat, t. split; [lia|]. split; [reflexivity|].
      split; [now apply tier_matches_in_tier|]. split; [reflexivity|].
      intros j t' Hj. lia.
    + apply tier_matches_not_in_tier in Hm. specialize (IH (i + 1)%Z).
      destruct (find_tier_index_loop v (i + 1) rest) as [k|].
      * destruct IH as (n & t' & -> & Hn & Hin & Hrate & Hfirst).
        exists (S n), t'. split; [lia|]. split; [exact Hn|].
        split; [exact Hin|]. split; [exact Hrate|].
        intros j t'' Hj Hlook. destruct j as [|j]; simpl in Hlook.
        -- now injection Hlook as <-.
        -- apply (Hfirst j t''); [lia|exact Hlook].
      * destruct IH as [Hall Hrate]. split; [now constructor|exact Hrate].
Qed.

(** X3: on a non-empty schedule [find_tier_index] returns a valid zero-based
    index: that of the first tier holding the volume, or of the last tier
    when none does; for a positive volume the tier at that index is the
    one whose price [get_effective_rate] returns. *)
Theorem find_tier_index_is_valid_and_first (v : Q) (tiers : list tier) :
  tiers <> [] ->
  exists t,
    (0 <= find_tier_index v tiers < Z.of_nat (length tiers))%Z
    /\ tiers !! Z.to_nat (find_tier_index v tiers) = Some t
    /\ ((in_tier v t
         /\ forall j t', (j < Z.to_nat (find_tier_index v tiers))%nat ->
                         tiers !! j = Some t' -> ~ in_tier v t')
        \/ (Forall (fun t' => ~ in_tier v t') tiers
            /\ Z.to_nat (find_tier_index v tiers) = pred (length tiers)))
    /\ (0 < v -> get_effective_rate v tiers = OK (price t)).
Proof.
  intros Hne. unfold find_tier_index, get_effective_rate.
  pose proof (find_tier_index_loop_spec v tiers 0) as Hspec.
  destruct (find_tier_index_loop v 0 tiers) as [k|].
  - destruct Hspec as (n & t & -> & Hn & Hin & Hrate & Hfirst).
    exists t. rewrite Z.add_0_l, Nat2Z.id.
    pose proof (lookup_lt_Some _ _ _ Hn) as Hlt.
    split; [lia|]. split; [exact Hn|]. split; [left; auto|].
    intros Hv. assert (Qle_bool v 0 = false) as -> by (now apply Qle_bool_gt).
    now rewrite Hrate.
  - destruct Hspec as [Hall Hrate].
    destruct tiers as [|t0 rest]; [congruence|].
    exists (List.last rest t0).
    assert (Hidx : Z.to_nat (Z.of_nat (length (t0 :: rest)) - 1)
                   = pred (length (t0 :: rest))) by (simpl; lia).
    split; [simpl; lia|]. split.
    + rewrite Hidx, <- last_lookup. apply last_list_last.
    + split; [right; auto|].
      intros Hv. assert (Qle_bool v 0 = false) as -> by (now apply Qle_bool_gt).
      rewrite Hrate. reflexivity.
Qed.

Lemma find_tier_index_is_valid_and_first_witness :
  sample_tiers <> []
  /\ exists t, sample_tiers !! Z.to_nat (find_tier_index 7501 sample_tiers)
               = Some t
               /\ (0 < 7501 -> get_effective_rate 7501 sample_tiers
                               = OK (price t)).
Proof.
  split; [discriminate|].
  destruct (find_tier_index_is_valid_and_first 7501 sample_tiers)
    as (t & _ & Ht & _ & Hrate); [discriminate|].
  exists t. split; assumption.
Defined.

Lemma apply_tiers_at_rate (v p : Q) (tiers : list tier) :
  0 < v -> tiers <> [] ->
  get_effective_rate v tiers = OK p ->
  apply_tiers v tiers = OK (v * p).
Proof.
  intros Hv Hne. unfold get_effective_rate, apply_tiers.
  assert (Qle_bool v 0 = false) as -> by (now apply Qle_bool_gt).
  assert (Qltb v 0 = false) as -> by (apply Qltb_ge; lra).
  assert (Qeq_bool v 0 = false) as -> by (apply Qeq_bool_false; lra).
  destruct tiers as [|t rest]; [congruence|].
  rewrite apply_tiers_loop_rate.
  destruct (effective_rate_loop v (t :: rest)) as [q|]; simpl;
    intros Hp; injection Hp as <-; reflexivity.
Qed.

(** X4: within a tier the step cost does not decrease with the volume: on a
    non-empty schedule two volumes charged at the same non-negative rate
    are charged in order. *)
Theorem apply_tiers_monotone_at_equal_rate (v w p : Q) (tiers : list tier) :
  tiers <> [] -> 0 <= v -> v <= w -> 0 <= p ->
  get_effective_rate v tiers = OK p ->
  get_effective_rate w tiers = OK p ->
  exists cv cw,
    apply_tiers v tiers = OK cv /\ apply_tiers w tiers = OK cw /\ cv <= cw.
Proof.
  intros Hne Hv Hvw Hp Hrv Hrw.
  destruct (Qlt_le_dec 0 v) as [Hpos|Hzero].
  - pose proof (apply_tiers_at_rate v p tiers Hpos Hne Hrv) as Ecv.
    pose proof (apply_tiers_at_rate w p tiers ltac:(lra) Hne Hrw) as Ecw.
    exists (v * p), (w * p). repeat split; try assumption. nra.
  - destruct (apply_tiers_value v tiers Hv Hne) as (cv & Ecv & Hcv0 & _).
    rewrite (Hcv0 ltac:(lra)) in Ecv.
    destruct (Qlt_le_dec 0 w) as [Hw|Hw].
    + pose proof (apply_tiers_at_rate w p tiers Hw Hne Hrw) as Ecw.
      exists 0, (w * p). repeat split; try assumption. nra.
    + destruct (apply_tiers_value w tiers ltac:(lra) Hne)
        as (cw & Ecw & Hcw0 & _).
      rewrite (Hcw0 ltac:(lra)) in Ecw.
      exists 0, 0. repeat split; try assumption. lra.
Qed.

Lemma apply_tiers_monotone_at_equal_rate_witness :
  exists cv cw,
    apply_tiers 5000 sample_tiers = OK cv
    /\ apply_tiers 7500 sample_tiers = OK cw /\ cv <= cw.
Proof.
  apply (apply_tiers_monotone_at_equal_rate 5000 7500 0.95 sample_tiers);
    first [reflexivity|discriminate].
Defined.

(** The graduated cost of a further volume lies between the lowest and the
    highest unit price times that volume. *)
Lemma graduated_loop_slope (lo hi : Q) (tiers : list tier) :
  lo <= 0 -> 0 <= hi ->
  Forall (fun t => lo <= price t /\ price t <= hi) tiers ->
  forall prev r s, 0 <= s -> s <= r ->
    lo * (r - s)
      <= graduated_loop 0 r prev tiers - graduated_loop 0 s prev tiers
    /\ graduated_loop 0 r prev tiers - graduated_loop 0 s prev tiers
       <= hi * (r - s).
Proof.
  intros Hlo Hhi Hall. induction Hall as [|t rest [Hl Hh] _ IH];
    intros prev r s Hs Hsr.
  - simpl. split; nra.
  - destruct (up_to t) as [u|] eqn:Hu.
    + destruct (Qlt_le_dec 0 (u - prev)) as [Hw|Hw].
      * destruct (Qlt_le_dec (u - prev) r) as [Hr|Hr];
          [destruct (Qlt_le_dec (u - prev) s) as [Hs'|Hs']|].
        -- rewrite (graduated_loop_beyond 0 r prev u t rest Hu Hw Hr).
           rewrite (graduated_loop_beyond 0 s prev u t rest Hu Hw Hs').
           rewrite (graduated_loop_shift rest (0 + _) (r - _)).
           rewrite (graduated_loop_shift rest (0 + _) (s - _)).
           destruct (IH u (r - (u - prev)) (s - (u - prev))) as [H1 H2];
             [lra|lra|]. split; lra.
        -- rewrite (graduated_loop_beyond 0 r prev u t rest Hu Hw Hr).
           rewrite (graduated_loop_within 0 s prev u t rest Hu Hs Hs').
           rewrite (graduated_loop_shift rest (0 + _) (r - _)).
           destruct (IH u (r - (u - prev)) 0) as [H1 H2]; [lra|lra|].
           rewrite (graduated_loop_zero 0 0 u rest) in H1, H2 by reflexivity.
           split; nra.
        -- rewrite (graduated_loop_within 0 r prev u t rest Hu) by lra.
           rewrite (graduated_loop_within 0 s prev u t rest Hu) by lra.
           split; nra.
      * rewrite (graduated_loop_skip 0 r prev u t rest Hu) by lra.
        rewrite (graduated_loop_skip 0 s prev u t rest Hu) by lra.
        apply IH; assumption.
    + rewrite !graduated_loop_none by assumption. split; nra.
Qed.

(** X5: with unit prices between 0 and [P] the graduated cost is non-negative,
    does not decrease with the volume and is at most [P] times the
    volume. *)
Theorem graduated_cost_monotone_and_bounded (P v w : Q) (tiers : list tier) :
  tiers <> [] ->
  Forall (fun t => 0 <= price t /\ price t <= P) tiers ->
  0 <= v -> v <= w ->
  exists gv gw,
    apply_graduated_tiers v tiers = OK gv
    /\ apply_graduated_tiers w tiers = OK gw
    /\ 0 <= gv /\ gv <= gw /\ gw <= P * w.
Proof.
  intros Hne Hall Hv Hvw.
  assert (HP : 0 <= P).
  { destruct Hall as [|t rest [H1 H2] _]; [congruence|lra]. }
  destruct (apply_graduated_tiers_value v tiers Hv Hne) as (gv & Egv & Hgv).
  destruct (apply_graduated_tiers_value w tiers ltac:(lra) Hne)
    as (gw & Egw & Hgw).
  exists gv, gw. split; [exact Egv|]. split; [exact Egw|].
  pose proof (graduated_loop_zero 0 0 0 tiers ltac:(reflexivity)) as H0.
  destruct (graduated_loop_slope 0 P tiers ltac:(lra) HP Hall 0 v 0)
    as [A1 A2]; [lra|lra|].
  destruct (graduated_loop_slope 0 P tiers ltac:(lra) HP Hall 0 w v)
    as [B1 B2]; [lra|lra|].
  destruct (graduated_loop_slope 0 P tiers ltac:(lra) HP Hall 0 w 0)
    as [C1 C2]; [lra|lra|].
  rewrite Hgv, Hgw. repeat split; lra.
Qed.

Lemma graduated_cost_monotone_and_bounded_witness :
  exists gv gw,
    apply_graduated_tiers 200 graduated_tiers = OK gv
    /\ apply_graduated_tiers 700 graduated_tiers = OK gw
    /\ 0 <= gv /\ gv <= gw /\ gw <= 1 * 700.
Proof.
  apply (graduated_cost_monotone_and_bounded 1 200 700 graduated_tiers);
    [discriminate| |discriminate|discriminate].
  repeat constructor; discriminate.
Defined.

(** X6: on a well-formed schedule with strictly decreasing prices graduated
    pricing is never cheaper than step pricing, for a volume that some
    tier holds. *)
Theorem graduated_cost_at_least_step_cost (v : Q) (tiers : list tier) :
  tiers <> [] -> 0 <= v ->
  ascending 0 tiers -> decreasing_prices tiers -> Exists (in_tier v) tiers ->
  exists g s,
    apply_graduated_tiers v tiers = OK g
    /\ apply_tiers v tiers = OK s
    /\ s <= g.
Proof.
  intros Hne Hv Hasc Hdec Hex.
  destruct (apply_graduated_tiers_value v tiers Hv Hne) as (g & Hg & Hgv).
  destruct (apply_tiers_value v tiers Hv Hne) as (s & Hs & Hs0 & Hspos).
  exists g, s. split; [exact Hg|]. split; [exact Hs|].
  destruct (Qlt_le_dec 0 v) as [Hpos|Hzero].
  - destruct (effective_rate_loop_Exists v tiers Hex) as (pk & Hrate).
    rewrite (Hspos Hpos _ Hrate), Hgv.
    destruct (graduated_loop_above_step tiers 0 v 0 v pk)
      as [[_ Heq]|Hgt]; try assumption; try lra.
  - assert (Hv0 : v == 0) by lra.
    rewrite (Hs0 Hv0), Hgv, (graduated_loop_zero 0 v 0 tiers Hv0). lra.
Qed.

Lemma graduated_cost_at_least_step_cost_witness :
  exists g s,
    apply_graduated_tiers 700 graduated_tiers = OK g
    /\ apply_tiers 700 graduated_tiers = OK s
    /\ s <= g.
Proof.
  apply (graduated_cost_at_least_step_cost 700 graduated_tiers).
  - discriminate.
  - discriminate.
  - simpl. repeat split.
  - simpl. repeat split; repeat constructor.
  - apply Exists_cons_tl, Exists_cons_tl, Exists_cons_hd. exact I.
Defined.

(** X7: marginal-bracket accounting: a volume in the second band is charged the
    first bound at the first price and the rest at the second price. *)
Theorem graduated_cost_in_second_band
    (t1 t2 : tier) (rest : list tier) (b1 v : Q) :
  up_to t1 = Some b1 -> 0 < b1 -> b1 < v -> in_tier v t2 ->
  exists g,
    apply_graduated_tiers v (t1 :: t2 :: rest) = OK g
    /\ g == b1 * price t1 + (v - b1) * price t2.
Proof.
  intros Hu1 Hb1 Hv Hin.
  destruct (apply_graduated_tiers_value v (t1 :: t2 :: rest))
    as (g & Hg & Hgv); [lra|discriminate|].
  exists g. split; [exact Hg|]. rewrite Hgv.
  rewrite (graduated_loop_beyond 0 v 0 b1 t1 (t2 :: rest) Hu1) by lra.
  unfold in_tier in Hin. destruct (up_to t2) as [b2|] eqn:Hu2.
  - rewrite (graduated_loop_within _ _ b1 b2 t2 rest Hu2) by lra. ring.
  - rewrite (graduated_loop_none _ _ b1 t2 rest Hu2). ring.
Qed.

Lemma graduated_cost_in_second_band_witness :
  exists g,
    apply_graduated_tiers 200 graduated_tiers = OK g
    /\ g == 100 * 1 + (200 - 100) * 0.8.
Proof.
  apply (graduated_cost_in_second_band
           (Tier (Some 100) 1) (Tier (Some 500) 0.8) [Tier None 0.6] 100 200);
    first [reflexivity|discriminate].
Defined.

Lemma last_bound_ge (tiers : list tier) :
  forall prev, ascending prev tiers -> prev <= last_bound prev tiers.
Proof.
  induction tiers as [|t rest IH]; intros prev Hasc; simpl in *; [lra|].
  destruct (up_to t) as [u|]; [|lra].
  destruct Hasc as [Hlt Hasc]. specialize (IH u Hasc). lra.
Qed.

Lemma graduated_loop_saturates (tiers : list tier) :
  forall tot prev r s,
    all_bounded tiers -> ascending prev tiers ->
    last_bound prev tiers - prev <= r ->
    last_bound prev tiers - prev <= s ->
    graduated_loop tot r prev tiers == graduated_loop tot s prev tiers.
Proof.
  induction tiers as [|t rest IH]; intros tot prev r s Hb Hasc Hr Hs;
    [reflexivity|].
  inversion Hb as [|? ? Ht Hrest]; subst.
  simpl in Hasc, Hr, Hs.
  destruct (up_to t) as [u|] eqn:Hu; [|congruence].
  destruct Hasc as [Hlt Hasc].
  pose proof (last_bound_ge rest u Hasc) as Hge.
  assert (Hfull : forall x, last_bound u rest - prev <= x ->
            graduated_loop tot x prev (t :: rest)
            == graduated_loop (tot + (u - prev) * price t)
                              (x - (u - prev)) u rest).
  { intros x Hx. destruct (Qlt_le_dec (u - prev) x) as [Hbig|Hsmall].
    - rewrite (graduated_loop_beyond tot x prev u t rest Hu) by lra.
      reflexivity.
    - assert (Hxe : x == u - prev) by lra.
      rewrite (graduated_loop_within tot x prev u t rest Hu) by lra.
      assert (Hlast : last_bound u rest == u) by lra.
      destruct rest as [|t' rest'].
      + simpl. rewrite Hxe. reflexivity.
      + exfalso. simpl in Hasc, Hlast.
        inversion Hrest as [|? ? Ht' Hrest']; subst.
        destruct (up_to t') as [u'|] eqn:Hu'; [|congruence].
        destruct Hasc as [Hlt' Hasc'].
        pose proof (last_bound_ge rest' u' Hasc'). lra. }
  rewrite (Hfull r Hr), (Hfull s Hs).
  apply IH; try assumption; lra.
Qed.

(** X8: a schedule without an unbounded tier charges nothing beyond its last
    bound: every volume from the last bound on has the same graduated
    cost. *)
Theorem graduated_cost_flat_beyond_last_bound (v w : Q) (tiers : list tier) :
  tiers <> [] -> all_bounded tiers -> ascending 0 tiers ->
  last_bound 0 tiers <= v -> last_bound 0 tiers <= w ->
  exists gv gw,
    apply_graduated_tiers v tiers = OK gv
    /\ apply_graduated_tiers w tiers = OK gw
    /\ gv == gw.
Proof.
  intros Hne Hb Hasc Hv Hw.
  pose proof (last_bound_ge tiers 0 Hasc) as Hge.
  destruct (apply_graduated_tiers_value v tiers ltac:(lra) Hne)
    as (gv & Egv & Hgv).
  destruct (apply_graduated_tiers_value w tiers ltac:(lra) Hne)
    as (gw & Egw & Hgw).
  exists gv, gw. split; [exact Egv|]. split; [exact Egw|].
  rewrite Hgv, Hgw. apply graduated_loop_saturates; try assumption; lra.
Qed.

Lemma graduated_cost_flat_beyond_last_bound_witness :
  exists gv gw,
    apply_graduated_tiers 500 bounded_tiers = OK gv
    /\ apply_graduated_tiers 9000 bounded_tiers = OK gw
    /\ gv == gw.
Proof.
  apply (graduated_cost_flat_beyond_last_bound 500 9000 bounded_tiers).
  - discriminate.
  - repeat constructor; discriminate.
  - simpl. repeat split.
  - discriminate.
  - discriminate.
Defined.

(** ** The rows of a simulation *)

Lemma month_body_population E L oo fixed m active cumulative row :
  month_body E L oo fixed m active cumulative = OK row ->
  issued_cards row
  = py_max 0 (if issued_equals_net_adds L then net_adds L else 0)
  /\ issued_physical row = issued_cards row * physical_share L
  /\ issued_virtual row = issued_cards row - issued_physical row
  /\ cost_physical row
     = _compute_physical_costs E (toggles L) (issued_physical row)
  /\ cost_fixed row = fixed
  /\ cost_oneoff row = get_or oo m 0.
Proof.
  unfold month_body. intros H.
  repeat (apply rbind_ok in H as (? & _ & H)).
  injection H as <-. simpl. repeat split; reflexivity.
Qed.

Lemma month_body_volumes E L oo fixed m active cumulative row :
  month_body E L oo fixed m active cumulative = OK row ->
  eea_auth row = tx_count row * eea_share L
  /\ non_eea_auth row = tx_count row - eea_auth row
  /\ three_ds_attempts row
     = tx_count row * ecom_share L * three_ds_attempt_rate L
  /\ apply_tiers (active_cards row)
                 (pp_active_cards_tiers (pricing_plan_of E))
     = OK (cost_active_cards row)
  /\ (exists c1 c2,
        apply_tiers (eea_auth row) (pp_eea_tiers (pricing_plan_of E)) = OK c1
        /\ apply_tiers (non_eea_auth row)
                       (pp_non_eea_tiers (pricing_plan_of E)) = OK c2
        /\ cost_auth row = c1 + c2)
  /\ apply_tiers (three_ds_attempts row)
                 (pp_three_ds_tiers (pricing_plan_of E))
     = OK (cost_3ds row).
Proof.
  unfold month_body. intros H.
  apply rbind_ok in H as (tx & _ & H).
  apply rbind_ok in H as (c0 & H0 & H).
  apply rbind_ok in H as (c1 & H1 & H).
  apply rbind_ok in H as (c2 & H2 & H).
  apply rbind_ok in H as (c3 & H3 & H).
  injection H as <-. simpl. repeat split; try assumption.
  exists c1, c2. auto.
Qed.

Lemma month_body_accounts E L oo fixed m active cumulative row :
  month_body E L oo fixed m active cumulative = OK row -> row_accounts row.
Proof.
  unfold month_body. intros H.
  repeat (apply rbind_ok in H as (? & _ & H)).
  injection H as <-. unfold row_accounts. simpl.
  repeat split; try reflexivity; ring.
Qed.

Lemma loop_rows_Forall E L oo fixed (P : MonthlyResult -> Prop) :
  (forall m active cumulative row,
      month_body E L oo fixed m active cumulative = OK row -> P row) ->
  forall active cumulative ms rs,
    loop_rows E L oo fixed active cumulative ms rs -> Forall P rs.
Proof.
  intros HP active cumulative ms rs Hrows.
  induction Hrows as [|? ? ? ? ? ? Hbody _ IH]; constructor; eauto.
Qed.

Lemma recalculate_untouched cs pf fee rs :
  forall cumulative k row,
    recalculate cs pf fee cumulative rs !! k = Some row ->
    exists r0, rs !! k = Some r0 /\ untouched row r0.
Proof.
  induction rs as [|r rs IH]; intros cumulative k row Hk; [discriminate|].
  destruct k as [|k]; simpl in Hk.
  - injection Hk as <-. exists r. split; [reflexivity|].
    unfold untouched. simpl. repeat split; reflexivity.
  - exact (IH _ k row Hk).
Qed.

Lemma untouched_refl (r : MonthlyResult) : untouched r r.
Proof. unfold untouched. repeat split; reflexivity. Qed.

(** Every row of a result comes from the row of the first pass at the same
    index, with at most the B2B revenue and what depends on it changed. *)
Lemma simulate_rows_origin E sc res :
  simulate E sc = OK res ->
  exists L rows0,
    parse_scenario sc = OK L
    /\ loop_rows E L (_compute_one_offs E (months L) (toggles L))
                 (_compute_fixed_monthly E (toggles L))
                 (start_active L) 0 (month_range (months L)) rows0
    /\ forall k row,
         rows res !! k = Some row ->
         exists r0,
           rows0 !! k = Some r0 /\ untouched row r0
           /\ total_revenue row = rev_excl_b2b row + rev_b2b row
           /\ profit row = total_revenue row - costs_excl_b2b row.
Proof.
  intros H. apply simulate_inv in H as (L & rows0 & fo & HL & H1 & H2 & _).
  pose proof (first_pass_rows E L rows0 H1) as Hrows.
  exists L, rows0. split; [exact HL|]. split; [exact Hrows|].
  intros k row Hk.
  apply solve_pass_inv in H2 as [(_ & fee & _ & _ & Hr)|(_ & _ & Hr)];
    rewrite Hr in Hk.
  - destruct (recalculate_untouched _ _ _ _ _ _ _ Hk) as (r0 & Hr0 & Hun).
    apply recalculate_lookup in Hk as (r0' & _ & _ & _ & _ & _ & _ & Ht & Hp).
    exists r0. auto.
  - exists row. split; [exact Hk|]. split; [apply untouched_refl|].
    pose proof (loop_rows_Forall E L _ _ row_accounts
                  (month_body_accounts E L _ _) _ _ _ _ Hrows) as Hacc.
    rewrite Forall_lookup in Hacc.
    destruct (Hacc k row Hk) as (_ & _ & _ & _ & Htc & Htr & Hp).
    split; [exact Htr|]. now rewrite <- Htc.
Qed.

Lemma simulate_row_accounts E sc res k row :
  simulate E sc = OK res -> rows res !! k = Some row -> row_accounts row.
Proof.
  intros H Hk.
  destruct (simulate_rows_origin E sc res H) as (L & rows0 & _ & Hrows & Horig).
  pose proof (loop_rows_Forall E L _ _ row_accounts
                (month_body_accounts E L _ _) _ _ _ _ Hrows) as Hacc.
  rewrite Forall_lookup in Hacc.
  destruct (Horig k row Hk) as (r0 & Hr0 & Hun & Htr & Hp).
  destruct (Hacc k r0 Hr0) as (A1 & A2 & A3 & A4 & A5 & _ & _).
  unfold untouched in Hun.
  destruct Hun as (_ & _ & U3 & U4 & U5 & _ & _ & U8 & U9 & U10 & _ & U12
                   & U13 & U14 & U15 & U16 & U17 & U18 & U19 & U20 & U21
                   & U22 & U23).
  unfold row_accounts.
  split; [rewrite U4, U5, U3; exact A1|].
  split; [rewrite U9, U10, U8; exact A2|].
  split; [rewrite U23, U12, U13; exact A3|].
  split; [rewrite U22, U14, U15, U16, U17, U18, U19, U20; exact A4|].
  split; [rewrite U21, U22; exact A5|].
  split; [exact Htr|].
  rewrite Hp, U21, A5, U22. reflexivity.
Qed.

(** X9: in every row of a result issued cards split into physical and virtual,
    transactions into EEA and non-EEA authorisations, costs are the sum of
    the seven cost columns, and profit is total revenue minus total costs,
    before and after the B2B-fee pass. *)
Theorem rows_keep_accounting_identities E sc res :
  simulate E sc = OK res -> Forall row_accounts (rows res).
Proof.
  intros H. apply Forall_lookup. intros k row Hk.
  exact (simulate_row_accounts E sc res k row H Hk).
Qed.

Lemma rows_keep_accounting_identities_witness :
  exists res,
    simulate (init sample_plan) solve_scenario = OK res
    /\ Forall row_accounts (rows res).
Proof.
  assert (Hok : is_ok (simulate (init sample_plan) solve_scenario) = true)
    by (vm_compute; reflexivity).
  destruct (simulate (init sample_plan) solve_scenario) as [res|e] eqn:H;
    [|discriminate Hok].
  exists res. split; [reflexivity|].
  exact (rows_keep_accounting_identities _ _ _ H).
Defined.

Lemma loop_rows_lookup E L oo fixed active cumulative ms rs :
  loop_rows E L oo fixed active cumulative ms rs ->
  forall k r,
    rs !! k = Some r ->
    exists m a c,
      ms !! k = Some m /\ month_body E L oo fixed m a c = OK r.
Proof.
  induction 1 as [|active cumulative m ms row rest Hbody _ IH];
    intros k r Hk; [discriminate|].
  destruct k as [|k]; simpl in Hk.
  - injection Hk as <-. exists m, active, cumulative. auto.
  - exact (IH k r Hk).
Qed.

(** X10: a result never holds a negative volume: active and issued cards,
    EEA and non-EEA authorisations and 3DS attempts are non-negative in
    every row. *)
Theorem rows_have_nonnegative_volumes E sc res :
  simulate E sc = OK res -> Forall row_volumes_nonneg (rows res).
Proof.
  intros H.
  destruct (simulate_rows_origin E sc res H) as (L & rows0 & _ & Hrows & Horig).
  apply Forall_lookup. intros k row Hk.
  destruct (Horig k row Hk) as (r0 & Hr0 & Hun & _).
  destruct (loop_rows_lookup _ _ _ _ _ _ _ _ Hrows k r0 Hr0)
    as (m & a & c & _ & Hbody).
  destruct (month_body_inv _ _ _ _ _ _ _ _ Hbody) as (_ & Hact & _).
  destruct (month_body_population _ _ _ _ _ _ _ _ Hbody) as (Hiss & _).
  destruct (month_body_volumes _ _ _ _ _ _ _ _ Hbody)
    as (_ & _ & _ & _ & (c1 & c2 & He & Hn & _) & H3).
  unfold untouched in Hun.
  destruct Hun as (_ & U2 & U3 & _ & _ & _ & _ & _ & U9 & U10 & U11 & _).
  unfold row_volumes_nonneg. rewrite U2, U3, U9, U10, U11.
  split; [rewrite Hact; apply py_max_ge_0|].
  split; [rewrite Hiss; apply py_max_ge_0|].
  split; [exact (apply_tiers_ok_nonneg _ _ _ He)|].
  split; [exact (apply_tiers_ok_nonneg _ _ _ Hn)|].
  exact (apply_tiers_ok_nonneg _ _ _ H3).
Qed.

Lemma rows_have_nonnegative_volumes_witness :
  exists res,
    simulate (init sample_plan) growth_scenario = OK res
    /\ Forall row_volumes_nonneg (rows res).
Proof.
  assert (Hok : is_ok (simulate (init sample_plan) growth_scenario) = true)
    by (vm_compute; reflexivity).
  destruct (simulate (init sample_plan) growth_scenario) as [res|e] eqn:H;
    [|discriminate Hok].
  exists res. split; [reflexivity|].
  exact (rows_have_nonnegative_volumes _ _ _ H).
Defined.

(** *** One-off and fixed costs *)

Lemma compute_one_offs_fold (tg : toggles_config)
    (features : list (string * feature)) :
  forall acc : gmap Z Q,
    let res :=
      fold_left
        (fun (one_offs_by_month : gmap Z Q) kf =>
           if feature_enabled tg (fst kf) (snd kf) then
             let setup_cost := default 0 (ft_setup (snd kf)) in
             if Qltb 0 setup_cost
             then <[1%Z := get_or one_offs_by_month 1%Z 0 + setup_cost]>
                    one_offs_by_month
             else one_offs_by_month
           else one_offs_by_month)
        features acc in
    (forall k, k <> 1%Z -> res !! k = acc !! k)
    /\ get_or res 1%Z 0
       == get_or acc 1%Z 0
          + py_sum (map (fun kf => default 0 (ft_setup (snd kf)))
                     (List.filter
                        (fun kf => feature_enabled tg (fst kf) (snd kf)
                                   && Qltb 0 (default 0 (ft_setup (snd kf))))
                        features)).
Proof.
  induction features as [|kf rest IH]; intros acc; simpl.
  - split; [reflexivity|]. unfold py_sum. simpl. ring.
  - destruct (feature_enabled tg (fst kf) (snd kf)); simpl;
      [destruct (Qltb 0 (default 0 (ft_setup (snd kf)))); simpl|].
    + destruct (IH (<[1%Z := get_or acc 1%Z 0
                             + default 0 (ft_setup (snd kf))]> acc))
        as [Hk Hsum].
      split.
      * intros k Hne. etransitivity; [exact (Hk k Hne)|].
        now apply lookup_insert_ne.
      * eapply Qeq_trans; [exact Hsum|]. rewrite py_sum_cons.
        unfold get_or at 1. rewrite lookup_insert_eq. simpl. ring.
    + apply IH.
    + apply IH.
Qed.

Lemma compute_one_offs_spec E months tg :
  (forall k, k <> 1%Z -> _compute_one_offs E months tg !! k = None)
  /\ get_or (_compute_one_offs E months tg) 1%Z 0
     == py_sum (charged_setups E tg).
Proof.
  unfold _compute_one_offs, charged_setups.
  destruct (compute_one_offs_fold tg (_optional_features E) ∅) as [Hk Hsum].
  split.
  - intros k Hne. etransitivity; [exact (Hk k Hne)|]. apply lookup_empty.
  - eapply Qeq_trans; [exact Hsum|]. unfold get_or at 1.
    rewrite lookup_empty. simpl. ring.
Qed.

(** X12: the setup costs of the enabled optional features are charged in month
    1 and in no other month, and every month carries the same fixed cost,
    the total computed once before the loop. *)
Theorem one_offs_in_month_1_only E sc L res :
  parse_scenario sc = OK L ->
  simulate E sc = OK res ->
  forall k row,
    rows res !! k = Some row ->
    cost_fixed row = _compute_fixed_monthly E (toggles L)
    /\ (k = 0%nat -> cost_oneoff row == py_sum (charged_setups E (toggles L)))
    /\ (k <> 0%nat -> cost_oneoff row = 0).
Proof.
  intros HL H k row Hk.
  destruct (simulate_rows_origin E sc res H)
    as (L' & rows0 & HL' & Hrows & Horig).
  rewrite HL in HL'. injection HL' as <-.
  destruct (Horig k row Hk) as (r0 & Hr0 & Hun & _).
  destruct (loop_rows_lookup _ _ _ _ _ _ _ _ Hrows k r0 Hr0)
    as (m & a & c & Hm & Hbody).
  apply month_range_lookup in Hm.
  destruct (month_body_population _ _ _ _ _ _ _ _ Hbody)
    as (_ & _ & _ & _ & Hfix & Hone).
  unfold untouched in Hun.
  destruct Hun as (_ & _ & _ & _ & _ & _ & _ & _ & _ & _ & _ & _ & _
                   & U14 & U15 & _).
  rewrite U14, U15, Hfix, Hone.
  destruct (compute_one_offs_spec E (months L) (toggles L)) as [Hnone Hsum].
  split; [reflexivity|]. split.
  - intros ->. rewrite Hm. exact Hsum.
  - intros Hne. unfold get_or. rewrite Hnone by lia. reflexivity.
Qed.

Lemma one_offs_in_month_1_only_witness :
  exists res r1 r2,
    simulate (init sample_plan) dedicated_bin_scenario = OK res
    /\ rows res !! 0%nat = Some r1 /\ rows res !! 1%nat = Some r2
    /\ cost_oneoff r1 == 8995 /\ cost_oneoff r2 = 0
    /\ cost_fixed r1 = cost_fixed r2.
Proof.
  assert (Hrun : match parse_scenario dedicated_bin_scenario with
                 | OK L => py_sum (charged_setups (init sample_plan) (toggles L))
                           == 8995
                 | Raise _ => False
                 end) by (vm_compute; reflexivity).
  assert (Hok : match simulate (init sample_plan) dedicated_bin_scenario with
                | OK res => is_Some (rows res !! 0%nat)
                            /\ is_Some (rows res !! 1%nat)
                | Raise _ => False
                end) by (vm_compute; split; eexists; reflexivity).
  destruct (parse_scenario dedicated_bin_scenario) as [L|e] eqn:HL;
    [|destruct Hrun].
  destruct (simulate (init sample_plan) dedicated_bin_scenario)
    as [res|e] eqn:H; [|destruct Hok].
  destruct Hok as [[r1 Hr1] [r2 Hr2]].
  destruct (one_offs_in_month_1_only _ _ _ _ HL H _ _ Hr1) as (F1 & O1 & _).
  destruct (one_offs_in_month_1_only _ _ _ _ HL H _ _ Hr2) as (F2 & _ & O2).
  exists res, r1, r2. split; [reflexivity|]. split; [exact Hr1|].
  split; [exact Hr2|]. split; [rewrite (O1 eq_refl); exact Hrun|].
  split; [apply O2; discriminate|congruence].
Defined.

(** *** Issuance and card growth *)

Lemma no_issuance_row E sc L res k row :
  parse_scenario sc = OK L ->
  simulate E sc = OK res ->
  net_adds L <= 0 \/ issued_equals_net_adds L = false ->
  rows res !! k = Some row ->
  issued_cards row = 0 /\ issued_physical row == 0
  /\ issued_virtual row == 0 /\ cost_physical row = 0.
Proof.
  intros HL H Hnone Hk.
  destruct (simulate_rows_origin E sc res H)
    as (L' & rows0 & HL' & Hrows & Horig).
  rewrite HL in HL'. injection HL' as <-.
  destruct (Horig k row Hk) as (r0 & Hr0 & Hun & _).
  destruct (loop_rows_lookup _ _ _ _ _ _ _ _ Hrows k r0 Hr0)
    as (m & a & c & _ & Hbody).
  destruct (month_body_population _ _ _ _ _ _ _ _ Hbody)
    as (Hiss & Hphys & Hvirt & Hcost & _).
  assert (Hzero : issued_cards r0 = 0).
  { rewrite Hiss. unfold py_max. destruct Hnone as [Hle| ->].
    - destruct (issued_equals_net_adds L); [|reflexivity].
      assert (Qltb 0 (net_adds L) = false) as -> by (now apply Qltb_ge).
      reflexivity.
    - reflexivity. }
  unfold untouched in Hun.
  destruct Hun as (_ & _ & U3 & U4 & U5 & _ & _ & _ & _ & _ & _ & _ & _
                   & _ & _ & _ & _ & _ & _ & U20 & _).
  rewrite U3, U4, U5, U20, Hcost, Hvirt, Hphys, Hzero.
  split; [reflexivity|]. split; [ring|]. split; [ring|].
  unfold _compute_physical_costs.
  assert (Qle_bool (0 * physical_share L) 0 = true) as ->.
  { apply Qle_bool_iff. assert (0 * physical_share L == 0) as -> by ring.
    apply Qle_refl. }
  reflexivity.
Qed.

(** X13: without positive net adds, or when issuance does not follow net adds,
    no card is issued in any month and no physical-card cost is charged,
    whatever the physical share and the physical toggles. *)
Theorem no_net_adds_no_issuance E sc L res :
  parse_scenario sc = OK L ->
  simulate E sc = OK res ->
  net_adds L <= 0 \/ issued_equals_net_adds L = false ->
  Forall (fun r => issued_cards r = 0 /\ issued_physical r == 0
                   /\ issued_virtual r == 0 /\ cost_physical r = 0)
         (rows res).
Proof.
  intros HL H Hnone. apply Forall_lookup. intros k row Hk.
  exact (no_issuance_row E sc L res k row HL H Hnone Hk).
Qed.

Lemma no_net_adds_no_issuance_witness :
  exists res,
    simulate (init sample_plan) base_scenario = OK res
    /\ Forall (fun r => issued_cards r = 0 /\ issued_physical r == 0
                        /\ issued_virtual r == 0 /\ cost_physical r = 0)
              (rows res).
Proof.
  assert (Hrun : match parse_scenario base_scenario with
                 | OK L => net_adds L <= 0
                 | Raise _ => False
                 end) by (vm_compute; discriminate).
  assert (Hok : is_ok (simulate (init sample_plan) base_scenario) = true)
    by (vm_compute; reflexivity).
  destruct (parse_scenario base_scenario) as [L|e] eqn:HL; [|contradiction].
  destruct (simulate (init sample_plan) base_scenario) as [res|e] eqn:H;
    [|discriminate Hok].
  exists res. split; [reflexivity|].
  exact (no_net_adds_no_issuance _ _ _ _ HL H (or_introl Hrun)).
Defined.

Lemma zero_churn_row E sc L res k row :
  parse_scenario sc = OK L ->
  simulate E sc = OK res ->
  churn_rate L == 0 -> 0 <= net_adds L -> 0 <= start_active L ->
  rows res !! k = Some row ->
  active_cards row == start_active L + inject_Z (Z.of_nat (S k)) * net_adds L.
Proof.
  intros HL H Hchurn Hnet Hstart Hk.
  destruct (simulate_rows_origin E sc res H)
    as (L' & rows0 & HL' & Hrows & Horig).
  rewrite HL in HL'. injection HL' as <-.
  destruct (Horig k row Hk) as (r0 & Hr0 & Hun & _).
  unfold untouched in Hun. destruct Hun as (_ & U2 & _). rewrite U2.
  exact (loop_rows_zero_churn _ _ _ _ _ _ _ _ Hrows Hchurn Hnet Hstart
           k r0 Hr0).
Qed.

(** X14: without churn the active cards grow by the net adds every month: the
    row of month k+1 holds [start + (k+1) * net_adds] cards; with no net
    adds either, the count stays at its starting value. *)
Theorem zero_churn_linear_growth E sc L res :
  parse_scenario sc = OK L ->
  simulate E sc = OK res ->
  churn_rate L == 0 -> 0 <= net_adds L -> 0 <= start_active L ->
  forall k row,
    rows res !! k = Some row ->
    active_cards row
    == start_active L + inject_Z (Z.of_nat (S k)) * net_adds L
    /\ (net_adds L == 0 -> active_cards row == start_active L).
Proof.
  intros HL H Hchurn Hnet Hstart k row Hk.
  pose proof (zero_churn_row E sc L res k row HL H Hchurn Hnet Hstart Hk)
    as Hgrow.
  split; [exact Hgrow|]. intros Hz. rewrite Hgrow, Hz. ring.
Qed.

Lemma zero_churn_linear_growth_witness :
  exists res,
    simulate (init sample_plan) base_scenario = OK res
    /\ forall k row, rows res !! k = Some row -> active_cards row == 3000.
Proof.
  assert (Hrun : match parse_scenario base_scenario with
                 | OK L => churn_rate L == 0 /\ 0 <= net_adds L
                           /\ 0 <= start_active L /\ net_adds L == 0
                           /\ start_active L == 3000
                 | Raise _ => False
                 end) by (vm_compute; repeat split; discriminate).
  assert (Hok : is_ok (simulate (init sample_plan) base_scenario) = true)
    by (vm_compute; reflexivity).
  destruct (parse_scenario base_scenario) as [L|e] eqn:HL; [|contradiction].
  destruct (simulate (init sample_plan) base_scenario) as [res|e] eqn:H;
    [|discriminate Hok].
  destruct Hrun as (H1 & H2 & H3 & H4 & H5).
  exists res. split; [reflexivity|]. intros k row Hk.
  destruct (zero_churn_linear_growth _ _ _ _ HL H H1 H2 H3 k row Hk)
    as [_ Hconst].
  rewrite (Hconst H4). exact H5.
Defined.

(** ** The KPIs *)

Lemma calculate_kpis_fields rows months fee_opt kp :
  _calculate_kpis rows months fee_opt = OK kp ->
  KPI.profit_year1 kp = py_sum (map profit (slice_to rows 12))
  /\ KPI.profit_year2 kp
     = (if (24 <=? months)%Z
        then Some (py_sum (map profit (slice rows 12 24))) else None)
  /\ KPI.profit_year3 kp
     = (if (36 <=? months)%Z
        then Some (py_sum (map profit (slice rows 24 36))) else None)
  /\ KPI.total_revenue kp = py_sum (map total_revenue rows)
  /\ KPI.total_costs kp = py_sum (map total_costs rows)
  /\ KPI.total_profit kp = py_sum (map profit rows)
  /\ py_div_or_zero rows (KPI.total_profit kp) (KPI.avg_monthly_profit kp)
  /\ KPI.is_solved_breakeven kp
     = match fee_opt with Some _ => true | None => false end
  /\ KPI.profit_status kp
     = (if Qltb (Qabs (KPI.total_profit kp)) 1 then "balanced"
        else if Qltb 0 (KPI.total_profit kp) then "profitable" else "loss")
  /\ KPI.roi_percent kp
     = (if Qltb 0 (KPI.total_costs kp)
        then Some (KPI.total_profit kp / KPI.total_costs kp * 100)
        else None).
Proof.
  unfold _calculate_kpis, py_div_or_zero. intros H.
  apply rbind_ok in H as (avg & Havg & H).
  apply rbind_ok in H as (roi & Hroi & H).
  injection H as <-. simpl.
  repeat split; try reflexivity.
  - destruct rows as [|r rs].
    + left. split; [reflexivity|]. now injection Havg as <-.
    + right. split; [discriminate|].
      unfold py_div in Havg.
      destruct (Qeq_bool _ 0); [discriminate|]. now injection Havg as <-.
  - destruct (Qltb 0 (py_sum (map total_costs rows))) eqn:E.
    + apply rbind_ok in Hroi as (q & Hq & Hroi). injection Hroi as <-.
      unfold py_div in Hq. destruct (Qeq_bool _ 0); [discriminate|].
      now injection Hq as <-.
    + now injection Hroi as <-.
Qed.

Lemma py_sum_app (xs ys : list Q) : py_sum (xs ++ ys) == py_sum xs + py_sum ys.
Proof.
  unfold py_sum. rewrite fold_left_app, fold_left_Qplus_shift. reflexivity.
Qed.

Lemma py_sum_difference {A} (f g h : A -> Q) (l : list A) :
  Forall (fun a => f a = g a - h a) l ->
  py_sum (map f l) == py_sum (map g l) - py_sum (map h l).
Proof.
  induction 1 as [|a l Ha _ IH]; simpl.
  - unfold py_sum. simpl. ring.
  - rewrite !py_sum_cons, IH, Ha. ring.
Qed.

(** X15: the KPI totals agree with the rows: total profit is total revenue
    minus total costs, and it is the cumulative profit of the last row (0
    when there is no row). *)
Theorem kpi_totals_agree_with_rows E sc res :
  simulate E sc = OK res ->
  KPI.total_profit (kpis res)
  == KPI.total_revenue (kpis res) - KPI.total_costs (kpis res)
  /\ (forall row, last (rows res) = Some row ->
        KPI.total_profit (kpis res) = cumulative_profit row)
  /\ (rows res = [] -> KPI.total_profit (kpis res) = 0).
Proof.
  intros H.
  assert (Hacc : Forall row_accounts (rows res)).
  { apply Forall_lookup. intros k row Hk.
    exact (simulate_row_accounts E sc res k row H Hk). }
  pose proof (simulate_running_profit E sc res H) as Hinv.
  apply simulate_inv in H as (L & rows0 & fo & _ & _ & _ & Hk).
  destruct (calculate_kpis_fields _ _ _ _ Hk)
    as (_ & _ & _ & Hrev & Hcost & Hprofit & _).
  rewrite Hrev, Hcost, Hprofit. split; [|split].
  - apply py_sum_difference.
    eapply Forall_impl; [exact Hacc|]. simpl.
    intros r (_ & _ & _ & _ & _ & _ & Hp). exact Hp.
  - intros row Hlast. rewrite last_lookup in Hlast.
    rewrite (Hinv _ _ Hlast).
    assert (Hlen : S (pred (length (rows res))) = length (rows res)).
    { apply lookup_lt_Some in Hlast. lia. }
    rewrite Hlen, firstn_all. reflexivity.
  - intros ->. reflexivity.
Qed.

Lemma kpi_totals_agree_with_rows_witness :
  exists res,
    simulate (init sample_plan) growth_scenario = OK res
    /\ KPI.total_profit (kpis res)
       == KPI.total_revenue (kpis res) - KPI.total_costs (kpis res).
Proof.
  assert (Hok : is_ok (simulate (init sample_plan) growth_scenario) = true)
    by (vm_compute; reflexivity).
  destruct (simulate (init sample_plan) growth_scenario) as [res|e] eqn:H;
    [|discriminate Hok].
  exists res. split; [reflexivity|].
  exact (proj1 (kpi_totals_agree_with_rows _ _ _ H)).
Defined.

Lemma simulate_rows_length E sc L res :
  parse_scenario sc = OK L -> simulate E sc = OK res ->
  length (rows res) = Z.to_nat (months L).
Proof.
  intros HL H.
  apply simulate_inv in H as (L' & rows0 & fo & HL' & H1 & H2 & _).
  rewrite HL in HL'. injection HL' as <-.
  apply solve_pass_rows in H2 as [Hlen _]. rewrite Hlen.
  rewrite (loop_rows_length _ _ _ _ _ _ _ _ (first_pass_rows E L rows0 H1)).
  apply month_range_length.
Qed.

(** X16: the profits of years 2 and 3 are reported exactly when the horizon
    reaches 24 and 36 months; for a horizon of at most 12 months the year-1
    profit is the total profit, and for a horizon of 36 months the three
    yearly profits add up to the total profit. *)
Theorem yearly_profits_follow_horizon E sc L res :
  parse_scenario sc = OK L ->
  simulate E sc = OK res ->
  (KPI.profit_year2 (kpis res) = None <-> (months L < 24)%Z)
  /\ (KPI.profit_year3 (kpis res) = None <-> (months L < 36)%Z)
  /\ ((months L <= 12)%Z ->
      KPI.profit_year1 (kpis res) = KPI.total_profit (kpis res))
  /\ (months L = 36%Z ->
      exists y2 y3,
        KPI.profit_year2 (kpis res) = Some y2
        /\ KPI.profit_year3 (kpis res) = Some y3
        /\ KPI.total_profit (kpis res)
           == KPI.profit_year1 (kpis res) + y2 + y3).
Proof.
  intros HL H. pose proof (simulate_rows_length E sc L res HL H) as Hlen.
  apply simulate_inv in H as (L' & rows0 & fo & HL' & _ & _ & Hk).
  rewrite HL in HL'. injection HL' as <-.
  destruct (calculate_kpis_fields _ _ _ _ Hk)
    as (Hy1 & Hy2 & Hy3 & _ & _ & Htp & _).
  rewrite Hy1, Hy2, Hy3, Htp. split; [|split; [|split]].
  - destruct (Z.leb_spec 24 (months L)); split; try discriminate; try lia.
    reflexivity.
  - destruct (Z.leb_spec 36 (months L)); split; try discriminate; try lia.
    reflexivity.
  - intros Hm. rewrite slice_to_nonneg by lia.
    rewrite take_ge by (rewrite Hlen; lia). reflexivity.
  - intros Hm. rewrite Hm. simpl. eexists. eexists.
    split; [reflexivity|]. split; [reflexivity|].
    rewrite slice_to_nonneg by lia. unfold slice. simpl.
    rewrite <- (take_drop 12 (rows res)) at 1.
    rewrite <- (take_drop 12 (drop 12 (rows res))) at 1.
    rewrite drop_drop. simpl.
    rewrite !map_app, !py_sum_app.
    rewrite (take_ge (drop 24 (rows res)) 12)
      by (rewrite length_drop, Hlen, Hm; simpl; lia).
    change (Z.to_nat 12) with 12%nat. ring.
Qed.

Lemma yearly_profits_follow_horizon_witness :
  exists res,
    simulate (init sample_plan) base_scenario = OK res
    /\ KPI.profit_year2 (kpis res) = None
    /\ KPI.profit_year1 (kpis res) = KPI.total_profit (kpis res).
Proof.
  assert (Hrun : match parse_scenario base_scenario with
                 | OK L => months L = 12%Z
                 | Raise _ => False
                 end) by (vm_compute; reflexivity).
  assert (Hok : is_ok (simulate (init sample_plan) base_scenario) = true)
    by (vm_compute; reflexivity).
  destruct (parse_scenario base_scenario) as [L|e] eqn:HL; [|destruct Hrun].
  destruct (simulate (init sample_plan) base_scenario) as [res|e] eqn:H;
    [|discriminate Hok].
  destruct (yearly_profits_follow_horizon _ _ _ _ HL H) as (Y2 & _ & Y1 & _).
  exists res. split; [reflexivity|]. split.
  - apply Y2. lia.
  - apply Y1. lia.
Defined.

(** X17: the outcome is "balanced" when the total profit is within 1 of zero,
    "profitable" from a total profit of 1 on and "loss" from -1 down. *)
Theorem profit_status_classifies_total_profit rows months fee_opt kp :
  _calculate_kpis rows months fee_opt = OK kp ->
  (Qabs (KPI.total_profit kp) < 1 -> KPI.profit_status kp = "balanced")
  /\ (1 <= KPI.total_profit kp -> KPI.profit_status kp = "profitable")
  /\ (KPI.total_profit kp <= -1 -> KPI.profit_status kp = "loss").
Proof.
  intros H. destruct (calculate_kpis_fields _ _ _ _ H)
    as (_ & _ & _ & _ & _ & _ & _ & _ & Hst & _).
  rewrite Hst. set (tp := KPI.total_profit kp).
  destruct (Qltb (Qabs tp) 1) eqn:E1; qbool.
  - apply Qabs_Qlt_condition in E1 as [Hlo Hhi].
    split; [reflexivity|]. split; intros Hc; lra.
  - destruct (Qltb 0 tp) eqn:E2; qbool.
    + rewrite Qabs_pos in E1 by lra.
      split; [intros Hc; rewrite Qabs_pos in Hc by lra; lra|].
      split; [reflexivity|intros Hc; lra].
    + rewrite Qabs_neg in E1 by lra.
      split; [intros Hc; rewrite Qabs_neg in Hc by lra; lra|].
      split; [intros Hc; lra|reflexivity].
Qed.

Lemma profit_status_classifies_total_profit_witness :
  exists res,
    simulate (init sample_plan) no_cards_scenario = OK res
    /\ KPI.total_profit (kpis res) <= -1
    /\ KPI.profit_status (kpis res) = "loss".
Proof.
  assert (Hrun : match simulate (init sample_plan) no_cards_scenario with
                 | OK res => Qle_bool (KPI.total_profit (kpis res)) (-1) = true
                 | Raise _ => False
                 end) by (vm_compute; reflexivity).
  destruct (simulate (init sample_plan) no_cards_scenario) as [res|e] eqn:H;
    [|destruct Hrun].
  apply Qle_bool_iff in Hrun.
  apply simulate_inv in H as (L & rows0 & fo & _ & _ & _ & Hk).
  destruct (profit_status_classifies_total_profit _ _ _ _ Hk) as (_ & _ & Hl).
  exists res. split; [reflexivity|]. split; [exact Hrun|]. exact (Hl Hrun).
Defined.

(** X18: ROI is absent exactly when the total costs are 0 or less, and is the
    total profit over the total costs, in percent, otherwise; the average
    monthly profit times the number of rows is the total profit. *)
Theorem roi_and_average_profit rows months fee_opt kp :
  _calculate_kpis rows months fee_opt = OK kp ->
  (KPI.roi_percent kp = None <-> KPI.total_costs kp <= 0)
  /\ (forall r, KPI.roi_percent kp = Some r ->
        r * KPI.total_costs kp == 100 * KPI.total_profit kp)
  /\ KPI.avg_monthly_profit kp * inject_Z (Z.of_nat (length rows))
     == match rows with [] => 0 | _ :: _ => KPI.total_profit kp end.
Proof.
  intros H. destruct (calculate_kpis_fields _ _ _ _ H)
    as (_ & _ & _ & _ & _ & _ & Havg & _ & _ & Hroi).
  rewrite Hroi. destruct (Qltb 0 (KPI.total_costs kp)) eqn:E; qbool.
  - split; [split; [discriminate|intros Hc; lra]|]. split.
    + intros r [= <-]. field. lra.
    + destruct Havg as [[-> ->]|[Hne ->]]; [reflexivity|].
      destruct rows as [|r0 rs]; [congruence|]. field.
      unfold Qeq. simpl. lia.
  - split; [split; [intros _; exact E|reflexivity]|]. split.
    + intros r Hr. discriminate.
    + destruct Havg as [[-> ->]|[Hne ->]]; [reflexivity|].
      destruct rows as [|r0 rs]; [congruence|]. field.
      unfold Qeq. simpl. lia.
Qed.

Lemma roi_and_average_profit_witness :
  exists res r,
    simulate (init sample_plan) base_scenario = OK res
    /\ KPI.roi_percent (kpis res) = Some r
    /\ r * KPI.total_costs (kpis res) == 100 * KPI.total_profit (kpis res).
Proof.
  assert (Hrun : match simulate (init sample_plan) base_scenario with
                 | OK res => is_Some (KPI.roi_percent (kpis res))
                 | Raise _ => False
                 end) by (vm_compute; eexists; reflexivity).
  destruct (simulate (init sample_plan) base_scenario) as [res|e] eqn:H;
    [|destruct Hrun].
  destruct Hrun as [r Hr].
  apply simulate_inv in H as (L & rows0 & fo & _ & _ & _ & Hk).
  destruct (roi_and_average_profit _ _ _ _ Hk) as (_ & Hroi & _).
  exists res, r. split; [reflexivity|]. split; [exact Hr|]. exact (Hroi r Hr).
Defined.

(** X19: the required fee is reported exactly in mode [solve_employee_fee], and
    [is_solved_breakeven] is set exactly then, whatever the target type. *)
Theorem required_fee_reported_in_solve_mode_only E sc L res :
  parse_scenario sc = OK L ->
  simulate E sc = OK res ->
  (KPI.required_employee_fee_month (kpis res) = None
   <-> b2b_mode L <> "solve_employee_fee")
  /\ (KPI.is_solved_breakeven (kpis res) = true
      <-> b2b_mode L = "solve_employee_fee").
Proof.
  intros HL H.
  apply simulate_inv in H as (L' & rows0 & fo & HL' & _ & H2 & Hk).
  rewrite HL in HL'. injection HL' as <-.
  destruct (calculate_kpis_total (rows res) (months L) fo)
    as (kp & Hkp & Hreq & _).
  rewrite Hk in Hkp. injection Hkp as <-.
  destruct (calculate_kpis_fields _ _ _ _ Hk)
    as (_ & _ & _ & _ & _ & _ & _ & Hsolved & _).
  rewrite Hreq, Hsolved.
  apply solve_pass_inv in H2 as [(Hm & fee & _ & -> & _)|(Hm & -> & _)].
  - split; split; try discriminate; try congruence; reflexivity.
  - split; split; try discriminate; try congruence; reflexivity.
Qed.

Lemma required_fee_reported_in_solve_mode_only_witness :
  exists res,
    simulate (init sample_plan) base_scenario = OK res
    /\ KPI.required_employee_fee_month (kpis res) = None.
Proof.
  assert (Hrun : match parse_scenario base_scenario with
                 | OK L => b2b_mode L <> "solve_employee_fee"
                 | Raise _ => False
                 end) by (vm_compute; discriminate).
  assert (Hok : is_ok (simulate (init sample_plan) base_scenario) = true)
    by (vm_compute; reflexivity).
  destruct (parse_scenario base_scenario) as [L|e] eqn:HL; [|destruct Hrun].
  destruct (simulate (init sample_plan) base_scenario) as [res|e] eqn:H;
    [|discriminate Hok].
  exists res. split; [reflexivity|].
  apply (proj1 (required_fee_reported_in_solve_mode_only _ _ _ _ HL H)).
  exact Hrun.
Defined.

(** *** Degenerate horizons *)

Lemma slice_to_nil {A} (k : Z) : slice_to (@nil A) k = [].
Proof.
  unfold slice_to. destruct (k <? 0)%Z; apply firstn_nil.
Qed.

(** X20: with a horizon of 0 months or less [simulate] runs no month: it
    returns no row, whatever the pricing plan, with a total profit of 0,
    the status "balanced", no breakeven month and no ROI; in solve mode
    the required fee is 0. *)
Theorem nonpositive_horizon_gives_no_rows E sc L :
  parse_scenario sc = OK L ->
  (months L <= 0)%Z ->
  exists res,
    simulate E sc = OK res
    /\ rows res = []
    /\ KPI.total_profit (kpis res) = 0
    /\ KPI.avg_monthly_profit (kpis res) = 0
    /\ KPI.profit_status (kpis res) = "balanced"
    /\ KPI.breakeven_month (kpis res) = None
    /\ KPI.roi_percent (kpis res) = None
    /\ (b2b_mode L = "solve_employee_fee" ->
        KPI.required_employee_fee_month (kpis res) = Some 0).
Proof.
  intros HL Hm.
  assert (Hfp : first_pass E L = OK []).
  { unfold first_pass, month_range.
    replace (Z.to_nat (months L)) with 0%nat by lia. reflexivity. }
  assert (Hres : exists res fo,
             simulate E sc = OK res /\ rows res = []
             /\ _calculate_kpis [] (months L) fo = OK (kpis res)
             /\ (b2b_mode L = "solve_employee_fee" -> fo = Some 0)).
  { destruct (String.eqb_spec (b2b_mode L) "solve_employee_fee") as [Hs|Hs].
    - destruct (solve_employee_fee_value [] (companies L)
                  (platform_fee_company_month L) (target_months L)
                  (target_type L) (target L)) as (fee & Hfee & Hzero & _).
      rewrite slice_to_nil in Hzero.
      assert (Hf0 : fee = 0) by (apply Hzero; discriminate).
      subst fee.
      destruct (simulate_solve_mode E sc L [] 0 HL Hfp Hs Hfee)
        as (res & Hsim & Hrows & _).
      exists res, (Some 0). split; [exact Hsim|]. split; [exact Hrows|].
      split; [|auto].
      apply simulate_inv in Hsim as (L' & rows0 & fo & HL' & H1 & H2 & Hk).
      rewrite HL in HL'. injection HL' as <-.
      rewrite Hfp in H1. injection H1 as <-.
      apply solve_pass_inv in H2 as [(_ & fee & Hfee' & -> & _)|(Hn & _)];
        [|congruence].
      rewrite Hfee in Hfee'. injection Hfee' as <-.
      rewrite Hrows in Hk. exact Hk.
    - destruct (calculate_kpis_total [] (months L) None) as (kp & Hkp & _).
      eexists. exists None. unfold simulate. rewrite HL. cbn [rbind].
      rewrite Hfp. cbn [rbind]. unfold solve_pass.
      apply String.eqb_neq in Hs. rewrite Hs. cbn [rbind fst snd].
      rewrite Hkp. cbn [rbind].
      split; [reflexivity|]. split; [reflexivity|]. split; [reflexivity|].
      intros Hc. apply String.eqb_neq in Hs. congruence. }
  destruct Hres as (res & fo & Hsim & Hrows & Hk & Hfo).
  destruct (calculate_kpis_total [] (months L) fo) as (kp & Hkp & Hreq & Hbe).
  rewrite Hk in Hkp. injection Hkp as <-.
  destruct (calculate_kpis_fields _ _ _ _ Hk)
    as (_ & _ & _ & _ & Htc & Htp & Havg & _ & Hst & Hroi).
  exists res. split; [exact Hsim|]. split; [exact Hrows|].
  split; [exact Htp|]. split.
  { destruct Havg as [[_ Ha]|[Hne _]]; [exact Ha|congruence]. }
  split; [rewrite Hst, Htp; reflexivity|].
  split; [rewrite Hbe; reflexivity|].
  split; [rewrite Hroi, Htc; reflexivity|].
  intros Hs. rewrite Hreq. exact (Hfo Hs).
Qed.

Lemma nonpositive_horizon_gives_no_rows_witness :
  exists res,
    simulate (init sample_plan) zero_horizon_scenario = OK res
    /\ rows res = []
    /\ KPI.required_employee_fee_month (kpis res) = Some 0.
Proof.
  assert (Hrun : match parse_scenario zero_horizon_scenario with
                 | OK L => (months L <= 0)%Z
                           /\ b2b_mode L = "solve_employee_fee"
                 | Raise _ => False
                 end) by (vm_compute; split; [discriminate|reflexivity]).
  destruct (parse_scenario zero_horizon_scenario) as [L|e] eqn:HL;
    [|destruct Hrun].
  destruct Hrun as [Hm Hs].
  destruct (nonpositive_horizon_gives_no_rows (init sample_plan) _ L HL Hm)
    as (res & Hsim & Hrows & _ & _ & _ & _ & _ & Hfee).
  exists res. split; [exact Hsim|]. split; [exact Hrows|]. exact (Hfee Hs).
Defined.

(** *** The solved fee and its target *)

(** X21: in solve mode, over a target window that lies within the horizon, the
    solved fee makes the profit of the window equal to the target: 0 for a
    breakeven target, the amount for a profit target and the amount times
    the non-B2B revenue of the window for a margin target, provided the
    window has active cards and the fee is not clamped at 0. *)
Theorem solved_fee_meets_target E sc L res :
  parse_scenario sc = OK L ->
  simulate E sc = OK res ->
  b2b_mode L = "solve_employee_fee" ->
  (0 <= target_months L <= months L)%Z ->
  let window := take (Z.to_nat (target_months L)) (rows res) in
  let sum_active := py_sum (map active_cards window) in
  let sum_rev := py_sum (map rev_excl_b2b window) in
  let target_profit :=
    if String.eqb (target_type L) "profit"
    then default 0 (bt_amount (target L))
    else if String.eqb (target_type L) "margin"
    then sum_rev * default 0 (bt_amount (target L))
    else 0 in
  let needed :=
    py_sum (map costs_excl_b2b window) - sum_rev + target_profit
    - companies L * platform_fee_company_month L
      * inject_Z (target_months L) in
  0 < sum_active -> 0 <= needed ->
  py_sum (map profit window) == target_profit.
Proof.
  intros HL H Hm Htm window sum_active sum_rev target_profit needed Hsa Hneed.
  apply simulate_inv in H as (L' & rows0 & fo & HL' & H1 & H2 & Hk).
  rewrite HL in HL'. injection HL' as <-.
  apply solve_pass_inv in H2 as [(_ & fee & Hfee & -> & Hr)|(Hm' & _)];
    [|congruence].
  assert (Hlen : length rows0 = Z.to_nat (months L)).
  { rewrite (loop_rows_length _ _ _ _ _ _ _ _ (first_pass_rows E L rows0 H1)).
    apply month_range_length. }
  set (n := Z.to_nat (target_months L)) in *.
  assert (Hn : (n <= length rows0)%nat) by lia.
  assert (Hsame : forall {A} (f : MonthlyResult -> A),
             (forall cumulative k row r0,
                 recalculate (companies L) (platform_fee_company_month L)
                             fee cumulative rows0 !! k = Some row ->
                 rows0 !! k = Some r0 -> f row = f r0) ->
             map f window = map f (take n rows0)).
  { intros A f Hf. unfold window.
    rewrite Hr, <- !firstn_map, (recalculate_map f _ _ _ _ Hf). reflexivity. }
  assert (Hcosts : map costs_excl_b2b window = map costs_excl_b2b (take n rows0)).
  { apply Hsame. intros c k row r0 Hk1 Hk0.
    apply recalculate_lookup in Hk1 as (r0' & E0 & _ & _ & Hc & _).
    congruence. }
  assert (Hrev : map rev_excl_b2b window = map rev_excl_b2b (take n rows0)).
  { apply Hsame. intros c k row r0 Hk1 Hk0.
    apply recalculate_lookup in Hk1 as (r0' & E0 & _ & _ & _ & Hc & _).
    congruence. }
  assert (Hact : map active_cards window = map active_cards (take n rows0)).
  { apply Hsame. intros c k row r0 Hk1 Hk0.
    apply recalculate_lookup in Hk1 as (r0' & E0 & _ & Hc & _).
    congruence. }
  destruct (solve_employee_fee_value rows0 (companies L)
              (platform_fee_company_month L) (target_months L)
              (target_type L) (target L)) as (fee' & Hfee' & _ & Hpos).
  rewrite Hfee in Hfee'. injection Hfee' as <-.
  replace (Z.min (target_months L) (Z.of_nat (length rows0)))
    with (target_months L) in Hpos by lia.
  rewrite slice_to_nonneg in Hpos by lia. fold n in Hpos.
  rewrite <- Hcosts, <- Hrev, <- Hact in Hpos.
  fold sum_active in Hpos. fold sum_rev in Hpos. fold target_profit in Hpos.
  specialize (Hpos Hsa).
  assert (Happlied : Forall (fee_applied (companies L)
                               (platform_fee_company_month L) fee) (rows res)).
  { rewrite Hr. apply recalculate_fee_applied. }
  unfold window.
  rewrite (profit_sum_fee_applied _ _ _ _ (Forall_take _ n _ Happlied)).
  rewrite length_take_le by (rewrite Hr, recalculate_length; exact Hn).
  fold window. fold sum_active. fold sum_rev.
  assert (Hnz : inject_Z (Z.of_nat n) == inject_Z (target_months L)).
  { unfold n. rewrite Z2Nat.id by lia. reflexivity. }
  rewrite Hnz, Hpos.
  match goal with |- context [py_max 0 ?q] =>
    assert (Heq : q == needed / sum_active)
      by (unfold needed; field; lra)
  end.
  assert (Hq : 0 <= needed / sum_active).
  { apply Qle_shift_div_l; [exact Hsa|]. lra. }
  rewrite py_max_nonneg by (rewrite Heq; exact Hq).
  rewrite Heq. unfold needed. field. lra.
Qed.

Lemma solved_fee_meets_target_witness :
  exists res,
    simulate (init unit_plan) unit_scenario = OK res
    /\ py_sum (map profit (take 2 (rows res))) == 50.
Proof.
  assert (Hrun :
    match parse_scenario unit_scenario with
    | OK L =>
        match simulate (init unit_plan) unit_scenario with
        | OK res =>
            (b2b_mode L = "solve_employee_fee"
             /\ (0 <= target_months L <= months L)%Z)
            /\ (0 < py_sum (map active_cards
                          (take (Z.to_nat (target_months L)) (rows res)))
                /\ 0 <= py_sum (map costs_excl_b2b
                             (take (Z.to_nat (target_months L)) (rows res)))
                        - py_sum (map rev_excl_b2b
                             (take (Z.to_nat (target_months L)) (rows res)))
                        + (if String.eqb (target_type L) "profit"
                           then default 0 (bt_amount (target L))
                           else if String.eqb (target_type L) "margin"
                           then py_sum (map rev_excl_b2b
                                  (take (Z.to_nat (target_months L))
                                        (rows res)))
                                * default 0 (bt_amount (target L))
                           else 0)
                        - companies L * platform_fee_company_month L
                          * inject_Z (target_months L))
            /\ (Z.to_nat (target_months L) = 2%nat
                /\ (if String.eqb (target_type L) "profit"
                    then default 0 (bt_amount (target L))
                    else if String.eqb (target_type L) "margin"
                    then py_sum (map rev_excl_b2b
                           (take (Z.to_nat (target_months L)) (rows res)))
                         * default 0 (bt_amount (target L))
                    else 0) = 50)
        | Raise _ => False
        end
    | Raise _ => False
    end) by (vm_compute; repeat split; discriminate).
  destruct (parse_scenario unit_scenario) as [L|e] eqn:HL; [|destruct Hrun].
  destruct (simulate (init unit_plan) unit_scenario) as [res|e] eqn:H;
    [|destruct Hrun].
  destruct Hrun as ((Hm & Htm) & (Hsa & Hneed) & (Hn & Htp)).
  exists res. split; [reflexivity|].
  pose proof (solved_fee_meets_target _ _ _ _ HL H Hm Htm Hsa Hneed) as Hmeet.
  rewrite Htp, Hn in Hmeet. exact Hmeet.
Defined.

(** ** Event, physical and fixed costs *)

Lemma is_enabled_insert E (event_fees : gmap string bool) key b key' :
  key' <> key
  \/ (exists e, _event_fees_map E !! key = Some e /\ ef_mandatory e = Some true) ->
  is_enabled E (<[key := b]> event_fees) key' = is_enabled E event_fees key'.
Proof.
  intros Hcase. unfold is_enabled, get_or.
  destruct (String.eqb_spec key' key) as [->|Hne].
  - destruct Hcase as [Hc|(e & -> & ->)]; [congruence|]. reflexivity.
  - rewrite lookup_insert_ne by congruence. reflexivity.
Qed.

(** X22: the card-issue fee is charged whatever its toggle says, and so is any
    fee that the plan marks mandatory: switching such a toggle leaves the
    event costs as they are. *)
Theorem event_costs_ignore_forced_toggles
    E tg key b ops issued issued_phys tx active churned :
  key = "card_issue"
  \/ (exists e, _event_fees_map E !! key = Some e /\ ef_mandatory e = Some true) ->
  _compute_event_costs E (set_event_toggle tg key b) ops issued issued_phys
                       tx active churned
  = _compute_event_costs E tg ops issued issued_phys tx active churned.
Proof.
  intros Hcase.
  assert (Hen : forall key', key' <> "card_issue" ->
            is_enabled E (<[key := b]> (default ∅ (tg_event_fees tg))) key'
            = is_enabled E (default ∅ (tg_event_fees tg)) key').
  { intros key' Hne. apply is_enabled_insert.
    destruct Hcase as [->|Hm]; [left; exact Hne|right; exact Hm]. }
  unfold _compute_event_costs, set_event_toggle. cbn [tg_event_fees default].
  rewrite !Hen by discriminate. reflexivity.
Qed.

Lemma event_costs_ignore_forced_toggles_witness :
  _compute_event_costs (init sample_plan)
    (set_event_toggle base_toggles "card_issue" false) ∅ 100 0 0 3000 0
  = _compute_event_costs (init sample_plan) base_toggles ∅ 100 0 0 3000 0.
Proof.
  apply event_costs_ignore_forced_toggles. left. reflexivity.
Defined.

Lemma manufacturing_price_spec (n : Q) (tiers : list mfg_tier) :
  (exists pre t post,
      tiers = pre ++ t :: post
      /\ Forall (fun t' => ~ band_holds n t') pre
      /\ band_holds n t
      /\ manufacturing_price n tiers = mt_price t)
  \/ (Forall (fun t' => ~ band_holds n t') tiers
      /\ manufacturing_price n tiers = 0).
Proof.
  induction tiers as [|t rest IH]; simpl.
  - right. split; [constructor|reflexivity].
  - match goal with |- context [if ?c then _ else _] =>
      destruct c eqn:Hc end.
    + left. exists [], t, rest. split; [reflexivity|]. split; [constructor|].
      split; [|reflexivity].
      apply andb_true_iff in Hc as [Hmin Hmax]. qbool. unfold band_holds.
      split; [exact Hmin|].
      destruct (match mt_max_batch t with
                | Some v => v
                | None => match mt_max t with Some v => v | None => None end
                end); [now apply Qle_bool_iff|exact I].
    + assert (Hnot : ~ band_holds n t).
      { unfold band_holds. intros [Hmin Hmax].
        apply Qle_bool_iff in Hmin. rewrite Hmin in Hc. simpl in Hc.
        destruct (match mt_max_batch t with
                  | Some v => v
                  | None => match mt_max t with Some v => v | None => None end
                  end); [|discriminate].
        apply Qle_bool_iff in Hmax. congruence. }
      destruct IH as [(pre & t' & post & -> & Hpre & Ht' & Hp)|[Hall Hp]].
      * left. exists (t :: pre), t', post. split; [reflexivity|].
        split; [now constructor|]. split; [exact Ht'|exact Hp].
      * right. split; [now constructor|exact Hp].
Qed.

(** X23: with manufacturing on and delivery off, a positive batch of physical
    cards is charged the price of the first tier whose band holds it; when
    no band holds it, below the lowest band or above the highest, or when
    that price is 0, it is charged the first tier's price. *)
Theorem manufacturing_cost_falls_back_to_first_tier
    E tg (n : Q) (t0 : mfg_tier) (rest : list mfg_tier) :
  0 < n ->
  get_or (tg_flags tg) "physical_manufacturing" false = true ->
  get_or (tg_flags tg) "physical_delivery" false = false ->
  pp_manufacturing_tiers (pricing_plan_of E) = t0 :: rest ->
  (Forall (fun t => ~ band_holds n t) (t0 :: rest) ->
   _compute_physical_costs E tg n == n * mt_price t0)
  /\ (forall pre t post,
        t0 :: rest = pre ++ t :: post ->
        Forall (fun t' => ~ band_holds n t') pre ->
        band_holds n t ->
        _compute_physical_costs E tg n
        == n * (if Qeq_bool (mt_price t) 0 then mt_price t0 else mt_price t)).
Proof.
  intros Hn Hmfg Hdel Htiers. unfold _compute_physical_costs.
  assert (Qle_bool n 0 = false) as -> by (now apply Qle_bool_gt).
  rewrite Hmfg, Hdel, Htiers.
  destruct (manufacturing_price_spec n (t0 :: rest))
    as [(pre & t & post & Heq & Hpre & Ht & Hp)|[Hall Hp]]; rewrite Hp.
  - split.
    + intros Hnone. exfalso. rewrite Heq in Hnone.
      apply Forall_app in Hnone as [_ Hnone].
      inversion Hnone; subst. contradiction.
    + intros pre' t' post' Heq' Hpre' Ht'.
      assert (Hsame : t' = t).
      { rewrite Heq in Heq'. clear -Heq' Hpre Hpre' Ht Ht'.
        revert pre' Heq' Hpre'. induction pre as [|a pre IH];
          intros pre' Heq' Hpre'.
        - destruct pre' as [|a' pre']; [now injection Heq'|].
          injection Heq' as -> _. inversion Hpre'; subst. contradiction.
        - destruct pre' as [|a' pre'].
          + injection Heq' as -> _. inversion Hpre; subst. contradiction.
          + injection Heq' as -> Heq'. inversion Hpre; inversion Hpre'; subst.
            now apply (IH ltac:(assumption) pre'). }
      subst t'. ring.
  - split.
    + intros _. simpl. ring.
    + intros pre' t' post' Heq' _ Ht'. exfalso. rewrite Heq' in Hall.
      apply Forall_app in Hall as [_ Hall].
      inversion Hall; subst. contradiction.
Qed.

Lemma manufacturing_cost_falls_back_to_first_tier_witness :
  _compute_physical_costs (init physical_plan) manufacturing_toggles 5000
  == 5000 * 3
  /\ _compute_physical_costs (init physical_plan) manufacturing_toggles 600
     == 600 * 2.
Proof.
  destruct (manufacturing_cost_falls_back_to_first_tier
              (init physical_plan) manufacturing_toggles 5000
              (MfgTier (Some 100) None (Some (Some 499)) None 3)
              [MfgTier (Some 500) None (Some (Some 1000)) None 2])
    as [Hnone _]; try reflexivity.
  destruct (manufacturing_cost_falls_back_to_first_tier
              (init physical_plan) manufacturing_toggles 600
              (MfgTier (Some 100) None (Some (Some 499)) None 3)
              [MfgTier (Some 500) None (Some (Some 1000)) None 2])
    as [_ Hband]; try reflexivity.
  split.
  - apply Hnone. repeat constructor; unfold band_holds; simpl;
      intros [H1 H2]; revert H1 H2; unfold Qle; simpl; lia.
  - apply (Hband [MfgTier (Some 100) None (Some (Some 499)) None 3]
                 (MfgTier (Some 500) None (Some (Some 1000)) None 2) []).
    + reflexivity.
    + repeat constructor. unfold band_holds. simpl.
      intros [H1 H2]. revert H1 H2. unfold Qle. simpl. lia.
    + unfold band_holds. simpl. split; unfold Qle; simpl; lia.
Defined.

Lemma find_first {A} (f : A -> bool) (l : list A) :
  (exists pre x post,
      l = pre ++ x :: post /\ Forall (fun y => f y = false) pre
      /\ f x = true /\ find f l = Some x)
  \/ (Forall (fun y => f y = false) l /\ find f l = None).
Proof.
  induction l as [|a l IH]; simpl.
  - right. split; [constructor|reflexivity].
  - destruct (f a) eqn:Ha.
    + left. exists [], a, l. repeat split; [constructor|exact Ha].
    + destruct IH as [(pre & x & post & -> & Hpre & Hx & Hf)|[Hall Hf]].
      * left. exists (a :: pre), x, post. repeat split; auto.
      * right. split; [now constructor|exact Hf].
Qed.

(** X24: with delivery on and manufacturing off, a positive batch of physical
    cards is charged the price of the first method carrying the selected
    key (the toggle [delivery_method], else the plan's default, else
    "dhl_tracked"); an unknown key falls back to the first listed method,
    and a plan without methods charges nothing. *)
Theorem delivery_cost_falls_back_to_first_method E tg (n : Q) :
  0 < n ->
  get_or (tg_flags tg) "physical_manufacturing" false = false ->
  get_or (tg_flags tg) "physical_delivery" false = true ->
  let methods := pp_delivery_methods (pricing_plan_of E) in
  let method_key :=
    default (default "dhl_tracked" (pp_default_method (pricing_plan_of E)))
            (tg_delivery_method tg) in
  (forall pre m post,
      methods = pre ++ m :: post ->
      Forall (fun m' => dm_key m' <> method_key) pre ->
      dm_key m = method_key ->
      _compute_physical_costs E tg n == n * dm_price m)
  /\ (Forall (fun m' => dm_key m' <> method_key) methods ->
      _compute_physical_costs E tg n
      == match methods with
         | m0 :: _ => n * dm_price m0
         | [] => 0
         end).
Proof.
  intros Hn Hmfg Hdel methods method_key. unfold _compute_physical_costs.
  assert (Qle_bool n 0 = false) as -> by (now apply Qle_bool_gt).
  rewrite Hmfg, Hdel. fold methods. fold method_key.
  destruct (find_first (fun m => String.eqb (dm_key m) method_key) methods)
    as [(pre & x & post & Heq & Hpre & Hx & Hf)|[Hall Hf]]; rewrite Hf.
  - apply String.eqb_eq in Hx. split.
    + intros pre' m post' Heq' Hpre' Hm.
      assert (Hsame : m = x).
      { rewrite Heq in Heq'. clear -Heq' Hpre Hpre' Hx Hm.
        revert pre' Heq' Hpre'. induction pre as [|a pre IH];
          intros pre' Heq' Hpre'.
        - destruct pre' as [|a' pre']; [now injection Heq'|].
          injection Heq' as -> _. inversion Hpre'; subst. congruence.
        - destruct pre' as [|a' pre'].
          + injection Heq' as -> _. inversion Hpre as [|? ? Ha _]; subst.
            apply String.eqb_neq in Ha. congruence.
          + injection Heq' as -> Heq'. inversion Hpre; inversion Hpre'; subst.
            now apply (IH ltac:(assumption) pre'). }
      subst m. ring.
    + intros Hnone. exfalso. rewrite Heq in Hnone.
      apply Forall_app in Hnone as [_ Hnone].
      inversion Hnone; subst. congruence.
  - split.
    + intros pre m post Heq _ Hm. exfalso. rewrite Heq in Hall.
      apply Forall_app in Hall as [_ Hall].
      inversion Hall as [|? ? Hf' _]; subst.
      apply String.eqb_neq in Hf'. congruence.
    + intros _. destruct methods as [|m0 ms]; simpl; ring.
Qed.

Lemma delivery_cost_falls_back_to_first_method_witness :
  _compute_physical_costs (init physical_plan) delivery_toggles 10 == 10 * 2.
Proof.
  assert (Hn : 0 < 10) by reflexivity.
  assert (Hmfg : get_or (tg_flags delivery_toggles) "physical_manufacturing"
                        false = false) by reflexivity.
  assert (Hdel : get_or (tg_flags delivery_toggles) "physical_delivery"
                        false = true) by reflexivity.
  destruct (delivery_cost_falls_back_to_first_method
              (init physical_plan) delivery_toggles 10 Hn Hmfg Hdel)
    as [_ Hnone].
  apply Hnone. repeat constructor; discriminate.
Defined.

Lemma fixed_items_fold_ge (tg : toggles_config) (l : list fixed_item) :
  Forall (fun item => 0 <= fi_amount item) l ->
  forall acc,
    acc + py_sum (map fi_amount
                    (List.filter
                       (fun item => default false (fi_mandatory item)) l))
    <= fold_left
         (fun total item =>
            if default false (fi_mandatory item)
               || get_or (tg_flags tg) (fi_key item)
                         (default false (fi_enabled_by_default item))
            then total + fi_amount item else total)
         l acc.
Proof.
  induction 1 as [|a l Ha _ IH]; intros acc.
  - unfold py_sum. simpl. lra.
  - cbn [fold_left List.filter].
    destruct (default false (fi_mandatory a)) eqn:Hmand.
    + cbn [orb map]. rewrite py_sum_cons.
      specialize (IH (acc + fi_amount a)). lra.
    + cbn [orb].
      destruct (get_or (tg_flags tg) (fi_key a)
                  (default false (fi_enabled_by_default a))).
      * specialize (IH (acc + fi_amount a)). lra.
      * specialize (IH acc). lra.
Qed.

Lemma features_fold_ge (tg : toggles_config) (l : list (string * feature)) :
  Forall (fun kf => 0 <= default 0 (ft_monthly (snd kf))) l ->
  forall acc,
    acc <= fold_left
             (fun total kf =>
                if feature_enabled tg (fst kf) (snd kf)
                then total + default 0 (ft_monthly (snd kf)) else total)
             l acc.
Proof.
  induction 1 as [|a l Ha _ IH]; intros acc; cbn [fold_left]; [lra|].
  destruct (feature_enabled tg (fst a) (snd a)).
  - specialize (IH (acc + default 0 (ft_monthly (snd a)))). lra.
  - apply IH.
Qed.

(** X25: when no fee of the plan is negative, the fixed monthly total is at
    least the sum of the mandatory fees, whatever the toggles. *)
Theorem fixed_monthly_covers_mandatory_fees E tg :
  Forall (fun item => 0 <= fi_amount item)
         (pp_fixed_monthly (pricing_plan_of E)) ->
  Forall (fun kf => 0 <= default 0 (ft_monthly (snd kf)))
         (_optional_features E) ->
  py_sum (mandatory_amounts (pricing_plan_of E))
  <= _compute_fixed_monthly E tg.
Proof.
  intros Hitems Hfeat. unfold _compute_fixed_monthly, mandatory_amounts.
  pose proof (fixed_items_fold_ge tg _ Hitems 0) as H1.
  eapply Qle_trans; [|apply (features_fold_ge tg _ Hfeat)].
  lra.
Qed.

Lemma fixed_monthly_covers_mandatory_fees_witness :
  py_sum (mandatory_amounts (pricing_plan_of (init physical_plan)))
  <= _compute_fixed_monthly (init physical_plan) (Toggles ∅ None None).
Proof.
  apply fixed_monthly_covers_mandatory_fees.
  - repeat constructor; discriminate.
  - constructor.
Defined.

(** ** Scenarios in their domain *)

Lemma apply_tiers_succeeds (v : Q) (tiers : list tier) :
  0 <= v -> tiers <> [] -> exists c, apply_tiers v tiers = OK c.
Proof.
  intros Hv Hne. destruct (apply_tiers_value v tiers Hv Hne) as (c & Hc & _).
  now exists c.
Qed.

Lemma month_body_succeeds E L oo fixed m active cumulative :
  schedules_nonempty (pricing_plan_of E) -> usage_in_domain L ->
  exists row, month_body E L oo fixed m active cumulative = OK row.
Proof.
  intros (Ha & He & Hn & Ht) (Hspend & Hmult & Heea0 & Heea1 & Hecom & Hrate).
  unfold month_body.
  set (act := py_max 0 (active - active * churn_rate L + net_adds L)).
  assert (Hact : 0 <= act) by apply py_max_ge_0.
  assert (Htx : exists tx,
             (if Qle_bool (avg_ticket L) 0 then OK 0
              else let* q := py_div (act * spend_per_active L) (avg_ticket L) in
                   OK (q * auth_multiplier L)) = OK tx /\ 0 <= tx).
  { destruct (Qle_bool (avg_ticket L) 0) eqn:Havg.
    - exists 0. split; [reflexivity|lra].
    - qbool. rewrite py_div_ok by lra. simpl. eexists. split; [reflexivity|].
      apply Qmult_le_0_compat; [|exact Hmult].
      apply Qle_shift_div_l; [exact Havg|]. nra. }
  destruct Htx as (tx & -> & Htx). simpl.
  destruct (apply_tiers_succeeds act _ Hact Ha) as (c1 & ->). simpl.
  destruct (apply_tiers_succeeds (tx * eea_share L) _
              ltac:(nra) He) as (c2 & ->). simpl.
  destruct (apply_tiers_succeeds (tx - tx * eea_share L) _
              ltac:(nra) Hn) as (c3 & ->). simpl.
  assert (H3 : 0 <= tx * ecom_share L * three_ds_attempt_rate L).
  { apply Qmult_le_0_compat; [|exact Hrate].
    apply Qmult_le_0_compat; assumption. }
  destruct (apply_tiers_succeeds _ _ H3 Ht) as (c4 & ->). simpl.
  eexists. reflexivity.
Qed.

Lemma monthly_loop_succeeds E L oo fixed ms :
  schedules_nonempty (pricing_plan_of E) -> usage_in_domain L ->
  forall active cumulative acc,
    exists out, monthly_loop E L oo fixed ms active cumulative acc = OK out.
Proof.
  intros Hplan Hdom. induction ms as [|m ms IH]; intros active cumulative acc.
  - exists acc. reflexivity.
  - simpl.
    destruct (month_body_succeeds E L oo fixed m active cumulative Hplan Hdom)
      as (row & ->).
    simpl. apply IH.
Qed.

Lemma simulate_after_first_pass E sc L rows0 :
  parse_scenario sc = OK L -> first_pass E L = OK rows0 ->
  exists res, simulate E sc = OK res.
Proof.
  intros HL Hrows. unfold simulate. rewrite HL. simpl. rewrite Hrows. simpl.
  assert (Hs : exists solved, solve_pass L rows0 = OK solved).
  { unfold solve_pass.
    destruct (String.eqb (b2b_mode L) "solve_employee_fee"); [|eauto].
    destruct (solve_employee_fee_value rows0 (companies L)
                (platform_fee_company_month L) (target_months L)
                (target_type L) (target L)) as (fee & -> & _).
    simpl. eauto. }
  destruct Hs as (solved & ->). simpl.
  destruct (calculate_kpis_total (snd solved) (months L) (fst solved))
    as (kp & -> & _).
  simpl. eauto.
Qed.

(** X26: [simulate] returns a result for every scenario that has its required
    fields and whose usage figures are in their domain, on every plan with
    non-empty tier schedules: whatever the adoption, issuance, commercial
    terms, toggles, horizon and average ticket, no month raises, and the
    result has one row per month. *)
Theorem simulate_succeeds_in_domain E sc L :
  parse_scenario sc = OK L ->
  schedules_nonempty (pricing_plan_of E) -> usage_in_domain L ->
  exists res,
    simulate E sc = OK res /\ length (rows res) = Z.to_nat (months L).
Proof.
  intros HL Hplan Hdom.
  destruct (monthly_loop_succeeds E L
              (_compute_one_offs E (months L) (toggles L))
              (_compute_fixed_monthly E (toggles L))
              (month_range (months L)) Hplan Hdom (start_active L) 0 [])
    as (rows0 & Hrows).
  destruct (simulate_after_first_pass E sc L rows0 HL Hrows) as (res & Hres).
  exists res. split; [exact Hres|].
  exact (simulate_rows_length E sc L res HL Hres).
Qed.

Lemma simulate_succeeds_in_domain_witness :
  exists res,
    simulate (init sample_plan) growth_scenario = OK res
    /\ length (rows res) = 12%nat.
Proof.
  assert (HL : match parse_scenario growth_scenario with
               | OK L => usage_in_domain L /\ months L = 12%Z
               | Raise _ => False
               end)
    by (vm_compute; repeat split; discriminate).
  destruct (parse_scenario growth_scenario) as [L|e] eqn:E; [|destruct HL].
  destruct HL as [Hdom Hm].
  destruct (simulate_succeeds_in_domain (init sample_plan) growth_scenario L E)
    as (res & Hres & Hlen).
  - repeat split; discriminate.
  - exact Hdom.
  - exists res. split; [exact Hres|]. rewrite Hlen, Hm. reflexivity.
Defined.

(** ** The guard on the average ticket *)

Lemma month_body_no_ticket E L oo fixed m active cumulative :
  avg_ticket L <= 0 -> schedules_nonempty (pricing_plan_of E) ->
  exists row,
    month_body E L oo fixed m active cumulative = OK row
    /\ no_transactions row.
Proof.
  intros Havg (Ha & He & Hn & Ht). unfold month_body.
  set (act := py_max 0 (active - active * churn_rate L + net_adds L)).
  assert (Hact : 0 <= act) by apply py_max_ge_0.
  apply Qle_bool_iff in Havg. rewrite Havg. cbn [rbind].
  destruct (apply_tiers_succeeds act _ Hact Ha) as (c1 & ->). cbn [rbind].
  destruct (apply_tiers_value (0 * eea_share L) _ ltac:(lra) He)
    as (c2 & -> & Hc2 & _).
  cbn [rbind].
  destruct (apply_tiers_value (0 - 0 * eea_share L) _ ltac:(lra) Hn)
    as (c3 & -> & Hc3 & _).
  cbn [rbind].
  destruct (apply_tiers_value (0 * ecom_share L * three_ds_attempt_rate L) _
              ltac:(lra) Ht) as (c4 & -> & Hc4 & _).
  cbn [rbind].
  rewrite (Hc2 ltac:(lra)), (Hc3 ltac:(lra)), (Hc4 ltac:(lra)).
  eexists. split; [reflexivity|].
  unfold no_transactions. simpl.
  split; [reflexivity|]. split; [lra|]. split; [lra|]. split; [lra|].
  split; [lra|reflexivity].
Qed.

Lemma monthly_loop_total E L oo fixed ms :
  (forall m active cumulative,
     exists row, month_body E L oo fixed m active cumulative = OK row) ->
  forall active cumulative acc,
    exists out, monthly_loop E L oo fixed ms active cumulative acc = OK out.
Proof.
  intros Hbody. induction ms as [|m ms IH]; intros active cumulative acc.
  - exists acc. reflexivity.
  - simpl. destruct (Hbody m active cumulative) as (row & ->).
    simpl. apply IH.
Qed.

(** X11: with an average ticket of 0 or less the loop counts no
    transaction instead of dividing by the ticket: on a plan with
    non-empty tier schedules [simulate] returns a result, one row per
    month, whatever the spend per card, and every row has no transaction,
    no EEA, non-EEA or 3DS volume and no authorisation or 3DS cost. *)
Theorem nonpositive_avg_ticket_gives_no_transactions E sc L :
  parse_scenario sc = OK L ->
  avg_ticket L <= 0 ->
  schedules_nonempty (pricing_plan_of E) ->
  exists res,
    simulate E sc = OK res
    /\ length (rows res) = Z.to_nat (months L)
    /\ Forall no_transactions (rows res).
Proof.
  intros HL Havg Hplan.
  assert (Hbody : forall oo fixed m active cumulative,
             exists row, month_body E L oo fixed m active cumulative = OK row).
  { intros oo fixed m active cumulative.
    destruct (month_body_no_ticket E L oo fixed m active cumulative Havg Hplan)
      as (row & Hrow & _).
    now exists row. }
  destruct (monthly_loop_total E L
              (_compute_one_offs E (months L) (toggles L))
              (_compute_fixed_monthly E (toggles L))
              (month_range (months L)) (Hbody _ _) (start_active L) 0 [])
    as (rows0 & Hrows).
  destruct (simulate_after_first_pass E sc L rows0 HL Hrows) as (res & Hres).
  exists res. split; [exact Hres|]. split.
  { exact (simulate_rows_length E sc L res HL Hres). }
  apply Forall_lookup. intros k row Hk.
  destruct (simulate_rows_origin E sc res Hres)
    as (L' & rows1 & HL' & Hloop & Horig).
  rewrite HL in HL'. injection HL' as <-.
  destruct (Horig k row Hk) as (r0 & Hr0 & Hun & _).
  destruct (loop_rows_lookup _ _ _ _ _ _ _ _ Hloop k r0 Hr0)
    as (m & a & c & _ & Hr).
  destruct (month_body_no_ticket E L
              (_compute_one_offs E (months L) (toggles L))
              (_compute_fixed_monthly E (toggles L)) m a c Havg Hplan)
    as (r1 & Hr1 & Hnone).
  rewrite Hr in Hr1. injection Hr1 as <-.
  unfold untouched in Hun.
  destruct Hun as (_ & _ & _ & _ & _ & _ & _ & U8 & U9 & U10 & U11 & _ & _
                   & _ & _ & _ & U17 & U18 & _).
  unfold no_transactions in *.
  rewrite U8, U9, U10, U11, U17, U18. exact Hnone.
Qed.

Lemma nonpositive_avg_ticket_gives_no_transactions_witness :
  exists res,
    simulate (init sample_plan) zero_ticket_scenario = OK res
    /\ length (rows res) = 12%nat
    /\ Forall no_transactions (rows res).
Proof.
  assert (HL : match parse_scenario zero_ticket_scenario with
               | OK L => avg_ticket L <= 0 /\ months L = 12%Z
               | Raise _ => False
               end)
    by (vm_compute; repeat split; discriminate).
  destruct (parse_scenario zero_ticket_scenario) as [L|e] eqn:E;
    [|destruct HL].
  destruct HL as [Havg Hm].
  destruct (nonpositive_avg_ticket_gives_no_transactions
              (init sample_plan) zero_ticket_scenario L E Havg)
    as (res & Hres & Hlen & Hall).
  - repeat split; discriminate.
  - exists res. split; [exact Hres|]. split; [|exact Hall].
    rewrite Hlen, Hm. reflexivity.
Defined.

(** ** The default scenario of the UI *)

Lemma default_scenario_parses (employees : Z) (spend_year physical_pct : Q) :
  exists L,
    parse_scenario (create_default_scenario employees spend_year physical_pct)
    = OK L
    /\ months L = 12%Z /\ start_active L = inject_Z employees
    /\ net_adds L = 0 /\ churn_rate L = 0
    /\ spend_per_active L = spend_year / 12
    /\ auth_multiplier L = 1 /\ eea_share L = 0.95
    /\ ecom_share L = 0.3 /\ three_ds_attempt_rate L = 1
    /\ b2b_mode L = "solve_employee_fee".
Proof.
  eexists. split; [vm_compute; reflexivity|].
  repeat split.
Qed.

(** X27: the scenario built by [create_default_scenario] for a non-negative
    head count and yearly spend always simulates on a plan with non-empty
    tier schedules: twelve rows, a solved fee that is not negative, the
    active cards constant at the head count, and, whatever the physical
    share and the physical toggles it switches on, no card issued and no
    physical-card cost. *)
Theorem default_scenario_simulates E (employees : Z)
    (spend_year physical_pct : Q) :
  (0 <= employees)%Z -> 0 <= spend_year ->
  schedules_nonempty (pricing_plan_of E) ->
  exists res fee,
    simulate E (create_default_scenario employees spend_year physical_pct)
    = OK res
    /\ length (rows res) = 12%nat
    /\ KPI.required_employee_fee_month (kpis res) = Some fee /\ 0 <= fee
    /\ Forall (fun r => active_cards r == inject_Z employees
                        /\ issued_cards r = 0 /\ cost_physical r = 0)
              (rows res).
Proof.
  intros Hemp Hspend Hplan.
  destruct (default_scenario_parses employees spend_year physical_pct)
    as (L & HL & Hm & Hstart & Hnet & Hchurn & Hsp & Hmult & Heea & Hecom
        & Hrate & Hmode).
  assert (Hdom : usage_in_domain L).
  { unfold usage_in_domain. rewrite Hsp, Hmult, Heea, Hecom, Hrate.
    split; [|repeat split; discriminate].
    apply Qle_shift_div_l; [reflexivity|]. lra. }
  destruct (monthly_loop_succeeds E L
              (_compute_one_offs E (months L) (toggles L))
              (_compute_fixed_monthly E (toggles L))
              (month_range (months L)) Hplan Hdom (start_active L) 0 [])
    as (rows0 & Hrows).
  destruct (simulate_after_first_pass E _ L rows0 HL Hrows) as (res & Hres).
  destruct (simulate_inv E _ res Hres) as (L' & rows1 & fee_opt & HL' & _
                                           & Hsolve & Hkp).
  rewrite HL in HL'. injection HL' as <-.
  destruct (solve_pass_inv L rows1 fee_opt (rows res) Hsolve)
    as [(_ & fee & Hfee & -> & _)|(Hno & _)]; [|congruence].
  destruct (calculate_kpis_total (rows res) (months L) (Some fee))
    as (kp & Hkp' & Hreq & _).
  rewrite Hkp in Hkp'. injection Hkp' as <-.
  exists res, fee. split; [exact Hres|]. split.
  { rewrite (simulate_rows_length E _ L res HL Hres), Hm. reflexivity. }
  split; [exact Hreq|]. split.
  { exact (solve_employee_fee_nonneg _ _ _ _ _ _ _ Hfee). }
  apply Forall_lookup. intros k row Hk.
  assert (Hstart0 : 0 <= start_active L).
  { rewrite Hstart. unfold Qle. simpl. lia. }
  pose proof (zero_churn_row E _ L res k row HL Hres
                ltac:(rewrite Hchurn; reflexivity)
                ltac:(rewrite Hnet; apply Qle_refl) Hstart0 Hk) as Hact.
  destruct (no_issuance_row E _ L res k row HL Hres
              ltac:(left; rewrite Hnet; apply Qle_refl) Hk)
    as (Hiss & _ & _ & Hphys).
  split; [|split; assumption].
  rewrite Hact, Hnet, Hstart. ring.
Qed.

Lemma default_scenario_simulates_witness :
  exists res fee,
    simulate (init sample_plan) (create_default_scenario 1000 1200 0.5)
    = OK res
    /\ length (rows res) = 12%nat
    /\ KPI.required_employee_fee_month (kpis res) = Some fee /\ 0 <= fee
    /\ Forall (fun r => active_cards r == inject_Z 1000
                        /\ issued_cards r = 0 /\ cost_physical r = 0)
              (rows res).
Proof.
  apply (default_scenario_simulates (init sample_plan) 1000 1200 0.5).
  - discriminate.
  - discriminate.
  - repeat split; discriminate.
Defined.

(** ** The employee fee outside the given mode *)

Lemma parse_set_employee_fee sc fee L :
  parse_scenario sc = OK L ->
  parse_scenario (set_employee_fee sc fee) = OK (with_employee_fee L fee).
Proof.
  unfold set_employee_fee, parse_scenario.
  destruct sc as [nm hz ad us cm tg op iss]. simpl.
  destruct hz; simpl; [|discriminate].
  destruct ad as [ad|]; simpl; [|discriminate].
  destruct us as [us|]; simpl; [|discriminate].
  destruct cm as [[pf ic [[c1 c2 c3 c4 c5]|]]|]; simpl;
    repeat match goal with
           | |- context [rbind ?r _] => destruct r; simpl
           end;
    intros H; first [discriminate H | injection H as <-; reflexivity].
Qed.

Lemma month_body_employee_fee E L fee oo fixed m active cumulative :
  b2b_mode L <> "given" ->
  month_body E (with_employee_fee L fee) oo fixed m active cumulative
  = month_body E L oo fixed m active cumulative.
Proof.
  intros Hmode. apply String.eqb_neq in Hmode.
  unfold month_body. destruct L. simpl in *. rewrite Hmode. reflexivity.
Qed.

Lemma monthly_loop_employee_fee E L fee oo fixed ms :
  b2b_mode L <> "given" ->
  forall active cumulative acc,
    monthly_loop E (with_employee_fee L fee) oo fixed ms active cumulative acc
    = monthly_loop E L oo fixed ms active cumulative acc.
Proof.
  intros Hmode. induction ms as [|m ms IH]; intros active cumulative acc.
  - reflexivity.
  - simpl. rewrite (month_body_employee_fee E L fee _ _ _ _ _ Hmode).
    destruct (month_body E L oo fixed m active cumulative); simpl;
      [apply IH|reflexivity].
Qed.

(** X28: outside the mode "given" the scenario's [employee_fee_month] is never
    used: whatever value it is set to, [simulate] returns the same result
    or raises the same error. *)
Theorem employee_fee_ignored_outside_given_mode E sc L (fee : Q) :
  parse_scenario sc = OK L ->
  b2b_mode L <> "given" ->
  simulate E (set_employee_fee sc fee) = simulate E sc.
Proof.
  intros HL Hmode. unfold simulate.
  rewrite (parse_set_employee_fee sc fee L HL), HL. simpl.
  assert (Hname : sc_name (set_employee_fee sc fee) = sc_name sc).
  { unfold set_employee_fee. destruct (sc_commercial sc) as [c|];
      [destruct (cm_b2b c)|]; reflexivity. }
  rewrite Hname.
  assert (Hfirst : first_pass E (with_employee_fee L fee) = first_pass E L)
    by (unfold first_pass;
        exact (monthly_loop_employee_fee E L fee _ _ _ Hmode _ _ _)).
  rewrite Hfirst. reflexivity.
Qed.

Lemma employee_fee_ignored_outside_given_mode_witness :
  simulate (init sample_plan) (set_employee_fee solve_scenario 99)
  = simulate (init sample_plan) solve_scenario.
Proof.
  assert (HL : match parse_scenario solve_scenario with
               | OK L => b2b_mode L <> "given"
               | Raise _ => False
               end)
    by (vm_compute; discriminate).
  destruct (parse_scenario solve_scenario) as [L|e] eqn:E; [|destruct HL].
  exact (employee_fee_ignored_outside_given_mode
           (init sample_plan) solve_scenario L 99 E HL).
Defined.
